(** * Event scrapers: extraction, de-duplication, retry and aggregation

    A shallow embedding of the two event fetchers of the repository

      - [attached_assets/abu_dhabi_events_fetcher_1762774208177.py]
        (class [AbuDhabiEventsFetcher], module [AbuDhabi] below), and
      - [attached_assets/adnec_events_fetcher.py]
        (class [AdnecEventsFetcher], module [Adnec] below),

    together with the properties their specification states about them,
    and further properties read off the code: the order and provenance
    of the records, the failure paths, the cost of a range in requests
    and waits, the browser session, and the pairing of the two
    languages.

    Conventions of the embedding.

    - A Python [str] is a [string] holding the UTF-8 bytes of the text.
      [str.strip] and the cutting of a [class] value into words remove
      the white space of Unicode (the code points of [str.isspace]),
      through the table of their UTF-8 encodings.  [str.lower] changes
      the ASCII letters only.  The lowered text is only ever compared
      with "view event", "export", "filter", "hall", "location:" and an
      Arabic word; outside ASCII, the only code points whose lower case
      holds an ASCII letter are U+0130 (an "i" followed by U+0307) and
      U+212A (a "k"), and neither can complete one of these words, so
      every such comparison has the value it has in Python.
    - A parsed document ([BeautifulSoup]) is a tree of [node]s, its
      strings told apart by their class as bs4 does: [get_text] of a
      tag leaves out what is in a script, a style sheet or a comment.
      The HTML
      parser itself, [urllib.parse.urljoin], [json.loads],
      [datetime.fromisoformat]/[strftime] and the free-text date and venue
      regular expressions are library code: they are parameters of the
      sections that use them.
      They are total functions here: an input on which the library
      itself raises (such as [urljoin] on a malformed bracketed host) is
      outside the model.
    - The network, the clock and the browser are a [World]: an oracle for
      the outcome of every request plus the trace of the effects
      performed so far.  [print] is not modelled.
    - Code that only threads the world lives in the state monad [St.t].
      The ADNEC fetcher lets Python exceptions escape in places (a
      method call on a JSON value that has no such method, a browser
      that does not start); its code lives in [Ex.t], whose outcome is
      a value or the exception raised.
    - A [for] loop over a list that appends to a result is a [flat_map]
      or a [fold_left]; a [while] loop and a loop with [break] or
      [return] are recursive functions.

    The file has the definitions first (strings, markup, the world, the
    two fetchers, sample pages, and the notions the statements are
    phrased with) and then the proofs, module by module. *)

From Stdlib Require Import String Ascii List ZArith Lia Bool Arith.
From stdpp Require Import gmap strings pretty.
Import ListNotations.
Open Scope string_scope.
Open Scope list_scope.
Set Warnings "-register-all,-notation-for-abbreviation".

(* ===================================================================== *)
(** ** Python strings *)
(* ===================================================================== *)

Module PyStr.

(** [c.isspace()] for a character of the ASCII range: TAB, LF, VT, FF,
    CR, the four separators FS..US and the blank (the class [\s] of
    the one pattern below that has it). *)
Definition is_space (c : ascii) : bool :=
  let n := nat_of_ascii c in
  (Nat.leb 9 n && Nat.leb n 13) || (Nat.leb 28 n && Nat.leb n 32).

Definition is_digit (c : ascii) : bool :=
  let n := nat_of_ascii c in Nat.leb 48 n && Nat.leb n 57.

Definition lower_char (c : ascii) : ascii :=
  let n := nat_of_ascii c in
  if Nat.leb 65 n && Nat.leb n 90 then ascii_of_nat (n + 32) else c.

(** [s.lower()], which changes the ASCII letters; the bytes of any
    other code point are kept. *)
Fixpoint lower (s : string) : string :=
  match s with
  | EmptyString => EmptyString
  | String c r => String (lower_char c) (lower r)
  end.

(** The string whose UTF-8 bytes are [l]. *)
Definition utf8 (l : list nat) : string :=
  string_of_list_ascii (map ascii_of_nat l).

(** The code points for which [str.isspace] holds, in UTF-8: the
    ASCII controls TAB..CR and FS..US, the blank, U+0085, U+00A0,
    U+1680, U+2000..U+200A, U+2028, U+2029, U+202F, U+205F and
    U+3000. *)
Definition white_space : list string :=
  Eval vm_compute in
  map utf8
    [[9]; [10]; [11]; [12]; [13]; [28]; [29]; [30]; [31]; [32];
     [194; 133]; [194; 160]; [225; 154; 128];
     [226; 128; 128]; [226; 128; 129]; [226; 128; 130]; [226; 128; 131];
     [226; 128; 132]; [226; 128; 133]; [226; 128; 134]; [226; 128; 135];
     [226; 128; 136]; [226; 128; 137]; [226; 128; 138];
     [226; 128; 168]; [226; 128; 169]; [226; 128; 175]; [226; 129; 159];
     [227; 128; 128]].

(** What is left of [l] after [w], when [l] starts with [w]. *)
Fixpoint after_prefix (w l : list ascii) : option (list ascii) :=
  match w with
  | [] => Some l
  | a :: w' =>
      match l with
      | b :: l' => if Ascii.eqb a b then after_prefix w' l' else None
      | [] => None
      end
  end.

(** What is left of [l] after the first entry of [table] it starts
    with. *)
Fixpoint skip (table : list (list ascii)) (l : list ascii) : option (list ascii) :=
  match table with
  | [] => None
  | w :: ws =>
      match after_prefix w l with
      | Some r => Some r
      | None => skip ws l
      end
  end.

(** [l] without the entries of [table] it starts with, at most [fuel]
    of them. *)
Fixpoint drop_front (table : list (list ascii)) (fuel : nat) (l : list ascii)
  : list ascii :=
  match fuel with
  | O => l
  | S fuel' =>
      match skip table l with
      | Some r => drop_front table fuel' r
      | None => l
      end
  end.

(** [l] without the entries of [table] it starts with: each entry
    taken off shortens [l], so its length is fuel enough. *)
Definition dropped (table : list (list ascii)) (l : list ascii) : list ascii :=
  drop_front table (length l) l.

(** The white space read from the left, and from the right. *)
Definition leading : list (list ascii) :=
  Eval vm_compute in map list_ascii_of_string white_space.
Definition trailing : list (list ascii) :=
  Eval vm_compute in map (fun w => rev (list_ascii_of_string w)) white_space.

(** [s.lstrip()] *)
Definition lstrip (s : string) : string :=
  string_of_list_ascii (dropped leading (list_ascii_of_string s)).

(** [s.rstrip()]: the same from the other end. *)
Definition rstrip (s : string) : string :=
  string_of_list_ascii (rev (dropped trailing (rev (list_ascii_of_string s)))).

(** A sequence of entries of [table]. *)
Inductive run (table : list (list ascii)) : list ascii -> Prop :=
| run_nil : run table []
| run_cons w l : In w table -> run table l -> run table (w ++ l).

(** [s.strip()] *)
Definition strip (s : string) : string := rstrip (lstrip s).

(** No entry of the table starts another one. *)
Definition prefix_free (table : list (list ascii)) : Prop :=
  forall w w' x x', In w table -> In w' table -> w ++ x = w' ++ x' -> w = w'.

Definition prefix_free_b (table : list (list ascii)) : bool :=
  forallb (fun w =>
             forallb (fun w' =>
                        match after_prefix w w' with
                        | Some [] => true
                        | Some _ => false
                        | None => true
                        end) table) table.

(** No byte inside a white-space code point starts one. *)
Definition apart_b (table : list (list ascii)) : bool :=
  forallb (fun w =>
             forallb (fun c =>
                        forallb (fun w2 =>
                                   match w2 with
                                   | c2 :: _ => negb (Ascii.eqb c c2)
                                   | [] => true
                                   end) table) (tl w)) table.

(** Truthiness of a string: [if s:] *)
Definition truthy (s : string) : bool :=
  match s with EmptyString => false | _ => true end.

(** [sub in s] *)
Fixpoint contains (sub s : string) : bool :=
  String.prefix sub s ||
  match s with
  | EmptyString => false
  | String _ r => contains sub r
  end.

(** [s.endswith(suf)] *)
Definition endswith (suf s : string) : bool :=
  let n := String.length s in
  let k := String.length suf in
  Nat.leb k n && String.eqb (substring (n - k) k s) suf.

(** [x in l] for a list of strings *)
Definition in_list (x : string) (l : list string) : bool :=
  existsb (String.eqb x) l.

(** [s.split(sep)] for a one-character separator. *)
Fixpoint split_char (sep : ascii) (s : string) : list string :=
  match s with
  | EmptyString => [EmptyString]
  | String c r =>
      if Ascii.eqb c sep then EmptyString :: split_char sep r
      else match split_char sep r with
           | [] => [String c EmptyString]
           | w :: ws => String c w :: ws
           end
  end.

(** [s.split(sep)[-1]] for a non-empty [sep].  [split] looks for [sep]
    from left to right and goes on after each occurrence; [last] is what
    follows the latest one found ([s] itself if none), and [skip] counts
    the characters of that occurrence still to pass. *)
Fixpoint split_last (sep : string) (skip : nat) (last s : string) : string :=
  match s with
  | EmptyString => last
  | String _ r =>
      match skip with
      | S k => split_last sep k last r
      | O =>
          if String.prefix sep s
          then split_last sep (String.length sep - 1)
                          (substring (String.length sep) (String.length s) s) r
          else split_last sep O last r
      end
  end.

Definition after_last (sep s : string) : string := split_last sep O s s.

(** Whitespace-separated words (the value list bs4 keeps for [class],
    what the pattern [\S+] finds): [cur] is the word being read, cut
    where a white-space code point starts. *)
Fixpoint words_aux (fuel : nat) (cur : string) (l : list ascii) : list string :=
  match fuel with
  | O => if truthy cur then [cur] else []
  | S fuel' =>
      match skip leading l with
      | Some rest =>
          if truthy cur then cur :: words_aux fuel' EmptyString rest
          else words_aux fuel' EmptyString rest
      | None =>
          match l with
          | [] => if truthy cur then [cur] else []
          | c :: rest => words_aux fuel' (cur +:+ String c EmptyString) rest
          end
      end
  end.

Definition words (s : string) : list string :=
  words_aux (String.length s) EmptyString (list_ascii_of_string s).

End PyStr.

(* ===================================================================== *)
(** ** Regular expressions (the fragment [re.match] is used on) *)
(* ===================================================================== *)

Module Re.

Inductive re : Type :=
| Void                               (* matches nothing *)
| Eps                                (* the empty string *)
| Chr (p : ascii -> bool)            (* one character of a class *)
| Cat (r1 r2 : re)
| Alt (r1 r2 : re)
| Star (r : re).

Definition Opt (r : re) : re := Alt r Eps.        (* r? *)
Definition Plus (r : re) : re := Cat r (Star r).  (* r+ *)

(** A literal under [re.IGNORECASE]. *)
Fixpoint lit_ci (s : string) : re :=
  match s with
  | EmptyString => Eps
  | String c r =>
      Cat (Chr (fun x => Ascii.eqb (PyStr.lower_char x) (PyStr.lower_char c)))
          (lit_ci r)
  end.

Fixpoint nullable (r : re) : bool :=
  match r with
  | Void => false
  | Eps => true
  | Chr _ => false
  | Cat r1 r2 => nullable r1 && nullable r2
  | Alt r1 r2 => nullable r1 || nullable r2
  | Star _ => true
  end.

(** Brzozowski derivative. *)
Fixpoint deriv (c : ascii) (r : re) : re :=
  match r with
  | Void => Void
  | Eps => Void
  | Chr p => if p c then Eps else Void
  | Cat r1 r2 =>
      if nullable r1
      then Alt (Cat (deriv c r1) r2) (deriv c r2)
      else Cat (deriv c r1) r2
  | Alt r1 r2 => Alt (deriv c r1) (deriv c r2)
  | Star r1 => Cat (deriv c r1) (Star r1)
  end.

(** [r] matches the whole of [s]. *)
Fixpoint fullmatch (r : re) (s : string) : bool :=
  match s with
  | EmptyString => nullable r
  | String c s' => fullmatch (deriv c r) s'
  end.

(** A regular expression that visibly matches nothing. *)
Fixpoint dead (r : re) : bool :=
  match r with
  | Void => true
  | Cat r1 _ => dead r1
  | _ => false
  end.

(** [re.match('^' + r + '$', s)]: [$] also matches just before one
    final line feed. *)
Definition match_anchored (r : re) (s : string) : bool :=
  fullmatch (Cat r (Opt (Chr (Ascii.eqb "010"%char)))) s.

End Re.

(* ===================================================================== *)
(** ** Parsed markup (BeautifulSoup) *)
(* ===================================================================== *)

Module Soup.

(** The subclasses of [NavigableString] that bs4 keeps apart from
    ordinary text: comments, the strings the parser finds inside
    [script], [style], [template], [rt] and [rp], and declarations
    ([Doctype], [Declaration], [ProcessingInstruction]). *)
Inductive string_class : Type :=
| Comment
| Script
| Stylesheet
| TemplateString
| RubyTextString
| RubyParenthesisString
| Declaration.

Definition string_class_eqb (a b : string_class) : bool :=
  match a, b with
  | Comment, Comment | Script, Script | Stylesheet, Stylesheet
  | TemplateString, TemplateString | RubyTextString, RubyTextString
  | RubyParenthesisString, RubyParenthesisString
  | Declaration, Declaration => true
  | _, _ => false
  end.

(** A string or a [Tag] with its attribute dictionary and contents.
    [Text] is a [NavigableString] proper or a [CData]; [Special] is a
    string of one of the classes above.  The document itself is a
    [Tag] named "[document]". *)
Inductive node : Type :=
| Text (s : string)
| Special (cls : string_class) (s : string)
| Elem (name : string) (attrs : list (string * string)) (contents : list node).

Definition is_tag (n : node) : bool :=
  match n with Elem _ _ _ => true | _ => false end.

Definition name_of (n : node) : string :=
  match n with Elem t _ _ => t | _ => EmptyString end.

(** [tag.attrs.get(key)] *)
Fixpoint lookup_attr (key : string) (attrs : list (string * string)) : option string :=
  match attrs with
  | [] => None
  | (k, v) :: rest => if String.eqb k key then Some v else lookup_attr key rest
  end.

Definition attr (key : string) (n : node) : option string :=
  match n with
  | Elem _ a _ => lookup_attr key a
  | _ => None
  end.

(** [tag.get(key, default)] *)
Definition get (key default : string) (n : node) : string :=
  match attr key n with Some v => v | None => default end.

(** [tag.interesting_string_types]: the class of string [get_text]
    collects below a tag of this name; [None] stands for ordinary
    text. *)
Definition interesting (name : string) : option string_class :=
  if String.eqb name "script" then Some Script
  else if String.eqb name "style" then Some Stylesheet
  else if String.eqb name "template" then Some TemplateString
  else if String.eqb name "rt" then Some RubyTextString
  else if String.eqb name "rp" then Some RubyParenthesisString
  else None.

(** The strings of the class [want] at or below [n], in document
    order, end to end. *)
Fixpoint strings_of (want : option string_class) (n : node) : string :=
  match n with
  | Text s => match want with None => s | Some _ => EmptyString end
  | Special cls s =>
      match want with
      | Some c => if string_class_eqb c cls then s else EmptyString
      | None => EmptyString
      end
  | Elem _ _ cs =>
      (fix go (l : list node) : string :=
         match l with
         | [] => EmptyString
         | c :: l' => strings_of want c +:+ go l'
         end) cs
  end.

(** [tag.get_text()]: the strings below the tag that are of the class
    the tag is interested in, so for a [div] or an [a] the ordinary
    text, without what is in a script, a style sheet or a comment. *)
Definition get_text (n : node) : string :=
  match n with
  | Elem name _ _ => strings_of (interesting name) n
  | Text s => s
  | Special _ _ => EmptyString
  end.

(** [tag.string]: the single string of a tag, of whatever class,
    looking through single children. *)
Fixpoint string_of (n : node) : option string :=
  match n with
  | Text s => Some s
  | Special _ s => Some s
  | Elem _ _ [c] => string_of c
  | Elem _ _ _ => None
  end.

(** The descendants of [n] in document order, each with its chain of
    ancestors, nearest first; [anc] is the chain of [n] itself. *)
Fixpoint walk (anc : list node) (n : node) : list (node * list node) :=
  match n with
  | Text _ | Special _ _ => []
  | Elem _ _ cs =>
      (fix go (l : list node) : list (node * list node) :=
         match l with
         | [] => []
         | c :: l' => (c, n :: anc) :: walk (n :: anc) c ++ go l'
         end) cs
  end.

(** [tag.descendants] *)
Definition descendants (n : node) : list node := map fst (walk [] n).

(** How bs4 matches the multi-valued [class] attribute against a
    criterion: any single class, else the whole value. *)
Definition class_matches (p : string -> bool) (n : node) : bool :=
  match attr "class" n with
  | None => false
  | Some v => existsb p (PyStr.words v) || p (String.concat " " (PyStr.words v))
  end.

(** A single-valued attribute against a criterion. *)
Definition attr_matches (key : string) (p : string -> bool) (n : node) : bool :=
  match attr key n with
  | None => false
  | Some v => p v
  end.

Definition named (names : list string) (n : node) : bool :=
  is_tag n && PyStr.in_list (name_of n) names.

(** [tag.find_all(...)] with the criterion [p] on tags. *)
Definition find_all (p : node -> bool) (n : node) : list node :=
  List.filter (fun d => is_tag d && p d) (descendants n).

(** [find_all], keeping for each hit its ancestors inside [n]. *)
Definition find_all_in (p : node -> bool) (n : node) : list (node * list node) :=
  List.filter (fun d => is_tag (fst d) && p (fst d)) (walk [] n).

(** [tag.find(...)] *)
Definition find (p : node -> bool) (n : node) : option node :=
  head (find_all p n).

(** [element.find_parent()] for an element found under a known root. *)
Definition find_parent (anc : list node) : option node := head anc.

End Soup.

(* ===================================================================== *)
(** ** The outside world: network, clock, browser *)
(* ===================================================================== *)

Module Io.

(** The effects a run performs, in the order it performs them. *)
Inductive io : Type :=
| HttpGet (url : string)      (* session.get(url, timeout=30) *)
| Sleep (secs : Z)            (* time.sleep(secs) *)
| ChromeStart                 (* webdriver.Chrome(service=..., options=...) *)
| ChromeGet (url : string)    (* driver.get(url) *)
| ChromeScroll                (* window.scrollTo(0, document.body.scrollHeight) *)
| ChromeQuit.                 (* driver.quit() *)

(** What the browser shows for a listing URL. *)
Record Rendered : Type := mkRendered {
  grid_present : bool;           (* the wait for "div.grid" succeeds *)
  scroll_height : nat -> Z;      (* document.body.scrollHeight after k scrolls *)
  link_count : nat -> Z;         (* event links found after k scrolls *)
  page_source : nat -> string    (* driver.page_source after k scrolls *)
}.

Record World : Type := mkWorld {
  (** outcome of the n-th request of the run when it asks for [url]:
      the body of a 2xx response, or [None] for a
      [requests.RequestException] (timeout, connection error, status). *)
  http : nat -> string -> option string;
  (** whether the driver manager and Chrome start *)
  chrome_starts : bool;
  (** what [driver.get] loads; [None] when it raises *)
  browser : string -> option Rendered;
  sent : nat;                    (* requests issued so far *)
  trace : list io                (* effects so far, oldest first *)
}.

Definition emit (e : io) (w : World) : World :=
  {| http := http w; chrome_starts := chrome_starts w; browser := browser w;
     sent := sent w; trace := trace w ++ [e] |}.

Definition count_request (w : World) : World :=
  {| http := http w; chrome_starts := chrome_starts w; browser := browser w;
     sent := S (sent w); trace := trace w |}.

(** Python exceptions that escape the modelled code. *)
Inductive exn : Type :=
| WebDriverException           (* Chrome or its driver does not start *)
| AttributeError.              (* a method the value does not have *)

Inductive result (A : Type) : Type :=
| Ok (a : A)
| Raise (e : exn).
Arguments Ok {A} a.
Arguments Raise {A} e.

End Io.

(** Code that only threads the world. *)
Module St.
Import Io.

Definition t (A : Type) : Type := World -> A * World.

Definition ret {A} (a : A) : t A := fun w => (a, w).

Definition bind {A B} (c : t A) (k : A -> t B) : t B :=
  fun w => let (a, w') := c w in k a w'.

(** [session.get(url, timeout=30)] followed by [raise_for_status()] and
    [response.text]. *)
Definition http_get (url : string) : t (option string) :=
  fun w => (http w (sent w) url, count_request (emit (HttpGet url) w)).

(** [time.sleep(secs)] *)
Definition sleep (secs : Z) : t unit :=
  fun w => (tt, emit (Sleep secs) w).

(** Any other effect, recorded in the trace. *)
Definition do (e : io) : t unit := fun w => (tt, emit e w).

End St.

(** Code from which an exception may escape. *)
Module Ex.
Import Io.

Definition t (A : Type) : Type := World -> result A * World.

Definition ret {A} (a : A) : t A := fun w => (Ok a, w).

Definition raise {A} (e : exn) : t A := fun w => (Raise e, w).

Definition bind {A B} (c : t A) (k : A -> t B) : t B :=
  fun w => match c w with
           | (Ok a, w') => k a w'
           | (Raise e, w') => (Raise e, w')
           end.

Definition lift {A} (c : St.t A) : t A :=
  fun w => let (a, w') := c w in (Ok a, w').

(** [try: c finally: f] *)
Definition finally {A} (c : t A) (f : St.t unit) : t A :=
  fun w => let (r, w') := c w in (r, snd (f w')).

(** A computed outcome, the world untouched. *)
Definition of_result {A} (r : result A) : t A := fun w => (r, w).

End Ex.

(** A small [urljoin] for running examples: absolute URLs are kept,
    absolute paths are put after the scheme and host of the base,
    anything else after the base. *)
Module UrlModel.

(** The text up to (not including) the first "/" at or after
    position [skip]. *)
Fixpoint upto_slash (skip : nat) (s : string) : string :=
  match s with
  | EmptyString => EmptyString
  | String c r =>
      match skip with
      | S k => String c (upto_slash k r)
      | O => if Ascii.eqb c "/"%char then EmptyString else String c (upto_slash O r)
      end
  end.

Definition origin (base : string) : string :=
  if String.prefix "https://" base then upto_slash 8 base
  else if String.prefix "http://" base then upto_slash 7 base
  else EmptyString.

Definition urljoin (base href : string) : string :=
  if negb (PyStr.truthy base) then href
  else if negb (PyStr.truthy href) then base
  else if PyStr.contains "://" href then href
  else if String.prefix "/" href then origin base +:+ href
  else base +:+ href.

End UrlModel.

(* ===================================================================== *)
(** ** abu_dhabi_events_fetcher: definitions *)
(* ===================================================================== *)

Module AbuDhabi.
Import Io.

Local Notation "x <- c ;; k" := (St.bind c (fun x => k))
  (at level 100, c at next level, right associativity).

(** [@dataclass class Event] *)
Record Event : Type := mkEvent {
  title : string;
  url : string;
  start_date : string;
  end_date : string;
  location : string;
  organizer : string;
  sector : string;
  description : string;
  view_event_url : string
}.

(** [Event(title=.., url=.., start_date=.., location=.., view_event_url=..)];
    the other fields take their defaults. *)
Definition new_event (title url start_date location view_event_url : string) : Event :=
  {| title := title; url := url; start_date := start_date;
     end_date := EmptyString; location := location;
     organizer := EmptyString; sector := EmptyString;
     description := EmptyString; view_event_url := view_event_url |}.

(** [self.base_url] *)
Definition base_url : string :=
  "https://www.mediaoffice.abudhabi/en/abu-dhabi-events/".

(** The label of the Arabic language switch, U+0639 U+0631 U+0628 U+064A. *)
Definition arabic_label : string := "عربي".

(** The titles the calendar view refuses. *)
Definition calendar_boilerplate : list string :=
  ["view event"; "export"; arabic_label].

(** The titles the list view refuses. *)
Definition list_boilerplate : list string :=
  ["view event"; "export"; "filter"].

(** [re.compile(r'event', re.I)] searched in a class. *)
Definition event_class (s : string) : bool :=
  PyStr.contains "event" (PyStr.lower s).

(** [re.compile(r'/abu-dhabi-events/')] searched in a link target. *)
Definition event_path (s : string) : bool :=
  PyStr.contains "/abu-dhabi-events/" s.

(** [re.compile(r'event-item|item')] searched in a class. *)
Definition item_class (s : string) : bool :=
  PyStr.contains "event-item" s || PyStr.contains "item" s.

(** [re.compile(r'View event', re.I)] searched in a tag's string. *)
Definition view_event_text (n : Soup.node) : bool :=
  match Soup.string_of n with
  | Some s => PyStr.contains "view event" (PyStr.lower s)
  | None => false
  end.

(** [find_all('a', href=re.compile(r'/abu-dhabi-events/'))] *)
Definition is_event_link (n : Soup.node) : bool :=
  Soup.named ["a"] n && Soup.attr_matches "href" event_path n.

(** [matches[0] if matches else ''] *)
Definition first_or_empty (matches : list string) : string :=
  match matches with
  | m :: _ => m
  | [] => EmptyString
  end.

(** [get_month_url] *)
Definition get_month_url (month year : Z) : string :=
  base_url +:+ "?month=" +:+ pretty month +:+ "&year=" +:+ pretty year.

(** [fetch_page]: the body of the [for attempt in range(retries)] loop,
    with [todo] iterations left. *)
Fixpoint fetch_page_loop (url : string) (retries : Z) (todo : nat) (attempt : Z)
  : St.t (option string) :=
  match todo with
  | O => St.ret None                       (* the loop ends: implicit None *)
  | S todo' =>
      response <- St.http_get url ;;
      match response with
      | Some text => St.ret (Some text)
      | None =>
          if (attempt <? retries - 1)%Z
          then _ <- St.sleep (2 ^ attempt) ;;
               fetch_page_loop url retries todo' (attempt + 1)
          else St.ret None
      end
  end.

Definition fetch_page (url : string) (retries : Z) : St.t (option string) :=
  fetch_page_loop url retries (Z.to_nat retries) 0.

(** [seen_urls] and [unique_events] after one more [event]. *)
Definition dedup_step (acc : list Event * gset string) (event : Event)
  : list Event * gset string :=
  let (unique_events, seen_urls) := acc in
  if bool_decide (url event ∉ seen_urls)
  then (unique_events ++ [event], {[ url event ]} ∪ seen_urls)
  else (unique_events, seen_urls).

(** The de-duplication loop of [fetch_events_for_month]. *)
Definition deduplicate (all_events : list Event) : list Event :=
  fst (fold_left dedup_step all_events ([], ∅)).

Section Fetcher.

(** [urllib.parse.urljoin] *)
Variable urljoin : string -> string -> string.
(** [BeautifulSoup(html_content, 'html.parser')] *)
Variable parse_html : string -> Soup.node.
(** [re.findall(r'\d{1,2}\s+\w+(?:\s+–\s+\d{1,2}\s+\w+)?', text)] *)
Variable findall_date : string -> list string.
(** [re.findall(r'(?:ADNEC|Abu Dhabi|Dubai|Al Dhafra|Sweihan|Al Wathba)[^0-9]*', text)] *)
Variable findall_venue_calendar : string -> list string.
(** [re.findall(r'(ADNEC Abu Dhabi|Abu Dhabi|Dubai World Trade Centre|Al Dhafra Region|Sweihan|Al Wathba)', text)] *)
Variable findall_venue_list : string -> list string.

(** One link of the calendar view: the body of [for link in event_links]. *)
Definition calendar_link (base : string) (hit : Soup.node * list Soup.node)
  : list Event :=
  let (link, ancestors) := hit in
  let event_url := urljoin base (Soup.get "href" EmptyString link) in
  let title := PyStr.strip (Soup.get_text link) in
  if PyStr.truthy title && PyStr.truthy event_url
     && negb (PyStr.in_list (PyStr.lower title) calendar_boilerplate)
  then
    let (dates, location) :=
      match Soup.find_parent ancestors with
      | Some parent =>
          let text := Soup.get_text parent in
          (first_or_empty (findall_date text),
           match findall_venue_calendar text with
           | m :: _ => PyStr.strip m
           | [] => EmptyString
           end)
      | None => (EmptyString, EmptyString)
      end in
    [new_event title event_url dates location event_url]
  else [].

(** [extract_events_from_calendar] *)
Definition extract_events_from_calendar (soup : Soup.node) (base : string)
  : list Event :=
  let event_containers :=
    Soup.find_all (fun n => Soup.named ["div"; "a"] n
                            && Soup.class_matches event_class n) soup in
  flat_map (fun container =>
              flat_map (calendar_link base)
                       (Soup.find_all_in is_event_link container))
           event_containers.

(** One entry of the list view: the body of [for item in event_items]. *)
Definition list_item (base : string) (item : Soup.node) : list Event :=
  match Soup.find is_event_link item with
  | None => []
  | Some event_link =>
      let title := PyStr.strip (Soup.get_text event_link) in
      let event_url := urljoin base (Soup.get "href" EmptyString event_link) in
      if negb (PyStr.truthy title)
         || PyStr.in_list (PyStr.lower title) list_boilerplate
      then []
      else
        let item_text := Soup.get_text item in
        let start_date := first_or_empty (findall_date item_text) in
        let location := first_or_empty (findall_venue_list item_text) in
        let view_event_url :=
          match Soup.find (fun n => Soup.named ["a"] n && view_event_text n) item with
          | Some view_link => urljoin base (Soup.get "href" EmptyString view_link)
          | None => event_url
          end in
        [new_event title event_url start_date location view_event_url]
  end.

(** [extract_events_from_list] *)
Definition extract_events_from_list (soup : Soup.node) (base : string)
  : list Event :=
  match Soup.find (fun n => Soup.named ["div"] n
                            && Soup.class_matches (String.eqb "calendar-events") n)
                  soup with
  | None => []
  | Some events_container =>
      let event_items :=
        Soup.find_all (fun n => Soup.named ["div"] n
                                && Soup.class_matches item_class n)
                      events_container in
      let event_items :=
        match event_items with
        | [] => Soup.find_all (Soup.named ["div"]) events_container
        | _ => event_items
        end in
      flat_map (list_item base) event_items
  end.

(** [calendar_events + list_events] for a fetched page. *)
Definition candidates (html_content : string) (page_url : string) : list Event :=
  let soup := parse_html html_content in
  extract_events_from_calendar soup page_url
  ++ extract_events_from_list soup page_url.

(** [all_events] in a run of [fetch_events_for_month] from the world
    [w]: the candidates of the page when the fetch gives a non-empty
    one, none otherwise. *)
Definition raw_candidates (month year : Z) (w : World) : list Event :=
  match fst (fetch_page (get_month_url month year) 3 w) with
  | Some html =>
      if PyStr.truthy html then candidates html (get_month_url month year)
      else []
  | None => []
  end.

(** [fetch_events_for_month] *)
Definition fetch_events_for_month (month year : Z) : St.t (list Event) :=
  let page_url := get_month_url month year in
  html_content <- fetch_page page_url 3 ;;
  match html_content with
  | None => St.ret []
  | Some html =>
      if negb (PyStr.truthy html) then St.ret []
      else St.ret (deduplicate (candidates html page_url))
  end.

(** The [while] condition of [fetch_events_for_date_range]. *)
Definition in_range (current_month current_year end_month end_year : Z) : bool :=
  (current_year <? end_year)%Z
  || ((current_year =? end_year)%Z && (current_month <=? end_month)%Z).

(** "Move to next month" *)
Definition next_month (current_month current_year : Z) : Z * Z :=
  let current_month := (current_month + 1)%Z in
  if (current_month >? 12)%Z then (1%Z, (current_year + 1)%Z)
  else (current_month, current_year).

(** The [while] loop of [fetch_events_for_date_range], unrolled at most
    [fuel] times; [None] only when [fuel] runs out. *)
Fixpoint range_loop (fuel : nat) (end_month end_year : Z)
         (current_month current_year : Z) (all_events : list Event)
  : St.t (option (list Event)) :=
  if in_range current_month current_year end_month end_year then
    match fuel with
    | O => St.ret None
    | S fuel' =>
        month_events <- fetch_events_for_month current_month current_year ;;
        let all_events := all_events ++ month_events in
        let (current_month', current_year') :=
          next_month current_month current_year in
        _ <- St.sleep 1 ;;
        range_loop fuel' end_month end_year current_month' current_year' all_events
    end
  else St.ret (Some all_events).

(** A bound on the number of iterations of the loop from a state. *)
Definition range_fuel (current_month current_year end_year : Z) : nat :=
  Z.to_nat (Z.max 1 (13 - current_month)
            + 12 * Z.max 0 (end_year - current_year)).

(** [fetch_events_for_date_range]; the result is never [None], see
    [fetch_events_for_date_range_total]. *)
Definition fetch_events_for_date_range
           (start_month start_year end_month end_year : Z)
  : St.t (option (list Event)) :=
  range_loop (range_fuel start_month start_year end_year)
             end_month end_year start_month start_year [].

End Fetcher.

End AbuDhabi.

(* ===================================================================== *)
(** ** JSON values ([json.loads]) *)
(* ===================================================================== *)

Module Json.

(** What [json.loads] returns: [None], [bool], a number (kept as its
    literal), [str], [list] or [dict]. *)
Inductive json : Type :=
| JNull
| JBool (b : bool)
| JNum (literal : string)
| JStr (s : string)
| JArr (items : list json)
| JObj (members : list (string * json)).

(** [d.get(key)] on the items of a [dict] *)
Fixpoint lookup (key : string) (members : list (string * json)) : option json :=
  match members with
  | [] => None
  | (k, v) :: rest => if String.eqb k key then Some v else lookup key rest
  end.

(** [d.get(key, default)] *)
Definition get (key : string) (default : json) (members : list (string * json)) : json :=
  match lookup key members with Some v => v | None => default end.

(** [d[key] = v] *)
Fixpoint set (key : string) (v : json) (members : list (string * json))
  : list (string * json) :=
  match members with
  | [] => [(key, v)]
  | (k, x) :: rest =>
      if String.eqb k key then (k, v) :: rest else (k, x) :: set key v rest
  end.

End Json.

(* ===================================================================== *)
(** ** adnec_events_fetcher: definitions *)
(* ===================================================================== *)

Module Adnec.
Import Io Json.

Local Notation "x <- c ;; k" := (Ex.bind c (fun x => k))
  (at level 100, c at next level, right associativity).

(** [@dataclass class AdnecEvent].  The fields filled from structured
    data hold whatever value the data has there. *)
Record AdnecEvent : Type := mkAdnecEvent {
  title : json;
  title_ar : json;
  url : string;
  url_ar : string;
  start_date : json;
  end_date : json;
  location : string;
  organizer : json;
  description : json;
  image_url : json;
  organizer_url : json
}.

(** The dictionary [extract_event_details] returns: always these nine
    keys. *)
Record Details : Type := mkDetails {
  d_title : json;
  d_url : string;
  d_start_date : json;
  d_end_date : json;
  d_location : string;
  d_organizer : json;
  d_organizer_url : json;
  d_description : json;
  d_image_url : json
}.

(** The attributes [__init__] sets. *)
Record Fetcher : Type := mkFetcher {
  base_url_en : string;
  base_url_ar : string;
  use_selenium : bool
}.

(** The venue's generic name. *)
Definition venue_name : string := "ADNEC Centre Abu Dhabi".

(** The Arabic label for "location", U+0627 U+0644 U+0645 U+0648 U+0642 U+0639. *)
Definition arabic_location : string := "الموقع".

(** The class [[\d\-,\s]] *)
Definition hall_number_char (c : ascii) : bool :=
  PyStr.is_digit c || Ascii.eqb c "-"%char || Ascii.eqb c ","%char
  || PyStr.is_space c.

(** [Hall[s]?\s+[\d\-,\s]+] under [re.IGNORECASE] *)
Definition hall_number_re : Re.re :=
  Re.Cat (Re.lit_ci "Hall")
    (Re.Cat (Re.Opt (Re.lit_ci "s"))
       (Re.Cat (Re.Plus (Re.Chr PyStr.is_space))
               (Re.Plus (Re.Chr hall_number_char)))).

(** [f"ADNEC ({location})"] *)
Definition wrap (location : string) : string :=
  "ADNEC (" +:+ location +:+ ")".

(** [format_location] *)
Definition format_location (location : string) : string :=
  let location := PyStr.strip location in
  if Re.match_anchored hall_number_re location then wrap location
  else if PyStr.contains "hall" (PyStr.lower location)
          && negb (PyStr.contains "ADNEC" location)
  then wrap location
  else location.

(** The loop over [enumerate(lines)] in [extract_event_details]:
    [Some] when it reaches [break]. *)
Fixpoint scan_location (lines : list string) : option string :=
  match lines with
  | [] => None
  | line :: rest =>
      if PyStr.contains "Location:" line || PyStr.contains arabic_location line
      then match rest with
           | next :: _ =>
               if negb (PyStr.contains ":" next)
               then Some (format_location next)
               else scan_location rest
           | [] => scan_location rest
           end
      else scan_location rest
  end.

(** [[line.strip() for line in text.split('\n') if line.strip()]] *)
Definition stripped_lines (text : string) : list string :=
  List.filter PyStr.truthy (map PyStr.strip (PyStr.split_char "010"%char text)).

(** The predicate of [soup.find(string=lambda x: ...)], asked of every
    string of the document, of whatever class. *)
Definition is_location_label (n : Soup.node) : bool :=
  match n with
  | Soup.Text x | Soup.Special _ x =>
      PyStr.truthy x
      && (PyStr.contains "location:" (PyStr.lower x)
          || PyStr.contains arabic_location x)
  | Soup.Elem _ _ _ => false
  end.

(** The container whose text is searched for the location: the nearest
    [div] or [section] above the parent of the first string that holds
    the label. *)
Definition location_container (soup : Soup.node) : option Soup.node :=
  match List.find (fun hit => is_location_label (fst hit)) (Soup.walk [] soup) with
  | None => None
  | Some (_, ancestors) =>
      match ancestors with
      | [] => None
      | _parent :: above => List.find (Soup.named ["div"; "section"]) above
      end
  end.

(** "Extract hall/location": the value of [hall_location]. *)
Definition hall_location (soup : Soup.node) : string :=
  match location_container soup with
  | None => venue_name
  | Some container =>
      match scan_location (stripped_lines (Soup.get_text container)) with
      | Some formatted => formatted
      | None => venue_name
      end
  end.

(** [data.get('@type') == 'Event'] *)
Definition declares_event (data : list (string * json)) : bool :=
  match lookup "@type" data with
  | Some (JStr declared) => String.eqb declared "Event"
  | _ => false
  end.

(** [find_all('script', type='application/ld+json')] *)
Definition is_ld_json (n : Soup.node) : bool :=
  Soup.named ["script"] n
  && Soup.attr_matches "type" (String.eqb "application/ld+json") n.

Local Notation "x <~ c ;; k" := (St.bind c (fun x => k))
  (at level 100, c at next level, right associativity).

Section Fetcher.

(** [json.loads]; [None] for [json.JSONDecodeError] *)
Variable json_loads : string -> option json.
(** [datetime.fromisoformat(s).strftime("%d %B %Y")]; [None] when
    [fromisoformat] raises *)
Variable iso_to_readable : string -> option string.

(** [parse_iso_datetime_to_readable]; the bare [except] hands back
    the argument, whatever it is. *)
Definition parse_iso_datetime_to_readable (iso_datetime : json) : json :=
  match iso_datetime with
  | JStr s =>
      match iso_to_readable s with
      | Some readable => JStr readable
      | None => iso_datetime
      end
  | _ => iso_datetime
  end.

(** The loop [for script in scripts] of [extract_event_details]:
    the items of the dictionary [event_data] when the loop is left
    ([None] when it is still [None]), or the exception that escapes
    the loop. *)
Fixpoint find_event_data (scripts : list Soup.node)
  : result (option (list (string * json))) :=
  match scripts with
  | [] => Ok None
  | script :: rest =>
      match Soup.string_of script with
      | Some text =>
          if PyStr.truthy text && PyStr.contains "@type" text
          then match json_loads text with
               | None => find_event_data rest        (* JSONDecodeError *)
               | Some (JObj data) =>
                   if declares_event data then Ok (Some data)
                   else find_event_data rest
               | Some _ => Raise AttributeError      (* no [get] on it *)
               end
          else find_event_data rest
      | None => find_event_data rest
      end
  end.

(** "Extract organizer" *)
Definition organizer_of (event_data : list (string * json)) : result (json * json) :=
  match lookup "organizer" event_data with
  | None => Ok (JStr EmptyString, JStr EmptyString)
  | Some (JObj org) =>
      Ok (get "name" (JStr EmptyString) org, get "url" (JStr EmptyString) org)
  | Some _ => Raise AttributeError
  end.

(** "Extract image" *)
Definition image_of (event_data : list (string * json)) : json :=
  match lookup "image" event_data with
  | Some (JArr (first :: _)) => first
  | Some (JStr s) => JStr s
  | _ => JStr EmptyString
  end.

(** What [extract_event_details] does with the page once fetched. *)
Definition details_of_page (soup : Soup.node) (page_url : string)
  : result (option Details) :=
  match find_event_data (Soup.find_all is_ld_json soup) with
  | Raise e => Raise e
  | Ok None => Ok None
  | Ok (Some event_data) =>
      let location := hall_location soup in
      let start_date :=
        parse_iso_datetime_to_readable (get "startDate" (JStr EmptyString) event_data) in
      let end_date :=
        parse_iso_datetime_to_readable (get "endDate" (JStr EmptyString) event_data) in
      match organizer_of event_data with
      | Raise e => Raise e
      | Ok (organizer_name, organizer_link) =>
          Ok (Some {| d_title := get "name" (JStr EmptyString) event_data;
                      d_url := page_url;
                      d_start_date := start_date;
                      d_end_date := end_date;
                      d_location := location;
                      d_organizer := organizer_name;
                      d_organizer_url := organizer_link;
                      d_description := get "description" (JStr EmptyString) event_data;
                      d_image_url := image_of event_data |})
      end
  end.

(** [urllib.parse.urljoin] *)
Variable urljoin : string -> string -> string.
(** [BeautifulSoup(html_content, 'html.parser')] *)
Variable parse_html : string -> Soup.node.
(** The module constant set by the [try: import selenium ...] block. *)
Variable SELENIUM_AVAILABLE : bool.

(** [__init__] *)
Definition init (use_selenium : bool) : Fetcher :=
  {| base_url_en := "https://www.adnec.ae/en/eventlisting";
     base_url_ar := "https://www.adnec.ae/ar/eventlisting";
     use_selenium := use_selenium && SELENIUM_AVAILABLE |}.

(** [create_driver]: no driver without Selenium; otherwise the
    driver, unless starting Chrome raises. *)
Definition create_driver : Ex.t (option unit) :=
  if negb SELENIUM_AVAILABLE then Ex.ret None
  else fun w =>
         if chrome_starts w then (Ok (Some tt), emit ChromeStart w)
         else (Raise WebDriverException, emit ChromeStart w).

(** The loop [for scroll_attempt in range(10)]; the result is the
    number of scrolls done when it is left. *)
Fixpoint scroll_loop (page : Rendered) (todo scrolls : nat)
         (events_count last_height : Z) : St.t nat :=
  match todo with
  | O => St.ret scrolls
  | S todo' =>
      _ <~ St.do ChromeScroll ;;
      _ <~ St.sleep 2 ;;
      let scrolls := S scrolls in
      let new_count := link_count page scrolls in
      if (new_count =? events_count)%Z then St.ret scrolls
      else
        let new_height := scroll_height page scrolls in
        if (new_height =? last_height)%Z then St.ret scrolls
        else scroll_loop page todo' scrolls new_count new_height
  end.

(** The [try] block of [fetch_page_with_selenium] with its
    [except Exception] clause. *)
Definition selenium_session (url : string) : St.t (option string) :=
  _ <~ St.do (ChromeGet url) ;;
  fun w =>
    match browser w url with
    | None => (None, w)                         (* driver.get raises *)
    | Some page =>
        if negb (grid_present page) then (None, w)  (* TimeoutException *)
        else
          let (scrolls, w') :=
            scroll_loop page 10 0 0 (scroll_height page 0) w in
          (Some (page_source page scrolls), w')
    end.

(** [fetch_page_with_selenium] *)
Definition fetch_page_with_selenium (url : string) : Ex.t (option string) :=
  driver <- create_driver ;;
  match driver with
  | None => Ex.ret None
  | Some _ => Ex.finally (Ex.lift (selenium_session url)) (St.do ChromeQuit)
  end.

(** The loop [for attempt in range(retries)] of [fetch_page], with
    [todo] iterations left. *)
Fixpoint fetch_page_loop (url : string) (retries : Z) (todo : nat) (attempt : Z)
  : St.t (option string) :=
  match todo with
  | O => St.ret None
  | S todo' =>
      response <~ St.http_get url ;;
      match response with
      | Some text => St.ret (Some text)
      | None =>
          if (attempt <? retries - 1)%Z
          then _ <~ St.sleep (2 ^ attempt) ;;
               fetch_page_loop url retries todo' (attempt + 1)
          else St.ret None
      end
  end.

(** [fetch_page] *)
Definition fetch_page (self : Fetcher) (url : string) (retries : Z)
  : Ex.t (option string) :=
  if PyStr.contains "/eventlisting" url && PyStr.endswith "eventlisting" url
     && use_selenium self
  then fetch_page_with_selenium url
  else Ex.lift (fetch_page_loop url retries (Z.to_nat retries) 0).

(** One link of [extract_event_urls_from_listing]. *)
Definition listing_step (base : string) (acc : list string * gset string)
           (link : Soup.node) : list string * gset string :=
  let (event_urls, seen_urls) := acc in
  let href := Soup.get "href" EmptyString link in
  if PyStr.truthy href
     && negb (PyStr.in_list href ["/en/eventlisting"; "/ar/eventlisting"])
  then
    let full_url := urljoin base href in
    if bool_decide (full_url ∉ seen_urls)
    then (event_urls ++ [full_url], {[ full_url ]} ∪ seen_urls)
    else (event_urls, seen_urls)
  else (event_urls, seen_urls).

(** [extract_event_urls_from_listing] *)
Definition extract_event_urls_from_listing (html_content base : string)
  : list string :=
  let soup := parse_html html_content in
  let event_links :=
    Soup.find_all
      (fun n => Soup.named ["a"] n
                && Soup.attr_matches "href"
                     (fun x => PyStr.truthy x && PyStr.contains "/eventlisting/" x) n)
      soup in
  fst (fold_left (listing_step base) event_links ([], ∅)).

(** [extract_event_details] *)
Definition extract_event_details (self : Fetcher) (page_url : string)
  : Ex.t (option Details) :=
  html_content <- fetch_page self page_url 3 ;;
  match html_content with
  | None => Ex.ret None
  | Some html =>
      if negb (PyStr.truthy html) then Ex.ret None
      else Ex.of_result (details_of_page (parse_html html) page_url)
  end.

(** The Arabic counterpart of every English URL, by slug. *)
Definition map_arabic (ar_urls : list string) : gmap string string :=
  fold_left (fun (url_mapping : gmap string string) ar_url =>
               let slug := PyStr.after_last "/eventlisting/" ar_url in
               let en_equivalent := "https://www.adnec.ae/en/eventlisting/" +:+ slug in
               <[ en_equivalent := ar_url ]> url_mapping)
            ar_urls ∅.

(** The loop [for i, en_url in enumerate(en_urls, 1)] of
    [fetch_all_events]. *)
Fixpoint details_loop (self : Fetcher) (url_mapping : gmap string string)
         (en_urls : list string) (events : list AdnecEvent)
  : Ex.t (list AdnecEvent) :=
  match en_urls with
  | [] => Ex.ret events
  | en_url :: rest =>
      en_details <- extract_event_details self en_url ;;
      match en_details with
      | None => details_loop self url_mapping rest events     (* continue *)
      | Some details =>
          let ar_url := default EmptyString (url_mapping !! en_url) in
          title_ar <-
            (if PyStr.truthy ar_url
             then ar_details <- extract_event_details self ar_url ;;
                  Ex.ret (match ar_details with
                          | Some ar => d_title ar
                          | None => JStr EmptyString
                          end)
             else Ex.ret (JStr EmptyString)) ;;
          let event :=
            {| title := d_title details;
               title_ar := title_ar;
               url := en_url;
               url_ar := ar_url;
               start_date := d_start_date details;
               end_date := d_end_date details;
               location := d_location details;
               organizer := d_organizer details;
               description := d_description details;
               image_url := d_image_url details;
               organizer_url := d_organizer_url details |} in
          _ <- Ex.lift (St.sleep 1) ;;
          details_loop self url_mapping rest (events ++ [event])
      end
  end.

(** [fetch_all_events] *)
Definition fetch_all_events (self : Fetcher) (include_arabic : bool)
  : Ex.t (list AdnecEvent) :=
  en_html <- fetch_page self (base_url_en self) 3 ;;
  match en_html with
  | None => Ex.ret []
  | Some en_page =>
      if negb (PyStr.truthy en_page) then Ex.ret []
      else
        let en_urls := extract_event_urls_from_listing en_page (base_url_en self) in
        url_mapping <-
          (if include_arabic
           then ar_html <- fetch_page self (base_url_ar self) 3 ;;
                Ex.ret (match ar_html with
                        | Some ar_page =>
                            if PyStr.truthy ar_page
                            then map_arabic
                                   (extract_event_urls_from_listing
                                      ar_page (base_url_ar self))
                            else ∅
                        | None => ∅
                        end)
           else Ex.ret ∅) ;;
        details_loop self url_mapping en_urls []
  end.

End Fetcher.

End Adnec.

(* ===================================================================== *)
(** ** A JSON reader for running examples *)
(* ===================================================================== *)

(** [json.loads] on the part of JSON the examples need: objects, arrays,
    strings with their escapes, integers and the three literals.
    Fractions and exponents are not read. *)
Module MiniJson.
Import Json.

Definition is_ws (c : ascii) : bool :=
  Ascii.eqb c " "%char || Ascii.eqb c "009"%char
  || Ascii.eqb c "010"%char || Ascii.eqb c "013"%char.

Fixpoint skip_ws (s : string) : string :=
  match s with
  | String c r => if is_ws c then skip_ws r else s
  | EmptyString => EmptyString
  end.

Definition hex (c : ascii) : option nat :=
  let n := nat_of_ascii c in
  if Nat.leb 48 n && Nat.leb n 57 then Some (n - 48)
  else if Nat.leb 97 n && Nat.leb n 102 then Some (n - 87)
  else if Nat.leb 65 n && Nat.leb n 70 then Some (n - 55)
  else None.

(** UTF-8 of a code point of the basic plane. *)
Definition utf8 (cp : nat) : string :=
  if Nat.ltb cp 128 then String (ascii_of_nat cp) EmptyString
  else if Nat.ltb cp 2048
  then String (ascii_of_nat (192 + cp / 64))
         (String (ascii_of_nat (128 + cp mod 64)) EmptyString)
  else String (ascii_of_nat (224 + cp / 4096))
         (String (ascii_of_nat (128 + (cp / 64) mod 64))
            (String (ascii_of_nat (128 + cp mod 64)) EmptyString)).

(** The rest of a string literal, after its opening quote. *)
Fixpoint string_body (s : string) : option (string * string) :=
  match s with
  | EmptyString => None
  | String c r =>
      if Ascii.eqb c "034"%char then Some (EmptyString, r)
      else if Ascii.eqb c "\"%char then
        match r with
        | String e r1 =>
            let plain (x : ascii) (rest : option (string * string)) :=
              match rest with
              | Some (body, tail) => Some (String x body, tail)
              | None => None
              end in
            if Ascii.eqb e "u"%char then
              match r1 with
              | String a (String b (String c' (String d r2))) =>
                  match hex a, hex b, hex c', hex d, string_body r2 with
                  | Some ha, Some hb, Some hc, Some hd, Some (body, tail) =>
                      Some (utf8 (ha * 4096 + hb * 256 + hc * 16 + hd) +:+ body, tail)
                  | _, _, _, _, _ => None
                  end
              | _ => None
              end
            else if Ascii.eqb e "n"%char then plain "010"%char (string_body r1)
            else if Ascii.eqb e "t"%char then plain "009"%char (string_body r1)
            else if Ascii.eqb e "r"%char then plain "013"%char (string_body r1)
            else if Ascii.eqb e "b"%char then plain "008"%char (string_body r1)
            else if Ascii.eqb e "f"%char then plain "012"%char (string_body r1)
            else if Ascii.eqb e "034"%char || Ascii.eqb e "\"%char || Ascii.eqb e "/"%char
            then plain e (string_body r1)
            else None
        | EmptyString => None
        end
      else if Nat.ltb (nat_of_ascii c) 32 then None
      else match string_body r with
           | Some (body, tail) => Some (String c body, tail)
           | None => None
           end
  end.

Fixpoint digits (s : string) : string * string :=
  match s with
  | String c r =>
      if PyStr.is_digit c then let (d, tail) := digits r in (String c d, tail)
      else (EmptyString, s)
  | EmptyString => (EmptyString, EmptyString)
  end.

Inductive mode : Type :=
| Value
| Members (acc : list (string * json))
| Items (acc : list json).

Fixpoint parse (fuel : nat) (m : mode) (s : string) : option (json * string) :=
  match fuel with
  | O => None
  | S fuel' =>
      let s := skip_ws s in
      match m with
      | Value =>
          match s with
          | String c r =>
              if Ascii.eqb c "{"%char then
                match skip_ws r with
                | String c' r' =>
                    if Ascii.eqb c' "}"%char then Some (JObj [], r')
                    else parse fuel' (Members []) r
                | EmptyString => None
                end
              else if Ascii.eqb c "["%char then
                match skip_ws r with
                | String c' r' =>
                    if Ascii.eqb c' "]"%char then Some (JArr [], r')
                    else parse fuel' (Items []) r
                | EmptyString => None
                end
              else if Ascii.eqb c "034"%char then
                match string_body r with
                | Some (body, tail) => Some (JStr body, tail)
                | None => None
                end
              else if String.prefix "true" s then Some (JBool true, substring 4 (String.length s) s)
              else if String.prefix "false" s then Some (JBool false, substring 5 (String.length s) s)
              else if String.prefix "null" s then Some (JNull, substring 4 (String.length s) s)
              else
                let (sign, r0) :=
                  if Ascii.eqb c "-"%char then ("-", r) else (EmptyString, s) in
                match digits r0 with
                | (EmptyString, _) => None
                | (d, tail) => Some (JNum (sign +:+ d), tail)
                end
          | EmptyString => None
          end
      | Members acc =>
          match s with
          | String c r =>
              if Ascii.eqb c "034"%char then
                match string_body r with
                | Some (key, tail) =>
                    match skip_ws tail with
                    | String c1 r1 =>
                        if Ascii.eqb c1 ":"%char then
                          match parse fuel' Value r1 with
                          | Some (v, tail') =>
                              let acc := Json.set key v acc in
                              match skip_ws tail' with
                              | String c2 r2 =>
                                  if Ascii.eqb c2 ","%char then parse fuel' (Members acc) r2
                                  else if Ascii.eqb c2 "}"%char then Some (JObj acc, r2)
                                  else None
                              | EmptyString => None
                              end
                          | None => None
                          end
                        else None
                    | EmptyString => None
                    end
                | None => None
                end
              else None
          | EmptyString => None
          end
      | Items acc =>
          match parse fuel' Value s with
          | Some (v, tail) =>
              match skip_ws tail with
              | String c2 r2 =>
                  if Ascii.eqb c2 ","%char then parse fuel' (Items (acc ++ [v])) r2
                  else if Ascii.eqb c2 "]"%char then Some (JArr (acc ++ [v]), r2)
                  else None
              | EmptyString => None
              end
          | None => None
          end
      end
  end.

Definition loads (s : string) : option json :=
  match parse (2 * String.length s + 2) Value s with
  | Some (v, tail) =>
      match skip_ws tail with
      | EmptyString => Some v
      | _ => None
      end
  | None => None
  end.

End MiniJson.

(* ===================================================================== *)
(** ** Sample pages and worlds *)
(* ===================================================================== *)

Module Samples.
Import Io Soup.

(** [<a href=HREF>TEXT</a>] *)
Definition link (href text : string) : node :=
  Elem "a" [("href", href)] [Text text].

(** A month page: a list container with three entries, the first with a
    "View event" link, the second the language switch, the third an
    export link. *)
Definition month_page : node :=
  Elem "[document]" []
    [Elem "div" [("class", "calendar-events")]
       [Elem "div" [("class", "event-item")]
          [link "/en/abu-dhabi-events/adipec/" " ADIPEC ";
           Text " 3 November ADNEC Abu Dhabi ";
           link "/en/abu-dhabi-events/adipec/view" "View event"];
        Elem "div" [("class", "event-item")]
          [link "/ar/abu-dhabi-events/" AbuDhabi.arabic_label];
        Elem "div" [("class", "event-item")]
          [link "/en/abu-dhabi-events/export/" "EXPORT"]]].

(** No date or venue is recognised. *)
Definition no_match (text : string) : list string := [].

(** A network on which every request is answered with [page]. *)
Definition online (page : string) : World :=
  {| http := fun _ _ => Some page; chrome_starts := true;
     browser := fun _ => None; sent := 0; trace := [] |}.

(** A network on which every request fails. *)
Definition offline : World :=
  {| http := fun _ _ => None; chrome_starts := true;
     browser := fun _ => None; sent := 0; trace := [] |}.

(** The page of January 2025. *)
Definition january : string := AbuDhabi.get_month_url 1 2025.

(** The record of the first entry of [month_page]. *)
Definition adipec : AbuDhabi.Event :=
  AbuDhabi.new_event "ADIPEC" "https://www.mediaoffice.abudhabi/en/abu-dhabi-events/adipec/"
                     EmptyString EmptyString
                     "https://www.mediaoffice.abudhabi/en/abu-dhabi-events/adipec/".

(** The calendar view and the list view of [month_page]. *)
Definition calendar_records : list AbuDhabi.Event :=
  AbuDhabi.extract_events_from_calendar UrlModel.urljoin no_match no_match
                                        month_page january.

Definition list_records : list AbuDhabi.Event :=
  AbuDhabi.extract_events_from_list UrlModel.urljoin no_match no_match
                                    month_page january.

(** The fetcher when every page that arrives parses to [month_page]. *)
Definition month_cycle : Z -> Z -> St.t (list AbuDhabi.Event) :=
  AbuDhabi.fetch_events_for_month UrlModel.urljoin (fun _ => month_page)
                                  no_match no_match no_match.

Definition range_run : Z -> Z -> Z -> Z -> St.t (option (list AbuDhabi.Event)) :=
  AbuDhabi.fetch_events_for_date_range UrlModel.urljoin (fun _ => month_page)
                                       no_match no_match no_match.

End Samples.

Module AdnecSamples.
Import Io Soup Json.

Definition quote : string := String "034"%char EmptyString.
Definition newline : string := String "010"%char EmptyString.

(** [s] between double quotes. *)
Definition quoted (s : string) : string := quote +:+ s +:+ quote.

(** ["KEY": "VALUE"] *)
Definition member (key value : string) : string :=
  quoted key +:+ ": " +:+ quoted value.

Definition organization_json : string :=
  "{" +:+ member "@type" "Organization" +:+ ", " +:+ member "name" "ADNEC" +:+ "}".

Definition event_json : string :=
  "{" +:+ member "@type" "Event" +:+ ", " +:+ member "name" "ADIPEC" +:+ ", "
  +:+ member "startDate" "2025-11-03" +:+ ", "
  +:+ quoted "image" +:+ ": [" +:+ quoted "a.jpg" +:+ ", " +:+ quoted "b.jpg" +:+ "], "
  +:+ quoted "organizer" +:+ ": {" +:+ member "name" "dmg events" +:+ "}}".

(** An event whose type key is written with an escape. *)
Definition escaped_json : string :=
  "{" +:+ member "\u0040type" "Event" +:+ ", " +:+ member "name" "ADIPEC" +:+ "}".

(** A JSON array that mentions the type key. *)
Definition array_json : string :=
  "[" +:+ "{" +:+ member "@type" "Organization" +:+ "}" +:+ "]".

Definition ld_json (text : string) : node :=
  Elem "script" [("type", "application/ld+json")] [Special Script text].

(** The block of a detail page that shows the location. *)
Definition location_block (place : string) : node :=
  Elem "section" []
    [Elem "div" []
       [Elem "span" [] [Text "Location:"];
        Text newline;
        Elem "span" [] [Text place]]].

(** A detail page: two structured-data blocks, the second an event, and
    the location [place]. *)
Definition detail_page (place : string) : node :=
  Elem "[document]" []
    [ld_json organization_json; ld_json event_json; location_block place].

(** U+00A0, the no-break space. *)
Definition nbsp : string := PyStr.utf8 [194; 160].

(** An event written on two lines. *)
Definition event_lines_json : string :=
  "{" +:+ member "@type" "Event" +:+ ", " +:+ member "name" "ADIPEC" +:+ ", "
  +:+ quoted "organizer" +:+ ": {" +:+ member "name" "dmg events" +:+ "}"
  +:+ newline +:+ "}".

(** A detail page whose structured data lies in the section that shows
    the location, with a comment next to the place and no-break spaces
    around it. *)
Definition scripted_page : node :=
  Elem "[document]" []
    [Elem "section" []
       [ld_json event_lines_json;
        Elem "style" [] [Special Stylesheet "p { margin: 0 }"];
        Elem "p" [] [Text "Location:"];
        Text newline;
        Special Comment "venue";
        Elem "p" [] [Text (nbsp +:+ "Hall 3" +:+ nbsp)]]].

(** A detail page with no structured data at all. *)
Definition bare_page : node :=
  Elem "[document]" [] [location_block "Hall 3"].

(** A detail page whose only block is [escaped_json]. *)
Definition escaped_page : node :=
  Elem "[document]" [] [ld_json escaped_json].

(** A detail page whose first block is [array_json]. *)
Definition array_page : node :=
  Elem "[document]" [] [ld_json array_json; ld_json event_json].

(** A detail page whose event block is followed by [array_json]. *)
Definition mixed_page : node :=
  Elem "[document]" [] [ld_json event_json; ld_json array_json].

(** A listing page with one event. *)
Definition listing_page : node :=
  Elem "[document]" []
    [Elem "div" [("class", "grid")]
       [Elem "a" [("href", "/en/eventlisting")] [Text "All events"];
        Elem "a" [("href", "/en/eventlisting/adipec")] [Text "ADIPEC"]]].

(** No timestamp is reformatted. *)
Definition no_date (s : string) : option string := None.

(** The parser on the sample site, by the text of the page. *)
Definition parse (html : string) : node :=
  if String.eqb html "listing" then listing_page
  else if String.eqb html "bare" then bare_page
  else if String.eqb html "escaped" then escaped_page
  else if String.eqb html "array" then array_page
  else if String.eqb html "mixed" then mixed_page
  else if String.eqb html "conference" then detail_page "Conference Centre A"
  else detail_page "Hall 3".

(** The sample site: the listing under the English listing URL, the
    page [detail] under every other URL. *)
Definition serving (detail : string) : World :=
  {| http := fun _ url =>
               if String.eqb url "https://www.adnec.ae/en/eventlisting"
               then Some "listing" else Some detail;
     chrome_starts := true; browser := fun _ => None; sent := 0; trace := [] |}.

Definition site : World := serving "detail".

(** The URL of the event of [listing_page]. *)
Definition adipec_url : string := "https://www.adnec.ae/en/eventlisting/adipec".



(** A fetcher built on a machine without Selenium. *)
Definition plain_fetcher : Adnec.Fetcher := Adnec.init false true.

(** [extract_event_details] and [fetch_all_events] on the sample site. *)
Definition details_of (soup : node) (page_url : string)
  : result (option Adnec.Details) :=
  Adnec.details_of_page MiniJson.loads no_date soup page_url.

Definition extract (selenium_available : bool) (self : Adnec.Fetcher)
           (page_url : string) : Ex.t (option Adnec.Details) :=
  Adnec.extract_event_details MiniJson.loads no_date parse selenium_available
                              self page_url.

Definition fetch_all (selenium_available : bool) (self : Adnec.Fetcher)
           (include_arabic : bool) : Ex.t (list Adnec.AdnecEvent) :=
  Adnec.fetch_all_events MiniJson.loads no_date UrlModel.urljoin parse
                         selenium_available self include_arabic.

End AdnecSamples.

(* ===================================================================== *)
(** ** Specification-side notions *)
(* ===================================================================== *)

Module Spec.
Import AbuDhabi.

(** The first record of [l] whose URL is [u]. *)
Definition first_with_url (u : string) (l : list Event) : option Event :=
  List.find (fun e => String.eqb (url e) u) l.

(** How many candidates of [l] share their URL with an earlier
    candidate, the candidates [earlier] coming before those of [l]. *)
Fixpoint repeats_after (earlier l : list Event) : nat :=
  match l with
  | [] => 0
  | c :: l' =>
      (if existsb (fun e => String.eqb (url e) (url c)) earlier then 1 else 0)
      + repeats_after (earlier ++ [c]) l'
  end.

(** M: the candidates that share a URL with an earlier candidate. *)
Definition repeats (candidates : list Event) : nat :=
  repeats_after [] candidates.

(** The effects of [k] attempts at [url], the first of them numbered
    [attempt]: a request each, and between two requests a wait of two
    to the power of the number of the failed attempt. *)
Fixpoint attempts_trace (url : string) (k : nat) (attempt : Z) : list Io.io :=
  match k with
  | O => []
  | S k' =>
      match k' with
      | O => [Io.HttpGet url]
      | S _ => Io.HttpGet url :: Io.Sleep (2 ^ attempt)
                 :: attempts_trace url k' (attempt + 1)
      end
  end.

(** The waits of a trace, in order. *)
Fixpoint sleeps (t : list Io.io) : list Z :=
  match t with
  | [] => []
  | Io.Sleep d :: t' => d :: sleeps t'
  | _ :: t' => sleeps t'
  end.

(** The targets of the requests of a trace, in order. *)
Fixpoint requests (t : list Io.io) : list string :=
  match t with
  | [] => []
  | Io.HttpGet u :: t' => u :: requests t'
  | _ :: t' => requests t'
  end.

(** The page fetcher's contract for a run from [w] that ends in [out]:
    [k] attempts, no more than the budget; a wait of 2^i after the
    failed attempt number i and before the next one, so waits of
    1, 2, 4, ... that grow strictly, and none after the last attempt;
    absence exactly when the budget is used up with every attempt
    failed. *)
Definition backs_off (url : string) (retries : Z) (w : Io.World)
           (out : option string * Io.World) : Prop :=
  exists k : nat,
    (k <= Z.to_nat retries)%nat
    /\ Io.trace (snd out) = Io.trace w ++ attempts_trace url k 0
    /\ requests (attempts_trace url k 0) = repeat url k
    /\ sleeps (attempts_trace url k 0)
       = map (fun i => 2 ^ Z.of_nat i)%Z (seq 0 (k - 1))
    /\ (forall i, (S i < k - 1)%nat ->
                  (nth i (sleeps (attempts_trace url k 0)) 0
                   < nth (S i) (sleeps (attempts_trace url k 0)) 0)%Z)
    /\ ((0 < k)%nat ->
        exists before, attempts_trace url k 0 = before ++ [Io.HttpGet url])
    /\ (forall i, (S i < k)%nat -> Io.http w (Io.sent w + i)%nat url = None)
    /\ (fst out = None ->
        k = Z.to_nat retries
        /\ forall i, (i < k)%nat -> Io.http w (Io.sent w + i)%nat url = None)
    /\ (forall text, fst out = Some text ->
                     (0 < k)%nat
                     /\ Io.http w (Io.sent w + (k - 1))%nat url = Some text)
    /\ ((forall i, (i < Z.to_nat retries)%nat ->
                   Io.http w (Io.sent w + i)%nat url = None) ->
        fst out = None).

(** Whether [Adnec.fetch_page] hands [url] to the browser. *)
Definition browser_path (self : Adnec.Fetcher) (url : string) : bool :=
  PyStr.contains "/eventlisting" url && PyStr.endswith "eventlisting" url
  && Adnec.use_selenium self.

(** Months counted from year 0. *)
Definition month_index (month year : Z) : Z := 12 * year + (month - 1).

Definition month_of_index (i : Z) : Z * Z := (i mod 12 + 1, i / 12)%Z.

(** The [n] months from the month of index [i] on, in calendar order. *)
Definition months_from (i : Z) (n : nat) : list (Z * Z) :=
  map (fun k => month_of_index (i + Z.of_nat k)) (seq 0 n).

(** The months of the inclusive range, in calendar order. *)
Definition months_between (start_month start_year end_month end_year : Z)
  : list (Z * Z) :=
  months_from (month_index start_month start_year)
    (Z.to_nat (month_index end_month end_year
               - month_index start_month start_year + 1)).

(** One fetch/extract cycle per month of [months], in order, each
    followed by a wait of one time unit: the outputs of the cycles and
    the world at the end. *)
Fixpoint visit (cycle : Z -> Z -> St.t (list Event)) (months : list (Z * Z))
         (w : Io.World) : list (list Event) * Io.World :=
  match months with
  | [] => ([], w)
  | (month, year) :: rest =>
      let (events, w1) := cycle month year w in
      let (others, w2) := visit cycle rest (Io.emit (Io.Sleep 1) w1) in
      (events :: others, w2)
  end.

(** The effects of the cycle of one month that takes [k] attempts, and
    the wait of one time unit that follows it. *)
Definition cycle_trace (mk : (Z * Z) * nat) : list Io.io :=
  attempts_trace (get_month_url (fst (fst mk)) (snd (fst mk))) (snd mk) 0
  ++ [Io.Sleep 1].

(** Period mode from [w] to the outcome [run], with [cycle] the
    fetch/extract cycle of a month: the months visited are those of the
    inclusive range, each once, in calendar order; the result is the
    outputs of the cycles appended in that order; and the effects are
    those of the cycles (one to three requests for the month's page),
    each cycle followed by a wait of one time unit. *)
Definition visits_each_month_once (cycle : Z -> Z -> St.t (list Event))
           (start_month start_year end_month end_year : Z) (w : Io.World)
           (run : option (list Event) * Io.World) : Prop :=
  let months := months_between start_month start_year end_month end_year in
  length months
  = Z.to_nat (12 * (end_year - start_year) + (end_month - start_month) + 1)
  /\ (forall month year,
        In (month, year) months
        <-> (1 <= month <= 12
             /\ month_index start_month start_year
                <= month_index month year
                <= month_index end_month end_year)%Z)
  /\ (forall i j, (i < j < length months)%nat ->
                  (month_index (fst (nth i months (0, 0))) (snd (nth i months (0, 0)))
                   < month_index (fst (nth j months (0, 0))) (snd (nth j months (0, 0))))%Z)
  /\ run = (Some (concat (fst (visit cycle months w))), snd (visit cycle months w))
  /\ exists attempts : list nat,
      length attempts = length months
      /\ Forall (fun k => 1 <= k <= 3)%nat attempts
      /\ Io.trace (snd run)
         = Io.trace w ++ concat (map cycle_trace (combine months attempts)).









(** Whether a line holds the location label. *)
Definition is_label_line (line : string) : bool :=
  PyStr.contains "Location:" line || PyStr.contains Adnec.arabic_location line.

(** The raw location: the line after the first label line whose next
    line has no colon. *)
Fixpoint raw_location (lines : list string) : option string :=
  match lines with
  | [] => None
  | line :: rest =>
      if is_label_line line
      then match rest with
           | next :: _ =>
               if PyStr.contains ":" next then raw_location rest else Some next
           | [] => None
           end
      else raw_location rest
  end.

(** The raw location matches the hall-number pattern, or mentions a
    hall without naming the venue. *)
Definition hall_rule (raw : string) : bool :=
  Re.match_anchored Adnec.hall_number_re raw
  || (PyStr.contains "hall" (PyStr.lower raw)
      && negb (PyStr.contains "ADNEC" raw)).

(** The location of a record, as the code derives it from the page. *)
Definition location_rule (soup : Soup.node) : string :=
  match Adnec.location_container soup with
  | Some container =>
      match raw_location (Adnec.stripped_lines (Soup.get_text container)) with
      | Some raw => if hall_rule raw then "ADNEC (" +:+ raw +:+ ")" else raw
      | None => Adnec.venue_name
      end
  | None => Adnec.venue_name
  end.

(** The ordinary strings among [l]. *)
Definition texts (l : list (Soup.node * list Soup.node)) : list string :=
  flat_map (fun d => match fst d with Soup.Text s => [s] | _ => [] end) l.

(** The strings of [l] end to end. *)
Definition join (l : list string) : string := fold_right String.append EmptyString l.

(** The ordinary text below [n], in document order: the strings of its
    descendants that are neither comments nor the content of a script
    or a style sheet. *)
Definition plain_text (n : Soup.node) : string := join (texts (Soup.walk [] n)).

(** White space: white-space code points, one after the other. *)
Inductive white : string -> Prop :=
| white_nil : white EmptyString
| white_cons w x : In w PyStr.white_space -> white x -> white (w +:+ x).

(** [t] is [line] without the white space around it: [line] is [t]
    between two stretches of white space, and [t] neither starts nor
    ends with a white-space code point. *)
Definition trimmed_of (line t : string) : Prop :=
  (exists a b, line = a +:+ t +:+ b /\ white a /\ white b)
  /\ (forall w x, In w PyStr.white_space -> t <> w +:+ x)
  /\ (forall w x, In w PyStr.white_space -> t <> x +:+ w).

(** [lines] are the non-empty lines of [text]: the text cut at the
    line feeds, each piece taken without the white space around it,
    the pieces that are empty then left out. *)
Definition lines_of (text : string) (lines : list string) : Prop :=
  exists trimmed,
    Forall2 trimmed_of (PyStr.split_char "010"%char text) trimmed
    /\ lines = List.filter PyStr.truthy trimmed.

(** [found] is the first element of [l] that [p] holds of, if there is
    one. *)
Inductive first_of {A : Type} (p : A -> bool) : list A -> option A -> Prop :=
| first_absent l : Forall (fun y => p y = false) l -> first_of p l None
| first_found before x rest :
    Forall (fun y => p y = false) before -> p x = true ->
    first_of p (before ++ x :: rest) (Some x).

(** The container of the location: the label is the first string of
    the page, in document order, that holds the label text; the
    container is the nearest [div] or [section] above the parent of
    the label. *)
Definition container_of (soup : Soup.node) (container : option Soup.node) : Prop :=
  exists label,
    first_of (fun hit => Adnec.is_location_label (fst hit)) (Soup.walk [] soup) label
    /\ match label with
       | Some (_, _parent :: above) =>
           first_of (Soup.named ["div"; "section"]) above container
       | _ => container = None
       end.

(** The location of a record whose page is [soup]: with the lines of
    the ordinary text of the label's container, the line after the
    first label line that is followed by a colon-free line is the raw
    location; it is wrapped when the hall rule holds of it and kept as
    it is otherwise; the venue's generic name stands in only when
    there is no container or no such line. *)
Definition location_contract (soup : Soup.node) (location : string) : Prop :=
  exists container,
    container_of soup container
    /\ match container with
       | Some container =>
           exists lines,
             lines_of (plain_text container) lines
             /\ location
                = match Spec.raw_location lines with
                  | Some raw =>
                      if Spec.hall_rule raw then "ADNEC (" +:+ raw +:+ ")" else raw
                  | None => Adnec.venue_name
                  end
       | None => location = Adnec.venue_name
       end.

(** How many records of [l] have the URL [u]. *)
Definition count_url (u : string) (l : list Event) : nat :=
  length (List.filter (fun e => String.eqb (url e) u) l).

(** The range result is the per-month outputs, in order, end to end,
    with nothing removed: a URL is there as often as in all the months
    together, so twice or more when two months have it. *)
Definition concatenates_months (per_month : list (list Event))
           (result : option (list Event)) : Prop :=
  result = Some (concat per_month)
  /\ (forall u, count_url u (concat per_month)
                = list_sum (map (count_url u) per_month))
  /\ (forall u i j,
        (i < j < length per_month)%nat ->
        In u (map url (nth i per_month [])) ->
        In u (map url (nth j per_month [])) ->
        (2 <= count_url u (concat per_month))%nat).

End Spec.

(* ===================================================================== *)
(** ** Further notions: order, provenance, budgets, the browser session *)
(* ===================================================================== *)

Module Notions.
Import Io.

(** The records of [l] that the de-duplication loop keeps once the URLs
    of [seen] have been met. *)
Fixpoint keep_new (seen : gset string) (l : list AbuDhabi.Event)
  : list AbuDhabi.Event :=
  match l with
  | [] => []
  | c :: l' =>
      if bool_decide (AbuDhabi.url c ∉ seen)
      then c :: keep_new ({[ AbuDhabi.url c ]} ∪ seen) l'
      else keep_new seen l'
  end.

(** The criterion of [find_all] in [extract_event_urls_from_listing]:
    an anchor whose target holds "/eventlisting/". *)
Definition listing_link (n : Soup.node) : bool :=
  Soup.named ["a"] n
  && Soup.attr_matches "href"
       (fun x => PyStr.truthy x && PyStr.contains "/eventlisting/" x) n.

(** What both strategies of the month page put into a record: the
    stripped text and the resolved target of one anchor of the page
    [soup] that matched the event path, and nothing in the fields they
    do not pass.  The anchor is a node below the root of the page, and
    the title is its ordinary text without the white space around
    it. *)
Definition from_event_link (urljoin : string -> string -> string)
           (soup : Soup.node) (base : string) (e : AbuDhabi.Event) : Prop :=
  (exists link,
      In link (Soup.descendants soup)
      /\ AbuDhabi.is_event_link link = true
      /\ AbuDhabi.event_path (Soup.get "href" EmptyString link) = true
      /\ AbuDhabi.title e = PyStr.strip (Soup.get_text link)
      /\ Spec.trimmed_of (Spec.plain_text link) (AbuDhabi.title e)
      /\ AbuDhabi.url e = urljoin base (Soup.get "href" EmptyString link))
  /\ PyStr.strip (AbuDhabi.title e) = AbuDhabi.title e
  /\ AbuDhabi.end_date e = EmptyString /\ AbuDhabi.organizer e = EmptyString
  /\ AbuDhabi.sector e = EmptyString /\ AbuDhabi.description e = EmptyString.

(** The time a trace spends waiting. *)
Definition wait_time (t : list io) : Z := fold_right Z.add 0%Z (Spec.sleeps t).

(** The characters of a decimal numeral. *)
Definition numeral_char (c : ascii) : bool :=
  PyStr.is_digit c || Ascii.eqb c "-"%char.

Fixpoint numeral (s : string) : bool :=
  match s with
  | EmptyString => true
  | String c r => numeral_char c && numeral r
  end.

(** The effects of [k] rounds of the scroll loop. *)
Definition scroll_trace (k : nat) : list io :=
  concat (repeat [ChromeScroll; Sleep 2] k).

(** [events_count] once [j] scrolls are done: 0 before the first one,
    the number of links found after the latest one from then on. *)
Definition count_before (page : Rendered) (j : nat) : Z :=
  match j with
  | O => 0%Z
  | S _ => link_count page j
  end.

(** Scroll number [j + 1] brings nothing new: the number of links is
    the one recorded before it, or the height of the document did not
    change. *)
Definition stalls (page : Rendered) (j : nat) : bool :=
  (link_count page (S j) =? count_before page j)%Z
  || (scroll_height page (S j) =? scroll_height page j)%Z.

(** A browser session for [url] that ran from [w] to [w']: the driver
    is started, the page loaded, [k] scrolls made with a pause of two
    time units after each, and the driver quit last; nothing is
    requested over HTTP. *)
Definition session (url : string) (k : nat) (w w' : World) : Prop :=
  trace w' = trace w ++ [ChromeStart; ChromeGet url] ++ scroll_trace k ++ [ChromeQuit]
  /\ sent w' = sent w.

(** [k] is the number of scrolls of a session on [page]: between one
    and ten, no scroll before the last stalls, and the last one stalls
    unless it is the tenth. *)
Definition scrolls_until_stall (page : Rendered) (k : nat) : Prop :=
  (1 <= k <= 10)%nat
  /\ (forall j, (S j < k)%nat -> stalls page j = false)
  /\ ((k < 10)%nat -> stalls page (k - 1) = true).

(** [en_equivalent] in [fetch_all_events]: the English detail URL with
    the slug of [ar_url]. *)
Definition english_equivalent (ar_url : string) : string :=
  "https://www.adnec.ae/en/eventlisting/"
  +:+ PyStr.after_last "/eventlisting/" ar_url.

(** How the aggregator's loop pairs a record with its Arabic page
    under [url_mapping]: [url_ar] is what the mapping has for the
    record's URL, empty when it has nothing, and without an Arabic URL
    there is no Arabic title. *)
Definition paired (url_mapping : gmap string string) (e : Adnec.AdnecEvent) : Prop :=
  Adnec.url_ar e = default EmptyString (url_mapping !! Adnec.url e)
  /\ (Adnec.url_ar e = EmptyString -> Adnec.title_ar e = Json.JStr EmptyString).

(** What holds of a bilingual record: no Arabic title without an Arabic
    URL, and an Arabic URL only when the Arabic pass was asked for, and
    then one with the slug of the record's own URL. *)
Definition same_slug (include_arabic : bool) (e : Adnec.AdnecEvent) : Prop :=
  (Adnec.url_ar e = EmptyString -> Adnec.title_ar e = Json.JStr EmptyString)
  /\ (Adnec.url_ar e <> EmptyString ->
      include_arabic = true
      /\ Adnec.url e = english_equivalent (Adnec.url_ar e)).



End Notions.

Module RegexNotions.
Import Re.

(** The strings a regular expression denotes. *)
Inductive matches : re -> string -> Prop :=
| MEps : matches Eps EmptyString
| MChr p c : p c = true -> matches (Chr p) (String c EmptyString)
| MCat r1 r2 s1 s2 :
    matches r1 s1 -> matches r2 s2 -> matches (Cat r1 r2) (s1 +:+ s2)
| MAltL r1 r2 s : matches r1 s -> matches (Alt r1 r2) s
| MAltR r1 r2 s : matches r2 s -> matches (Alt r1 r2) s
| MStar0 r : matches (Star r) EmptyString
| MStarS r s1 s2 :
    matches r s1 -> matches (Star r) s2 -> matches (Star r) (s1 +:+ s2).




End RegexNotions.

Module BrowserSamples.
Import Io.

(** A listing that loads twelve more events with each of the first
    three scrolls and nothing after that. *)
Definition lazy_page : Rendered :=
  {| grid_present := true;
     scroll_height := fun k => (800 * Z.of_nat (Nat.min k 3))%Z;
     link_count := fun k => (12 * Z.of_nat (Nat.min k 3))%Z;
     page_source := fun k => "scrolls: " +:+ pretty (Z.of_nat k) |}.

(** A machine on which Chrome starts and shows [page] for every URL. *)
Definition rendering (page : Rendered) : World :=
  {| http := fun _ _ => None; chrome_starts := true;
     browser := fun _ => Some page; sent := 0; trace := [] |}.

(** A machine on which Chrome does not start. *)
Definition no_chrome : World :=
  {| http := fun _ _ => None; chrome_starts := false;
     browser := fun _ => None; sent := 0; trace := [] |}.

End BrowserSamples.

Module BilingualSamples.
Import Io Soup Json AdnecSamples.

(** The Arabic listing page, with the same event. *)
Definition arabic_listing_page : node :=
  Elem "[document]" []
    [Elem "div" [("class", "grid")]
       [Elem "a" [("href", "/ar/eventlisting/adipec")] [Text "أديبك"]]].

(** The structured data of the Arabic detail page. *)
Definition arabic_event_json : string :=
  "{" +:+ member "@type" "Event" +:+ ", " +:+ member "name" "أديبك" +:+ "}".

Definition arabic_detail_page : node :=
  Elem "[document]" [] [ld_json arabic_event_json].

Definition parse (html : string) : node :=
  if String.eqb html "listing-ar" then arabic_listing_page
  else if String.eqb html "detail-ar" then arabic_detail_page
  else AdnecSamples.parse html.

(** The sample site in both languages. *)
Definition site : World :=
  {| http := fun _ url =>
               if String.eqb url "https://www.adnec.ae/en/eventlisting"
               then Some "listing"
               else if String.eqb url "https://www.adnec.ae/ar/eventlisting"
               then Some "listing-ar"
               else if PyStr.contains "/ar/" url then Some "detail-ar"
               else Some "detail";
     chrome_starts := true; browser := fun _ => None; sent := 0; trace := [] |}.

Definition fetch_all (include_arabic : bool) : Ex.t (list Adnec.AdnecEvent) :=
  Adnec.fetch_all_events MiniJson.loads no_date UrlModel.urljoin parse
                         false plain_fetcher include_arabic.

(** The record of the event of the sample site. *)
Definition adipec : Adnec.AdnecEvent :=
  {| Adnec.title := JStr "ADIPEC";
     Adnec.title_ar := JStr "أديبك";
     Adnec.url := adipec_url;
     Adnec.url_ar := "https://www.adnec.ae/ar/eventlisting/adipec";
     Adnec.start_date := JStr "2025-11-03";
     Adnec.end_date := JStr EmptyString;
     Adnec.location := "ADNEC (Hall 3)";
     Adnec.organizer := JStr "dmg events";
     Adnec.description := JStr EmptyString;
     Adnec.image_url := JStr "a.jpg";
     Adnec.organizer_url := JStr EmptyString |}.

End BilingualSamples.

(* ===================================================================== *)
(** ** Facts about strings and markup *)
(* ===================================================================== *)

Module PyStrFacts.
Import PyStr.

Lemma truthy_true s : truthy s = true <-> s <> EmptyString.
Proof. destruct s; simpl; split; intros; congruence. Qed.

Lemma in_list_In x l : in_list x l = true <-> In x l.
Proof.
  unfold in_list. rewrite existsb_exists. split.
  - intros (y & Hy & E). apply String.eqb_eq in E. now subst.
  - intros H. exists x. split; [assumption | apply String.eqb_refl].
Qed.

Lemma in_list_false x l : in_list x l = false <-> ~ In x l.
Proof.
  rewrite <- in_list_In. destruct (in_list x l); split; intros; congruence.
Qed.

Lemma contains_nonempty sub s :
  sub <> EmptyString -> contains sub s = true -> s <> EmptyString.
Proof.
  intros Hsub H ->. simpl in H. destruct sub; [congruence | discriminate].
Qed.

End PyStrFacts.

(** Stripping: what [lstrip], [rstrip] and [strip] leave. *)
Module StripFacts.
Import PyStr Spec.

Lemma after_prefix_app w : forall l r,
  after_prefix w l = Some r <-> l = w ++ r.
Proof.
  induction w as [|a w IH]; intros l r; cbn [after_prefix app].
  - split; [intros [= ->]|intros ->]; reflexivity.
  - destruct l as [|b l]; [split; discriminate|].
    destruct (Ascii.eqb a b) eqn:E.
    + apply Ascii.eqb_eq in E. subst b. rewrite IH. split; [intros ->|intros [= ->]]; reflexivity.
    + apply Ascii.eqb_neq in E. split; [discriminate|]. intros [= H _]. congruence.
Qed.

Lemma skip_some table l r :
  skip table l = Some r -> exists w, In w table /\ l = w ++ r.
Proof.
  induction table as [|w ws IH]; cbn [skip]; [discriminate|].
  destruct (after_prefix w l) as [r'|] eqn:E.
  - intros [= ->]. apply after_prefix_app in E. exists w. split; [now left|exact E].
  - intros H. destruct (IH H) as (w' & Hin & El). exists w'. split; [now right|exact El].
Qed.

Lemma skip_none table l w r : skip table l = None -> In w table -> l <> w ++ r.
Proof.
  induction table as [|w' ws IH]; cbn [skip]; [intros _ []|].
  destruct (after_prefix w' l) as [r'|] eqn:E; [discriminate|].
  intros H [->|Hin].
  - intros El. apply after_prefix_app in El. congruence.
  - apply IH; assumption.
Qed.

Section Table.

Variable table : list (list ascii).
Hypothesis entries_nonempty : Forall (fun w => w <> []) table.

Lemma skip_shorter l r : skip table l = Some r -> length r < length l.
Proof.
  intros H. destruct (skip_some _ _ _ H) as (w & Hin & ->).
  rewrite List.Forall_forall in entries_nonempty.
  pose proof (entries_nonempty w Hin) as Hne.
  rewrite length_app. destruct w; [contradiction|cbn; lia].
Qed.

(** More fuel than the length changes nothing. *)
Lemma drop_front_fuel n : forall l m,
  length l <= n -> length l <= m -> drop_front table n l = drop_front table m l.
Proof.
  induction n as [|n IH]; intros l m Hn Hm.
  - destruct l; [|cbn in Hn; lia]. destruct m; [reflexivity|].
    cbn [drop_front]. destruct (skip table []) eqn:E; [|reflexivity].
    apply skip_shorter in E. cbn in E. lia.
  - cbn [drop_front]. destruct (skip table l) as [r|] eqn:E.
    + pose proof (skip_shorter _ _ E). destruct m as [|m]; [lia|].
      cbn [drop_front]. rewrite E. apply IH; lia.
    + destruct m; cbn [drop_front]; [reflexivity|now rewrite E].
Qed.

Local Notation dropped := (PyStr.dropped table).
Local Notation run := (PyStr.run table).

Lemma dropped_unfold l :
  dropped l = match skip table l with Some r => dropped r | None => l end.
Proof.
  unfold PyStr.dropped. destruct l as [|c l].
  - cbn. destruct (skip table []) eqn:E; [|reflexivity].
    apply skip_shorter in E. cbn in E. lia.
  - cbn [length drop_front]. destruct (skip table (c :: l)) as [r|] eqn:E; [|reflexivity].
    apply skip_shorter in E. cbn in E. apply drop_front_fuel; lia.
Qed.

Lemma by_skips (P : list ascii -> Prop) :
  (forall l, (forall r, skip table l = Some r -> P r) -> P l) -> forall l, P l.
Proof.
  intros H l. remember (length l) as n eqn:En. revert l En.
  induction n as [n IH] using lt_wf_ind. intros l ->.
  apply H. intros r Hr. apply (IH (length r)); [now apply skip_shorter|reflexivity].
Qed.

(** Nothing is left to drop. *)
Lemma dropped_done l : skip table (dropped l) = None.
Proof.
  induction l as [l IH] using by_skips. rewrite dropped_unfold.
  destruct (skip table l) as [r|] eqn:E; [apply (IH r eq_refl)|exact E].
Qed.

Lemma dropped_fixed l : skip table l = None -> dropped l = l.
Proof. intros H. now rewrite dropped_unfold, H. Qed.

Lemma dropped_idem l : dropped (dropped l) = dropped l.
Proof. apply dropped_fixed, dropped_done. Qed.

(** What is dropped is a sequence of entries of the table. *)
Lemma dropped_split l : exists a, run a /\ l = a ++ dropped l.
Proof.
  induction l as [l IH] using by_skips. rewrite dropped_unfold.
  destruct (skip table l) as [r|] eqn:E.
  - destruct (IH r eq_refl) as (a & Ha & Er).
    destruct (skip_some _ _ _ E) as (w & Hin & ->).
    exists (w ++ a). split; [now constructor|].
    rewrite <- app_assoc. now rewrite <- Er.
  - exists []. split; [constructor|reflexivity].
Qed.

(** A prefix that starts with an entry of the table is not kept. *)
Lemma skip_app l x : skip table l <> None -> skip table (l ++ x) <> None.
Proof.
  destruct (skip table l) as [r|] eqn:E; [intros _|contradiction].
  destruct (skip_some _ _ _ E) as (w & Hin & ->).
  intros Hnone. apply (skip_none _ _ w (r ++ x) Hnone Hin). now rewrite app_assoc.
Qed.

End Table.

Lemma leading_nonempty : Forall (fun w => w <> []) leading.
Proof. repeat (constructor; [discriminate|]). constructor. Qed.

Lemma trailing_nonempty : Forall (fun w => w <> []) trailing.
Proof. repeat (constructor; [discriminate|]). constructor. Qed.

Lemma string_list_inj s t : list_ascii_of_string s = list_ascii_of_string t -> s = t.
Proof.
  intros H. rewrite <- (string_of_list_ascii_of_string s), H.
  apply string_of_list_ascii_of_string.
Qed.

Lemma list_of_append s t :
  list_ascii_of_string (s +:+ t) = list_ascii_of_string s ++ list_ascii_of_string t.
Proof.
  induction s as [|c s IH]; [reflexivity|].
  change (String c s +:+ t) with (String c (s +:+ t)). cbn. now rewrite IH.
Qed.

Lemma string_of_app l m :
  string_of_list_ascii (l ++ m) = string_of_list_ascii l +:+ string_of_list_ascii m.
Proof.
  apply string_list_inj.
  now rewrite list_of_append, !list_ascii_of_string_of_list_ascii.
Qed.

Lemma lstrip_list s :
  list_ascii_of_string (lstrip s) = dropped leading (list_ascii_of_string s).
Proof. unfold lstrip. apply list_ascii_of_string_of_list_ascii. Qed.

Lemma rstrip_list s :
  list_ascii_of_string (rstrip s)
  = rev (dropped trailing (rev (list_ascii_of_string s))).
Proof. unfold rstrip. apply list_ascii_of_string_of_list_ascii. Qed.

Lemma lstrip_idem s : lstrip (lstrip s) = lstrip s.
Proof.
  apply string_list_inj. rewrite !lstrip_list.
  apply dropped_idem, leading_nonempty.
Qed.

Lemma rstrip_rstrip s : rstrip (rstrip s) = rstrip s.
Proof.
  apply string_list_inj. rewrite !rstrip_list, rev_involutive.
  f_equal. apply dropped_idem, trailing_nonempty.
Qed.

(** The stripped text is where it was, between two runs of white space. *)
Lemma lstrip_split s :
  exists a, run leading a
            /\ list_ascii_of_string s = a ++ list_ascii_of_string (lstrip s).
Proof.
  rewrite lstrip_list. apply dropped_split, leading_nonempty.
Qed.

Lemma rstrip_split s :
  exists b, run trailing b
            /\ list_ascii_of_string s = list_ascii_of_string (rstrip s) ++ rev b.
Proof.
  rewrite rstrip_list.
  destruct (dropped_split trailing trailing_nonempty (rev (list_ascii_of_string s)))
    as (b & Hb & E).
  exists b. split; [exact Hb|].
  transitivity (rev (b ++ dropped trailing (rev (list_ascii_of_string s)))).
  - rewrite <- E. symmetry. apply rev_involutive.
  - apply rev_app_distr.
Qed.

(** Stripping on the right leaves no white space on the left of a text
    that had none. *)
Lemma rstrip_keeps_start s :
  skip leading (list_ascii_of_string s) = None ->
  skip leading (list_ascii_of_string (rstrip s)) = None.
Proof.
  intros Hs. destruct (rstrip_split s) as (b & _ & E).
  destruct (skip leading (list_ascii_of_string (rstrip s))) eqn:H; [|reflexivity].
  exfalso. rewrite E in Hs. revert Hs. apply skip_app. congruence.
Qed.

Lemma strip_strip s : strip (strip s) = strip s.
Proof.
  unfold strip.
  assert (Hl : lstrip (rstrip (lstrip s)) = rstrip (lstrip s)).
  { apply string_list_inj. rewrite lstrip_list.
    apply dropped_fixed; [apply leading_nonempty|].
    apply rstrip_keeps_start. rewrite lstrip_list.
    apply dropped_done, leading_nonempty. }
  rewrite Hl. apply rstrip_rstrip.
Qed.

(** A text that starts and ends with something else than white space
    is left as it is. *)
Lemma lstrip_fixed s :
  skip leading (list_ascii_of_string s) = None -> lstrip s = s.
Proof.
  intros H. apply string_list_inj. rewrite lstrip_list.
  apply dropped_fixed; [apply leading_nonempty|exact H].
Qed.

Lemma rstrip_fixed s :
  skip trailing (rev (list_ascii_of_string s)) = None -> rstrip s = s.
Proof.
  intros H. apply string_list_inj. rewrite rstrip_list.
  rewrite dropped_fixed; [apply rev_involutive|apply trailing_nonempty|exact H].
Qed.

(** *** Stripping, said without the algorithm *)

Lemma append_empty_r s : s +:+ EmptyString = s.
Proof.
  induction s as [|c s IH]; [reflexivity|].
  change (String c s +:+ EmptyString) with (String c (s +:+ EmptyString)).
  now rewrite IH.
Qed.

Lemma white_app x y : white x -> white y -> white (x +:+ y).
Proof.
  induction 1 as [|w x Hw Hx IH]; intros Hy; [exact Hy|].
  replace ((w +:+ x) +:+ y) with (w +:+ (x +:+ y)).
  - constructor; auto.
  - apply string_list_inj. now rewrite !list_of_append, app_assoc.
Qed.

Lemma white_one w : In w white_space -> white w.
Proof.
  intros H. rewrite <- (append_empty_r w). constructor; [exact H|constructor].
Qed.

Lemma leading_entry w :
  In w leading -> exists w', In w' white_space /\ w = list_ascii_of_string w'.
Proof.
  change leading with (map list_ascii_of_string white_space).
  rewrite in_map_iff. intros (w' & <- & H). eauto.
Qed.

Lemma trailing_entry w :
  In w trailing
  -> exists w', In w' white_space /\ w = rev (list_ascii_of_string w').
Proof.
  change trailing with (map (fun w => rev (list_ascii_of_string w)) white_space).
  rewrite in_map_iff. intros (w' & <- & H). eauto.
Qed.

Lemma entry_leading w : In w white_space -> In (list_ascii_of_string w) leading.
Proof.
  change leading with (map list_ascii_of_string white_space). apply in_map.
Qed.

Lemma entry_trailing w :
  In w white_space -> In (rev (list_ascii_of_string w)) trailing.
Proof.
  change trailing with (map (fun w => rev (list_ascii_of_string w)) white_space).
  apply (in_map (fun w => rev (list_ascii_of_string w))).
Qed.

Lemma run_leading_white a : run leading a -> white (string_of_list_ascii a).
Proof.
  induction 1 as [|w l Hw _ IH]; [constructor|].
  destruct (leading_entry w Hw) as (w' & Hin & ->).
  rewrite string_of_app, string_of_list_ascii_of_string. now constructor.
Qed.

Lemma run_trailing_white b : run trailing b -> white (string_of_list_ascii (rev b)).
Proof.
  induction 1 as [|w l Hw _ IH]; [constructor|].
  destruct (trailing_entry w Hw) as (w' & Hin & ->).
  rewrite rev_app_distr, rev_involutive, string_of_app,
    string_of_list_ascii_of_string.
  apply white_app; [exact IH|now apply white_one].
Qed.

(** [strip] gives the text without the white space around it. *)
Lemma strip_trimmed line : trimmed_of line (strip line).
Proof.
  unfold trimmed_of, strip. split; [|split].
  - destruct (lstrip_split line) as (a & Ha & Ea).
    destruct (rstrip_split (lstrip line)) as (b & Hb & Eb).
    exists (string_of_list_ascii a), (string_of_list_ascii (rev b)).
    split; [|split; [now apply run_leading_white|now apply run_trailing_white]].
    apply string_list_inj.
    rewrite !list_of_append, !list_ascii_of_string_of_list_ascii, <- Eb.
    exact Ea.
  - intros w x Hw E.
    assert (Hdone : skip leading (list_ascii_of_string (rstrip (lstrip line))) = None).
    { apply rstrip_keeps_start. rewrite lstrip_list.
      apply dropped_done, leading_nonempty. }
    apply (skip_none _ _ (list_ascii_of_string w) (list_ascii_of_string x) Hdone).
    + now apply entry_leading.
    + now rewrite E, list_of_append.
  - intros w x Hw E.
    assert (Hdone : skip trailing (rev (list_ascii_of_string (rstrip (lstrip line))))
                    = None).
    { rewrite rstrip_list, rev_involutive. apply dropped_done, trailing_nonempty. }
    apply (skip_none _ _ (rev (list_ascii_of_string w))
                     (rev (list_ascii_of_string x)) Hdone).
    + now apply entry_trailing.
    + now rewrite E, list_of_append, rev_app_distr.
Qed.

Lemma common_start (w : list ascii) : forall w' x x',
  w ++ x = w' ++ x' ->
  (exists y, w' = w ++ y) \/ (exists y, w = w' ++ y).
Proof.
  induction w as [|c w IH]; intros [|c' w'] x x' E.
  - left. now exists [].
  - left. now exists (c' :: w').
  - right. now exists (c :: w).
  - cbn in E. injection E as -> E.
    destruct (IH _ _ _ E) as [[y ->]|[y ->]]; [left|right]; now exists y.
Qed.

Lemma prefix_free_checked table : prefix_free_b table = true -> prefix_free table.
Proof.
  unfold prefix_free_b, prefix_free. rewrite forallb_forall.
  intros H w w' x x' Hw Hw' E.
  pose proof (H w Hw) as H1. rewrite forallb_forall in H1. specialize (H1 w' Hw').
  pose proof (H w' Hw') as H2. rewrite forallb_forall in H2. specialize (H2 w Hw).
  destruct (common_start _ _ _ _ E) as [[y ->]|[y ->]].
  - destruct (after_prefix w (w ++ y)) as [r|] eqn:Ea.
    + apply after_prefix_app in Ea. apply app_inv_head in Ea. subst r.
      destruct y; [now rewrite app_nil_r|discriminate].
    + exfalso. assert (Hsome : after_prefix w (w ++ y) = Some y)
        by now apply after_prefix_app.
      congruence.
  - destruct (after_prefix w' (w' ++ y)) as [r|] eqn:Ea.
    + apply after_prefix_app in Ea. apply app_inv_head in Ea. subst r.
      destruct y; [now rewrite app_nil_r|discriminate].
    + exfalso. assert (Hsome : after_prefix w' (w' ++ y) = Some y)
        by now apply after_prefix_app.
      congruence.
Qed.

Lemma leading_prefix_free : prefix_free leading.
Proof. apply prefix_free_checked. vm_compute. reflexivity. Qed.

Lemma trailing_prefix_free : prefix_free trailing.
Proof. apply prefix_free_checked. vm_compute. reflexivity. Qed.

Lemma skip_entry table w x :
  prefix_free table -> In w table -> skip table (w ++ x) = Some x.
Proof.
  intros Hfree Hw. destruct (skip table (w ++ x)) as [r|] eqn:E.
  - destruct (skip_some _ _ _ E) as (w' & Hw' & E').
    pose proof (Hfree _ _ _ _ Hw Hw' E') as <-.
    apply app_inv_head in E'. now subst r.
  - exfalso. now apply (skip_none _ _ w x E Hw).
Qed.

Lemma dropped_run table a r :
  Forall (fun w => w <> []) table -> prefix_free table ->
  run table a -> dropped table (a ++ r) = dropped table r.
Proof.
  intros Hne Hfree. induction 1 as [|w a Hw _ IH]; [reflexivity|].
  rewrite <- app_assoc, (dropped_unfold table Hne), (skip_entry _ _ _ Hfree Hw).
  exact IH.
Qed.

(** No byte inside a white-space code point starts one. *)
Definition apart_b (table : list (list ascii)) : bool :=
  forallb (fun w =>
             forallb (fun c =>
                        forallb (fun w2 =>
                                   match w2 with
                                   | c2 :: _ => negb (Ascii.eqb c c2)
                                   | [] => true
                                   end) table) (tl w)) table.

Lemma leading_apart : apart_b leading = true.
Proof. vm_compute. reflexivity. Qed.

Lemma white_run x : white x -> run leading (list_ascii_of_string x).
Proof.
  induction 1 as [|w x Hw _ IH]; [constructor|].
  rewrite list_of_append. constructor; [now apply entry_leading|exact IH].
Qed.

Lemma run_app table a b : run table a -> run table b -> run table (a ++ b).
Proof.
  induction 1 as [|w a Hw _ IH]; intros Hb; [exact Hb|].
  rewrite <- app_assoc. constructor; auto.
Qed.

Lemma run_rev a : run leading a -> run trailing (rev a).
Proof.
  induction 1 as [|w a Hw _ IH]; [constructor|].
  rewrite rev_app_distr. apply run_app; [exact IH|].
  destruct (leading_entry w Hw) as (w' & Hin & ->).
  rewrite <- (app_nil_r (rev _)). constructor; [now apply entry_trailing|constructor].
Qed.

(** After a text that does not start with white space, white space
    does not make it start with white space. *)
Lemma skip_before_run t b :
  t <> [] -> skip leading t = None -> (forall w x, In w leading -> t <> w ++ x) ->
  run leading b -> skip leading (t ++ b) = None.
Proof.
  intros Ht _ Hstart Hb.
  destruct (skip leading (t ++ b)) as [r|] eqn:E; [exfalso|reflexivity].
  destruct (skip_some _ _ _ E) as (w & Hw & Ew).
  destruct (common_start _ _ _ _ Ew) as [[y Ey]|[y Ey]].
  - (* [t] is the start of [w], and [b] goes on inside [w] *)
    destruct y as [|c y].
    + rewrite app_nil_r in Ey. subst w. apply (Hstart t [] Hw). now rewrite app_nil_r.
    + subst w. rewrite <- app_assoc in Ew. apply app_inv_head in Ew.
      destruct Hb as [|w2 b' Hw2 _]; [discriminate|].
      pose proof leading_apart as Hapart. unfold apart_b in Hapart.
      rewrite forallb_forall in Hapart. specialize (Hapart _ Hw).
      rewrite forallb_forall in Hapart.
      destruct t as [|c0 t]; [contradiction|]. cbn [app tl] in Hapart.
      specialize (Hapart c). rewrite forallb_forall in Hapart.
      assert (Hc : In c (t ++ c :: y)) by (apply in_or_app; right; now left).
      specialize (Hapart Hc w2 Hw2).
      pose proof leading_nonempty as Hne. rewrite List.Forall_forall in Hne.
      specialize (Hne w2 Hw2).
      destruct w2 as [|c2 w2]; [contradiction|].
      cbn in Ew. injection Ew as <- _.
      rewrite Ascii.eqb_refl in Hapart. discriminate.
  - apply (Hstart w y Hw Ey).
Qed.

(** The text without the white space around it is what [strip] gives,
    and nothing else. *)
Lemma trimmed_unique line t : trimmed_of line t -> t = strip line.
Proof.
  intros ((a & b & E & Ha & Hb) & Hstart & Hend).
  apply white_run in Ha, Hb.
  assert (Hl : list_ascii_of_string line
               = list_ascii_of_string a
                 ++ list_ascii_of_string t ++ list_ascii_of_string b).
  { now rewrite E, !list_of_append. }
  assert (Hstart' : forall w x, In w leading -> list_ascii_of_string t <> w ++ x).
  { intros w x Hw Et. destruct (leading_entry w Hw) as (w' & Hw' & ->).
    apply (Hstart w' (string_of_list_ascii x) Hw'). apply string_list_inj.
    now rewrite list_of_append, list_ascii_of_string_of_list_ascii. }
  assert (Hend' : skip trailing (rev (list_ascii_of_string t)) = None).
  { destruct (skip trailing (rev (list_ascii_of_string t))) as [r|] eqn:Es;
      [exfalso|reflexivity].
    destruct (skip_some _ _ _ Es) as (w & Hw & Ew).
    destruct (trailing_entry w Hw) as (w' & Hw' & ->).
    apply (Hend w' (string_of_list_ascii (rev r)) Hw'). apply string_list_inj.
    rewrite list_of_append, list_ascii_of_string_of_list_ascii.
    rewrite <- (rev_involutive (list_ascii_of_string t)), Ew, rev_app_distr.
    now rewrite rev_involutive. }
  apply string_list_inj. unfold strip. rewrite rstrip_list, lstrip_list, Hl.
  rewrite (dropped_run leading _ _ leading_nonempty leading_prefix_free Ha).
  destruct (list_ascii_of_string t) as [|c t'] eqn:Et.
  - (* nothing but white space *)
    cbn [app].
    rewrite <- (app_nil_r (list_ascii_of_string b)).
    rewrite (dropped_run leading _ _ leading_nonempty leading_prefix_free Hb).
    reflexivity.
  - rewrite (dropped_fixed leading leading_nonempty ((c :: t') ++ _)).
    + rewrite rev_app_distr.
      rewrite (dropped_run trailing _ _ trailing_nonempty trailing_prefix_free
                           (run_rev _ Hb)).
      rewrite (dropped_fixed trailing trailing_nonempty _ Hend').
      now rewrite rev_involutive.
    + apply skip_before_run; [discriminate| |exact Hstart'|exact Hb].
      destruct (skip leading (c :: t')) as [r|] eqn:Es; [exfalso|reflexivity].
      destruct (skip_some _ _ _ Es) as (w & Hw & Ew). apply (Hstart' w r Hw Ew).
Qed.

End StripFacts.

Module SoupFacts.
Import Soup Spec.

Lemma find_all_sound p n d : In d (find_all p n) -> p d = true.
Proof.
  unfold find_all. rewrite filter_In. intros [_ H].
  apply andb_true_iff in H. tauto.
Qed.

Lemma find_all_in_sound p n d : In d (find_all_in p n) -> p (fst d) = true.
Proof.
  unfold find_all_in. rewrite filter_In. intros [_ H].
  apply andb_true_iff in H. tauto.
Qed.

Lemma find_sound p n d : find p n = Some d -> p d = true.
Proof.
  unfold find. intros H. apply (find_all_sound p n).
  destruct (find_all p n); simpl in H; [discriminate|].
  injection H as ->. now left.
Qed.

Lemma attr_matches_get key p n :
  attr_matches key p n = true -> p (get key EmptyString n) = true.
Proof.
  unfold attr_matches, get. destruct (attr key n); [tauto | discriminate].
Qed.

(** *** Text and descendants *)

Lemma join_app l1 l2 : join (l1 ++ l2) = join l1 +:+ join l2.
Proof.
  induction l1 as [|x l1 IH]; [reflexivity|].
  cbn [app join fold_right]. fold (join (l1 ++ l2)). fold (join l1).
  rewrite IH. apply StripFacts.string_list_inj.
  now rewrite !StripFacts.list_of_append, app_assoc.
Qed.

Lemma texts_app l1 l2 : texts (l1 ++ l2) = texts l1 ++ texts l2.
Proof. apply flat_map_app. Qed.

(** What [get_text] collects for ordinary text is the ordinary strings
    of the walk. *)
Lemma strings_of_walk : forall n a anc,
  strings_of None n = join (texts ((n, a) :: walk anc n)).
Proof.
  fix IH 1. intros [s|cls s|name attrs cs] a anc.
  - cbn. now rewrite StripFacts.append_empty_r.
  - reflexivity.
  - change (texts ((Elem name attrs cs, a) :: walk anc (Elem name attrs cs)))
      with (texts (walk anc (Elem name attrs cs))).
    cbn [strings_of walk].
    generalize (Elem name attrs cs :: anc). intros chain.
    induction cs as [|c cs IHcs]; [reflexivity|].
    rewrite (IH c chain chain), IHcs.
    change ((c, chain) :: walk chain c ++ _)
      with (((c, chain) :: walk chain c) ++
            (fix go (l : list node) : list (node * list node) :=
               match l with
               | [] => []
               | c0 :: l' => (c0, chain) :: walk chain c0 ++ go l'
               end) cs).
    now rewrite texts_app, join_app.
Qed.

Lemma get_text_plain n :
  is_tag n = true -> interesting (name_of n) = None -> get_text n = plain_text n.
Proof.
  destruct n as [s|cls s|name attrs cs]; try discriminate.
  intros _ Hname. cbn [name_of] in Hname. unfold get_text, plain_text.
  rewrite Hname. apply (strings_of_walk (Elem name attrs cs) []).
Qed.

(** The descendants do not depend on the chain the walk starts with. *)
Lemma walk_nodes : forall n anc, map fst (walk anc n) = descendants n.
Proof.
  fix IH 1. intros [s|cls s|name attrs cs] anc; [reflexivity|reflexivity|].
  unfold descendants. cbn [walk].
  generalize (Elem name attrs cs :: anc). generalize [Elem name attrs cs].
  intros chain1 chain2.
  induction cs as [|c cs IHcs]; [reflexivity|].
  cbn [map]. rewrite !map_app, IHcs, (IH c chain1), (IH c chain2). reflexivity.
Qed.

Lemma descendants_children name attrs cs x :
  In x (descendants (Elem name attrs cs))
  <-> exists c, In c cs /\ (x = c \/ In x (descendants c)).
Proof.
  unfold descendants at 1. cbn [walk].
  generalize [Elem name attrs cs]. intros chain.
  induction cs as [|c cs IHcs].
  - split; [intros []|intros (c & [] & _)].
  - cbn [map]. rewrite map_app. cbn [In fst]. rewrite in_app_iff, walk_nodes.
    rewrite IHcs. split.
    + intros [E|[H|(c' & Hc' & H)]].
      * exists c. split; [now left|left; now symmetry].
      * exists c. split; [now left|now right].
      * exists c'. split; [now right|exact H].
    + intros (c' & [<-|Hc'] & H).
      * destruct H as [->|H]; [now left|right; now left].
      * right. right. exists c'. split; assumption.
Qed.

(** Induction on a document, the contents of a tag included. *)
Lemma node_induction (P : node -> Prop) :
  (forall s, P (Text s)) ->
  (forall cls s, P (Special cls s)) ->
  (forall name attrs cs, List.Forall P cs -> P (Elem name attrs cs)) ->
  forall n, P n.
Proof.
  intros HT HS HE. fix IH 1. intros [s|cls s|name attrs cs];
    [apply HT|apply HS|apply HE].
  induction cs as [|c cs IHcs]; constructor; [apply IH|exact IHcs].
Qed.

Lemma descendants_trans n : forall d x,
  In d (descendants n) -> In x (descendants d) -> In x (descendants n).
Proof.
  induction n as [s|cls s|name attrs cs IH] using node_induction;
    intros d x; [intros []|intros []|].
  rewrite !descendants_children. intros (c & Hc & Hd) Hx.
  exists c. split; [exact Hc|]. right.
  destruct Hd as [->|Hd]; [exact Hx|].
  rewrite List.Forall_forall in IH. apply (IH c Hc d x Hd Hx).
Qed.

Lemma find_all_descendant p n d : In d (find_all p n) -> In d (descendants n).
Proof. unfold find_all. rewrite filter_In. tauto. Qed.

Lemma find_descendant p n d : find p n = Some d -> In d (descendants n).
Proof.
  unfold find. intros H. apply (find_all_descendant p).
  destruct (find_all p n); [discriminate|]. injection H as ->. now left.
Qed.

Lemma find_all_in_descendant p n hit :
  In hit (find_all_in p n) -> In (fst hit) (descendants n).
Proof.
  unfold find_all_in, descendants. rewrite filter_In. intros [H _].
  now apply in_map.
Qed.

End SoupFacts.

(* ===================================================================== *)
(** ** abu_dhabi_events_fetcher: extraction and de-duplication *)
(* ===================================================================== *)

Module AbuDhabiExtract.
Import Io AbuDhabi Spec.

(** *** The de-duplication loop *)

Lemma first_with_url_app u l1 l2 :
  first_with_url u (l1 ++ l2) =
  match first_with_url u l1 with
  | Some e => Some e
  | None => first_with_url u l2
  end.
Proof.
  unfold first_with_url. induction l1 as [|a l1 IH]; simpl; [reflexivity|].
  destruct (String.eqb (url a) u); [reflexivity | exact IH].
Qed.

Lemma first_with_url_none u l :
  first_with_url u l = None <-> ~ In u (map url l).
Proof.
  unfold first_with_url. induction l as [|a l IH]; simpl.
  - tauto.
  - destruct (String.eqb (url a) u) eqn:E.
    + apply String.eqb_eq in E. split; [discriminate | tauto].
    + apply String.eqb_neq in E. rewrite IH. tauto.
Qed.

Lemma shares_earlier_iff c earlier :
  existsb (fun e => String.eqb (url e) (url c)) earlier = true
  <-> In (url c) (map url earlier).
Proof.
  rewrite existsb_exists, in_map_iff. split.
  - intros (e & He & E). apply String.eqb_eq in E. eauto.
  - intros (e & E & He). exists e. split; [assumption|].
    now apply String.eqb_eq.
Qed.

(** The invariant of the loop: [seen_urls] holds the URLs met so far,
    which are those of [unique_events], each once. *)
Lemma dedup_loop l : forall earlier unique_events (seen_urls : gset string),
  (forall u, u ∈ seen_urls <-> In u (map url earlier)) ->
  (forall u, In u (map url unique_events) <-> In u (map url earlier)) ->
  NoDup (map url unique_events) ->
  let r := fst (fold_left dedup_step l (unique_events, seen_urls)) in
  NoDup (map url r)
  /\ length r + repeats_after earlier l = length unique_events + length l
  /\ (forall u, first_with_url u r =
                match first_with_url u unique_events with
                | Some e => Some e
                | None => first_with_url u l
                end)
  /\ (forall e, In e r -> In e unique_events \/ In e l).
Proof.
  induction l as [|c l IH]; intros earlier uniq seen Hseen Huniq Hnd; simpl.
  - repeat split; try assumption; try lia; try tauto.
    intros u. now destruct (first_with_url u uniq).
  - destruct (bool_decide (url c ∉ seen)) eqn:Hfresh.
    + apply bool_decide_eq_true in Hfresh.
      assert (Hnew : ~ In (url c) (map url earlier)) by (rewrite <- Hseen; exact Hfresh).
      assert (P1 : forall u, u ∈ ({[ url c ]} ∪ seen : gset string)
                             <-> In u (map url (earlier ++ [c]))).
      { intros u. rewrite elem_of_union, elem_of_singleton, Hseen.
        rewrite map_app, in_app_iff. simpl. intuition congruence. }
      assert (P2 : forall u, In u (map url (uniq ++ [c]))
                             <-> In u (map url (earlier ++ [c]))).
      { intros u. rewrite !map_app, !in_app_iff, Huniq. tauto. }
      assert (P3 : NoDup (map url (uniq ++ [c]))).
      { rewrite map_app. apply NoDup_app. repeat split.
        - exact Hnd.
        - intros x Hx Hc. apply list_elem_of_In in Hx, Hc.
          destruct Hc as [<-|[]]. apply Hnew. now apply Huniq.
        - apply NoDup_singleton. }
      destruct (IH _ _ _ P1 P2 P3) as (H1 & H2 & H3 & H4).
      repeat split.
      * exact H1.
      * destruct (existsb _ earlier) eqn:E.
        -- apply shares_earlier_iff in E. contradiction.
        -- rewrite length_app in H2. simpl in *. lia.
      * intros u. rewrite H3, first_with_url_app.
        destruct (first_with_url u uniq); [reflexivity|].
        unfold first_with_url at 1 3. simpl.
        destruct (String.eqb (url c) u); reflexivity.
      * intros e He. apply H4 in He. rewrite in_app_iff in He.
        simpl in *. tauto.
    + apply bool_decide_eq_false in Hfresh.
      assert (Hold : In (url c) (map url earlier)).
      { rewrite <- Hseen. destruct (decide (url c ∈ seen)); tauto. }
      assert (P1 : forall u, u ∈ seen <-> In u (map url (earlier ++ [c]))).
      { intros u. rewrite Hseen, map_app, in_app_iff. simpl.
        intuition congruence. }
      assert (P2 : forall u, In u (map url uniq)
                             <-> In u (map url (earlier ++ [c]))).
      { intros u. rewrite Huniq, map_app, in_app_iff. simpl.
        intuition congruence. }
      destruct (IH _ _ _ P1 P2 Hnd) as (H1 & H2 & H3 & H4).
      repeat split.
      * exact H1.
      * destruct (existsb _ earlier) eqn:E.
        -- simpl in *. lia.
        -- apply shares_earlier_iff in Hold. congruence.
      * intros u. rewrite H3.
        destruct (first_with_url u uniq) eqn:F; [reflexivity|].
        unfold first_with_url at 2. simpl.
        destruct (String.eqb (url c) u) eqn:E; [|reflexivity].
        apply String.eqb_eq in E. subst u.
        apply first_with_url_none in F. apply Huniq in Hold. contradiction.
      * intros e He. apply H4 in He. simpl. tauto.
Qed.

Lemma deduplicate_spec l :
  NoDup (map url (deduplicate l))
  /\ length (deduplicate l) + repeats l = length l
  /\ (forall u, first_with_url u (deduplicate l) = first_with_url u l)
  /\ (forall e, In e (deduplicate l) -> In e l).
Proof.
  assert (P1 : forall u, u ∈ (∅ : gset string) <-> In u (map url [])).
  { intros u. simpl. rewrite elem_of_empty. tauto. }
  assert (P2 : forall u, In u (map url []) <-> In u (map url [])) by tauto.
  assert (P3 : NoDup (map url [])) by constructor.
  destruct (dedup_loop l _ _ _ P1 P2 P3) as (H1 & H2 & H3 & H4).
  unfold deduplicate, repeats. repeat split.
  - exact H1.
  - simpl in H2. exact H2.
  - exact H3.
  - intros e He. apply H4 in He. simpl in He. tauto.
Qed.

(** *** The two strategies *)

Section Strategies.

Variable urljoin : string -> string -> string.
Variable parse_html : string -> Soup.node.
Variables findall_date findall_venue_calendar findall_venue_list
  : string -> list string.

Local Notation calendar :=
  (extract_events_from_calendar urljoin findall_date findall_venue_calendar).
Local Notation listing :=
  (extract_events_from_list urljoin findall_date findall_venue_list).

(** What the calendar view requires of a link before it emits a
    record. *)
Lemma calendar_link_gate base hit e :
  In e (calendar_link urljoin findall_date findall_venue_calendar base hit) ->
  PyStr.truthy (title e) = true
  /\ PyStr.truthy (url e) = true
  /\ PyStr.in_list (PyStr.lower (title e)) calendar_boilerplate = false.
Proof.
  unfold calendar_link. destruct hit as [link ancestors]. cbv zeta.
  destruct (PyStr.truthy (PyStr.strip (Soup.get_text link))) eqn:Ht;
    cbn [andb]; [|intros []].
  destruct (PyStr.truthy (urljoin base (Soup.get "href" EmptyString link))) eqn:Hu;
    cbn [andb]; [|intros []].
  destruct (PyStr.in_list (PyStr.lower (PyStr.strip (Soup.get_text link)))
                          calendar_boilerplate) eqn:Hb; cbn [negb]; [intros []|].
  destruct (Soup.find_parent ancestors) as [parent|];
    intros [<-|[]]; cbn [title url new_event]; auto.
Qed.

(** What the list view requires of an entry before it emits a
    record; its URL is the resolved target of a link that matched
    the event path. *)
Lemma list_item_gate base item e :
  In e (list_item urljoin findall_date findall_venue_list base item) ->
  PyStr.truthy (title e) = true
  /\ PyStr.in_list (PyStr.lower (title e)) list_boilerplate = false
  /\ exists href, event_path href = true /\ url e = urljoin base href.
Proof.
  unfold list_item.
  destruct (Soup.find is_event_link item) as [event_link|] eqn:Hfind; [|intros []].
  apply SoupFacts.find_sound in Hfind. unfold is_event_link in Hfind.
  apply andb_true_iff in Hfind. destruct Hfind as [_ Hhref].
  apply SoupFacts.attr_matches_get in Hhref.
  cbv zeta.
  destruct (PyStr.truthy (PyStr.strip (Soup.get_text event_link))) eqn:Ht;
    cbn [negb orb]; [|intros []].
  destruct (PyStr.in_list (PyStr.lower (PyStr.strip (Soup.get_text event_link)))
                          list_boilerplate) eqn:Hb; [intros []|].
  intros [<-|[]]. cbn [title url new_event]. repeat split; auto.
  eexists. split; [exact Hhref | reflexivity].
Qed.

Lemma calendar_records soup base e :
  In e (calendar soup base) ->
  exists hit, In e (calendar_link urljoin findall_date findall_venue_calendar base hit).
Proof.
  unfold extract_events_from_calendar. rewrite in_flat_map.
  intros (container & _ & H). rewrite in_flat_map in H.
  destruct H as (hit & _ & H). eauto.
Qed.

Lemma listing_records soup base e :
  In e (listing soup base) ->
  exists item, In e (list_item urljoin findall_date findall_venue_list base item).
Proof.
  unfold extract_events_from_list.
  destruct (Soup.find _ soup) as [events_container|]; [|intros []].
  rewrite in_flat_map. intros (item & _ & H). eauto.
Qed.

(** C2.  Every record either strategy emits has a non-empty title
    and a non-empty URL: the calendar view tests both, the list view
    tests the title and resolves the target of a link that matched
    the event path, which [urljoin] does not resolve to the empty
    string against the base the page was fetched from.  So a
    candidate lacking either never appears in the output. *)
Theorem extracted_records_have_title_and_url soup base :
  (forall href, event_path href = true -> urljoin base href <> EmptyString) ->
  forall e, In e (calendar soup base) \/ In e (listing soup base) ->
            title e <> EmptyString /\ url e <> EmptyString.
Proof.
  intros Hjoin e [H|H].
  - apply calendar_records in H. destruct H as (hit & H).
    apply calendar_link_gate in H. destruct H as (Ht & Hu & _).
    split; now apply PyStrFacts.truthy_true.
  - apply listing_records in H. destruct H as (item & H).
    apply list_item_gate in H. destruct H as (Ht & _ & href & Hp & Hu).
    split; [now apply PyStrFacts.truthy_true|].
    rewrite Hu. now apply Hjoin.
Qed.

(** C7, as the code has it.  Each strategy refuses its own list of
    titles, compared in lower case: the calendar view "view event",
    "export" and the Arabic label, the list view "view event",
    "export" and "filter".  Hence "view event" and "export", in any
    letter case, are never the title of a record of the combined,
    de-duplicated output. *)
Theorem boilerplate_titles_rejected soup base e :
  (In e (calendar soup base) ->
   ~ In (PyStr.lower (title e)) calendar_boilerplate)
  /\ (In e (listing soup base) ->
      ~ In (PyStr.lower (title e)) list_boilerplate)
  /\ (In e (deduplicate (calendar soup base ++ listing soup base)) ->
      PyStr.lower (title e) <> "view event"
      /\ PyStr.lower (title e) <> "export").
Proof.
  assert (Hc : In e (calendar soup base) ->
               ~ In (PyStr.lower (title e)) calendar_boilerplate).
  { intros H. apply calendar_records in H. destruct H as (hit & H).
    apply calendar_link_gate in H. destruct H as (_ & _ & Hb).
    now apply PyStrFacts.in_list_false. }
  assert (Hl : In e (listing soup base) ->
               ~ In (PyStr.lower (title e)) list_boilerplate).
  { intros H. apply listing_records in H. destruct H as (item & H).
    apply list_item_gate in H. destruct H as (_ & Hb & _).
    now apply PyStrFacts.in_list_false. }
  split; [exact Hc | split; [exact Hl|]].
  intros H. apply deduplicate_spec in H. apply in_app_or in H.
  split; intros E;
    (destruct H as [H|H]; [apply (Hc H) | apply (Hl H)]; rewrite E; simpl; tauto).
Qed.

(** *** One month *)

Local Notation month_fetch :=
  (fetch_events_for_month urljoin parse_html findall_date
                          findall_venue_calendar findall_venue_list).
Local Notation raw_candidates :=
  (AbuDhabi.raw_candidates urljoin parse_html findall_date
                           findall_venue_calendar findall_venue_list).

Lemma fetch_events_for_month_eq month year w :
  month_fetch month year w =
  (deduplicate (raw_candidates month year w),
   snd (fetch_page (get_month_url month year) 3 w)).
Proof.
  unfold fetch_events_for_month, AbuDhabi.raw_candidates, St.bind.
  destruct (fetch_page (get_month_url month year) 3 w) as [[html|] w'];
    simpl; [|reflexivity].
  destruct (PyStr.truthy html); reflexivity.
Qed.

(** C1.  The list a single-month fetch returns holds no two records
    with the same URL; with N raw candidates from the two
    strategies, M of which share their URL with an earlier one, it
    has exactly N - M records; and for every URL the record kept is
    the first candidate with that URL. *)
Theorem month_fetch_deduplicates month year w :
  let raw := raw_candidates month year w in
  let events := fst (month_fetch month year w) in
  NoDup (map url events)
  /\ length events = length raw - repeats raw
  /\ repeats raw <= length raw
  /\ (forall u, first_with_url u events = first_with_url u raw)
  /\ (forall e, In e events -> In e raw).
Proof.
  intros raw events. subst events. rewrite fetch_events_for_month_eq. simpl.
  fold raw. destruct (deduplicate_spec raw) as (H1 & H2 & H3 & H4).
  repeat split; try assumption; lia.
Qed.

End Strategies.

End AbuDhabiExtract.

(* ===================================================================== *)
(** ** The page fetcher: bounded retries with exponential backoff *)
(* ===================================================================== *)

Module Backoff.
Import Io Spec.

Lemma loops_agree url retries todo : forall attempt,
  Adnec.fetch_page_loop url retries todo attempt
  = AbuDhabi.fetch_page_loop url retries todo attempt.
Proof. reflexivity. Qed.

Lemma sleeps_attempts url k : forall attempt,
  sleeps (attempts_trace url k attempt)
  = map (fun i => 2 ^ (attempt + Z.of_nat i))%Z (seq 0 (k - 1)).
Proof.
  induction k as [|k IH]; intros attempt; [reflexivity|].
  destruct k as [|k]; [reflexivity|].
  change (sleeps (attempts_trace url (S (S k)) attempt))
    with ((2 ^ attempt)%Z :: sleeps (attempts_trace url (S k) (attempt + 1))).
  rewrite IH. replace (S (S k) - 1) with (S (S k - 1)) by lia.
  simpl seq. simpl map. f_equal.
  - f_equal. lia.
  - rewrite <- seq_shift, map_map. apply map_ext. intros i. f_equal. lia.
Qed.

Lemma requests_attempts url k : forall attempt,
  requests (attempts_trace url k attempt) = repeat url k.
Proof.
  induction k as [|k IH]; intros attempt; [reflexivity|].
  destruct k as [|k]; [reflexivity|].
  change (requests (attempts_trace url (S (S k)) attempt))
    with (url :: requests (attempts_trace url (S k) (attempt + 1))).
  now rewrite IH.
Qed.

Lemma attempts_end_with_request url k : forall attempt,
  (0 < k)%nat ->
  exists before, attempts_trace url k attempt = before ++ [HttpGet url].
Proof.
  induction k as [|k IH]; intros attempt Hk; [lia|].
  destruct k as [|k].
  - exists []. reflexivity.
  - destruct (IH (attempt + 1)%Z) as (before & E); [lia|].
    exists (HttpGet url :: Sleep (2 ^ attempt) :: before).
    change (attempts_trace url (S (S k)) attempt)
      with (HttpGet url :: Sleep (2 ^ attempt)
              :: attempts_trace url (S k) (attempt + 1)).
    now rewrite E.
Qed.

Lemma nth_map_seq (f : nat -> Z) n i :
  (i < n)%nat -> nth i (map f (seq 0 n)) 0%Z = f i.
Proof.
  intros H.
  rewrite (nth_indep _ 0%Z (f 0%nat)) by (rewrite length_map, length_seq; lia).
  rewrite map_nth, seq_nth by lia. reflexivity.
Qed.

(** The waits between the attempts are 1, 2, 4, ...: each the double of
    the one before. *)
Lemma waits_increase url k i :
  (S i < k - 1)%nat ->
  (nth i (sleeps (attempts_trace url k 0)) 0
   < nth (S i) (sleeps (attempts_trace url k 0)) 0)%Z.
Proof.
  intros H. rewrite sleeps_attempts, !nth_map_seq by lia.
  apply Z.pow_lt_mono_r; lia.
Qed.

(** What a run of the retry loop does, with [todo] attempts left and
    the attempts numbered in step with the budget. *)
Lemma fetch_page_loop_spec url retries todo : forall attempt w,
  (todo = 0%nat \/ attempt + Z.of_nat todo = retries)%Z ->
  exists k : nat,
    (k <= todo)%nat
    /\ trace (snd (AbuDhabi.fetch_page_loop url retries todo attempt w))
       = trace w ++ attempts_trace url k attempt
    /\ sent (snd (AbuDhabi.fetch_page_loop url retries todo attempt w))
       = (sent w + k)%nat
    /\ http (snd (AbuDhabi.fetch_page_loop url retries todo attempt w)) = http w
    /\ chrome_starts (snd (AbuDhabi.fetch_page_loop url retries todo attempt w))
       = chrome_starts w
    /\ browser (snd (AbuDhabi.fetch_page_loop url retries todo attempt w))
       = browser w
    /\ (forall i, (S i < k)%nat -> http w (sent w + i)%nat url = None)
    /\ match fst (AbuDhabi.fetch_page_loop url retries todo attempt w) with
       | Some text => (0 < k)%nat /\ http w (sent w + (k - 1))%nat url = Some text
       | None => k = todo /\ forall i, (i < k)%nat -> http w (sent w + i)%nat url = None
       end.
Proof.
  induction todo as [|todo IH]; intros attempt w Hsync.
  - exists 0%nat. simpl. rewrite app_nil_r.
    repeat split; try lia; intros; lia.
  - destruct Hsync as [Hsync|Hsync]; [discriminate|].
    simpl. unfold St.bind, St.http_get.
    destruct (http w (sent w) url) as [text|] eqn:Hget.
    + exists 1%nat. simpl. rewrite Nat.add_0_r.
      repeat split; try lia; try reflexivity; try assumption; intros; lia.
    + destruct (attempt <? retries - 1)%Z eqn:Hlast.
      * apply Z.ltb_lt in Hlast.
        unfold St.sleep. simpl.
        set (w1 := emit (Sleep (2 ^ attempt)) (count_request (emit (HttpGet url) w))).
        destruct (IH (attempt + 1)%Z w1) as (k & Hk & Ht & Hs & Hh & Hc & Hb & Hf & Hr);
          [right; lia|].
        assert (k = 0%nat \/ (0 < k)%nat) as [->|Hpos] by lia.
        { (* the rest of the loop does at least one attempt *)
          exfalso. destruct todo as [|todo]; [lia|].
          destruct (fst (AbuDhabi.fetch_page_loop url retries (S todo) (attempt + 1) w1));
            [lia | destruct Hr; lia]. }
        exists (S k). rewrite Ht, Hs, Hh, Hc, Hb. subst w1. simpl.
        repeat split; try lia; try reflexivity.
        -- destruct k as [|k]; [lia|]. rewrite <- !app_assoc. reflexivity.
        -- intros i Hi. destruct i as [|i].
           ++ now rewrite Nat.add_0_r.
           ++ specialize (Hf i). simpl in Hf.
              replace (sent w + S i)%nat with (S (sent w + i)) by lia.
              apply Hf. lia.
        -- destruct (fst (AbuDhabi.fetch_page_loop url retries todo (attempt + 1) _)).
           ++ destruct Hr as [_ Hr]. simpl in Hr. split; [lia|].
              match goal with
              | |- http w ?n url = _ => replace n with (S (sent w + (k - 1))) by lia
              end.
              exact Hr.
           ++ destruct Hr as [-> Hr]. split; [reflexivity|].
              intros i Hi. destruct i as [|i].
              ** now rewrite Nat.add_0_r.
              ** specialize (Hr i). simpl in Hr.
                 replace (sent w + S i)%nat with (S (sent w + i)) by lia.
                 apply Hr. lia.
      * apply Z.ltb_ge in Hlast.
        exists 1%nat. simpl.
        assert (todo = 0%nat) by lia. subst todo.
        repeat split; try lia; try reflexivity.
        intros i Hi. assert (i = 0%nat) by lia. subst i.
        now rewrite Nat.add_0_r.
Qed.

Lemma fetch_page_backs_off url retries w :
  backs_off url retries w (AbuDhabi.fetch_page url retries w).
Proof.
  unfold AbuDhabi.fetch_page.
  destruct (fetch_page_loop_spec url retries (Z.to_nat retries) 0 w)
    as (k & Hk & Ht & Hs & _ & _ & _ & Hf & Hr).
  { destruct (Z.to_nat retries) eqn:E; [now left | right; lia]. }
  exists k.
  split; [exact Hk|]. split; [exact Ht|].
  split; [apply requests_attempts|].
  split; [rewrite sleeps_attempts; apply map_ext; intros i; f_equal|].
  split; [intros i; apply waits_increase|].
  split; [apply attempts_end_with_request|].
  split; [exact Hf|].
  destruct (fst (AbuDhabi.fetch_page_loop url retries (Z.to_nat retries) 0 w))
    as [text|].
  - destruct Hr as [Hpos Hr].
    split; [discriminate|]. split.
    + intros text' E. injection E as <-. tauto.
    + intros Hall. rewrite Hall in Hr by lia. discriminate.
  - split; [tauto|]. split; [discriminate | reflexivity].
Qed.

Lemma requests_app t1 t2 : requests (t1 ++ t2) = requests t1 ++ requests t2.
Proof.
  induction t1 as [|e t1 IH]; [reflexivity|].
  destruct e; simpl; now rewrite IH.
Qed.

Lemma requests_emit e w :
  (forall u, e <> HttpGet u) -> requests (trace (emit e w)) = requests (trace w).
Proof.
  intros H. simpl. rewrite requests_app.
  destruct e; simpl; try apply app_nil_r. now destruct (H url).
Qed.

Lemma scroll_loop_requests page todo : forall scrolls events_count last_height w,
  requests (trace (snd (Adnec.scroll_loop page todo scrolls events_count
                                          last_height w)))
  = requests (trace w).
Proof.
  induction todo as [|todo IH]; intros scrolls events_count last_height w;
    [reflexivity|].
  assert (Hstep : requests (trace (emit (Sleep 2) (emit ChromeScroll w)))
                  = requests (trace w))
    by (rewrite !requests_emit by discriminate; reflexivity).
  cbn [Adnec.scroll_loop]. unfold St.bind, St.do, St.sleep.
  destruct (link_count page (S scrolls) =? events_count)%Z; [exact Hstep|].
  destruct (scroll_height page (S scrolls) =? last_height)%Z; [exact Hstep|].
  rewrite IH. exact Hstep.
Qed.

Lemma selenium_session_requests url w :
  requests (trace (snd (Adnec.selenium_session url w))) = requests (trace w).
Proof.
  unfold Adnec.selenium_session, St.bind, St.do.
  change (browser (emit (ChromeGet url) w) url) with (browser w url).
  assert (Hget : requests (trace (emit (ChromeGet url) w)) = requests (trace w))
    by (apply requests_emit; discriminate).
  destruct (browser w url) as [page|]; [|exact Hget].
  destruct (grid_present page); [|exact Hget].
  pose proof (scroll_loop_requests page 10 0 0 (scroll_height page 0)
                (emit (ChromeGet url) w)) as H.
  destruct (Adnec.scroll_loop page 10 0 0 (scroll_height page 0)
                              (emit (ChromeGet url) w)) as [scrolls w'].
  simpl in *. now rewrite H.
Qed.

(** The browser-rendered fetch sends no HTTP request of its own. *)
Lemma browser_fetch_sends_no_request selenium_available url w :
  requests (trace (snd (Adnec.fetch_page_with_selenium selenium_available url w)))
  = requests (trace w).
Proof.
  unfold Adnec.fetch_page_with_selenium, Ex.bind, Adnec.create_driver.
  destruct selenium_available; [|reflexivity]. cbn [negb].
  assert (Hstart : requests (trace (emit ChromeStart w)) = requests (trace w))
    by (apply requests_emit; discriminate).
  destruct (chrome_starts w); [|exact Hstart].
  unfold Ex.finally, Ex.lift, St.do.
  pose proof (selenium_session_requests url (emit ChromeStart w)) as H.
  destruct (Adnec.selenium_session url (emit ChromeStart w)) as [html w'].
  cbn [fst snd] in *. rewrite requests_emit by discriminate.
  now rewrite H.
Qed.

(** C3.  Both page fetchers make at most [retries] attempts (3 by
    default); after every failed attempt but the last they wait 2 to
    the power of the attempt's number, so 1, 2, 4, ..., strictly
    growing; no wait follows the last attempt; and when every attempt
    fails the result is absence, not an exception.  The ADNEC fetcher
    does so on every URL it does not hand to the browser; a URL it
    hands to the browser costs no attempt at all. *)
Theorem fetch_page_retries_with_backoff url retries w :
  backs_off url retries w (AbuDhabi.fetch_page url retries w)
  /\ forall selenium_available self,
      if browser_path self url
      then Adnec.fetch_page selenium_available self url retries w
           = Adnec.fetch_page_with_selenium selenium_available url w
           /\ requests (trace (snd (Adnec.fetch_page selenium_available self
                                                     url retries w)))
              = requests (trace w)
      else exists r w',
          Adnec.fetch_page selenium_available self url retries w = (Ok r, w')
          /\ backs_off url retries w (r, w').
Proof.
  split; [apply fetch_page_backs_off|].
  intros selenium_available self. unfold browser_path, Adnec.fetch_page.
  destruct (PyStr.contains "/eventlisting" url && PyStr.endswith "eventlisting" url
            && Adnec.use_selenium self);
    [split; [reflexivity | apply browser_fetch_sends_no_request]|].
  unfold Ex.lift. rewrite loops_agree.
  pose proof (fetch_page_backs_off url retries w) as H.
  unfold AbuDhabi.fetch_page in H.
  destruct (AbuDhabi.fetch_page_loop url retries (Z.to_nat retries) 0 w) as [r w'].
  exists r, w'. split; [reflexivity | exact H].
Qed.

End Backoff.

(* ===================================================================== *)
(** ** The aggregator over a range of months *)
(* ===================================================================== *)

Module Aggregate.
Import Io AbuDhabi Spec.

Lemma month_of_index_valid i :
  (1 <= fst (month_of_index i) <= 12
   /\ month_index (fst (month_of_index i)) (snd (month_of_index i)) = i)%Z.
Proof.
  unfold month_of_index, month_index. simpl.
  pose proof (Z.mod_pos_bound i 12 ltac:(lia)).
  pose proof (Z.div_mod i 12 ltac:(lia)). lia.
Qed.

Lemma month_of_index_of month year :
  (1 <= month <= 12)%Z -> month_of_index (month_index month year) = (month, year).
Proof.
  intros H. unfold month_of_index, month_index.
  assert (Hd : ((12 * year + (month - 1)) / 12 = year)%Z)
    by (Z.to_euclidean_division_equations; lia).
  assert (Hm : ((12 * year + (month - 1)) mod 12 = month - 1)%Z)
    by (Z.to_euclidean_division_equations; lia).
  rewrite Hd, Hm. f_equal; lia.
Qed.

Lemma months_from_next i n :
  months_from i (S n) = month_of_index i :: months_from (i + 1) n.
Proof.
  unfold months_from. simpl. rewrite Z.add_0_r. f_equal.
  rewrite <- seq_shift, map_map. apply map_ext. intros k. f_equal. lia.
Qed.

Lemma months_from_length i n : length (months_from i n) = n.
Proof. unfold months_from. now rewrite length_map, length_seq. Qed.

Lemma months_from_nth i n k :
  (k < n)%nat ->
  nth k (months_from i n) (0, 0)%Z = month_of_index (i + Z.of_nat k).
Proof.
  intros H. unfold months_from.
  rewrite (nth_indep _ (0, 0)%Z ((fun k => month_of_index (i + Z.of_nat k)) 0%nat))
    by (rewrite length_map, length_seq; lia).
  rewrite (map_nth (fun k => month_of_index (i + Z.of_nat k))), seq_nth by lia.
  reflexivity.
Qed.

Lemma months_from_In i n month year :
  In (month, year) (months_from i n)
  <-> (1 <= month <= 12 /\ i <= month_index month year < i + Z.of_nat n)%Z.
Proof.
  unfold months_from. rewrite in_map_iff. split.
  - intros (k & E & Hk). apply in_seq in Hk.
    pose proof (month_of_index_valid (i + Z.of_nat k)) as V.
    rewrite E in V. simpl in V. lia.
  - intros (Hm & Hi).
    exists (Z.to_nat (month_index month year - i)). split.
    + replace (i + Z.of_nat (Z.to_nat (month_index month year - i)))%Z
        with (month_index month year) by lia.
      now apply month_of_index_of.
    + apply in_seq. lia.
Qed.

Lemma in_range_index cm cy em ey :
  (1 <= cm <= 12)%Z -> (1 <= em <= 12)%Z ->
  in_range cm cy em ey = true <-> (month_index cm cy <= month_index em ey)%Z.
Proof.
  intros Hc He. unfold in_range, month_index.
  rewrite orb_true_iff, andb_true_iff, Z.ltb_lt, Z.eqb_eq, Z.leb_le. lia.
Qed.

Lemma next_month_index cm cy :
  (1 <= cm <= 12)%Z ->
  next_month cm cy = month_of_index (month_index cm cy + 1)
  /\ (1 <= fst (next_month cm cy) <= 12)%Z
  /\ (month_index (fst (next_month cm cy)) (snd (next_month cm cy))
      = month_index cm cy + 1)%Z.
Proof.
  intros H. unfold next_month.
  destruct (cm + 1 >? 12)%Z eqn:E.
  - assert (cm = 12)%Z by lia. subst cm. simpl.
    replace (month_index 12 cy + 1)%Z with (month_index 1 (cy + 1))
      by (unfold month_index; lia).
    rewrite month_of_index_of by lia. unfold month_index. repeat split; lia.
  - assert (cm <= 11)%Z by lia. simpl.
    replace (month_index cm cy + 1)%Z with (month_index (cm + 1) cy)
      by (unfold month_index; lia).
    rewrite month_of_index_of by lia. unfold month_index. repeat split; lia.
Qed.

Lemma list_sum_nth (l : list nat) i : (nth i l 0 <= list_sum l)%nat.
Proof.
  revert i. induction l as [|a l IH]; intros [|i]; simpl; try lia.
  specialize (IH i). lia.
Qed.

Lemma list_sum_two (l : list nat) : forall i j,
  (i < j < length l)%nat -> (nth i l 0 + nth j l 0 <= list_sum l)%nat.
Proof.
  induction l as [|a l IH]; intros i j H; simpl in *; [lia|].
  destruct j as [|j]; [lia|]. destruct i as [|i].
  - pose proof (list_sum_nth l j). lia.
  - specialize (IH i j). lia.
Qed.

Lemma count_url_concat u (l : list (list Event)) :
  count_url u (concat l) = list_sum (map (count_url u) l).
Proof.
  unfold count_url. induction l as [|a l IH]; [reflexivity|].
  simpl. rewrite List.filter_app, length_app, IH. reflexivity.
Qed.

Lemma count_url_pos u (l : list Event) :
  In u (map url l) -> (1 <= count_url u l)%nat.
Proof.
  unfold count_url. intros H. apply in_map_iff in H.
  destruct H as (e & E & He).
  assert (Hin : In e (List.filter (fun e => String.eqb (url e) u) l)).
  { apply filter_In. split; [assumption | now apply String.eqb_eq]. }
  destruct (List.filter _ l); [destruct Hin | simpl; lia].
Qed.

Section Range.

Variable urljoin : string -> string -> string.
Variable parse_html : string -> Soup.node.
Variables findall_date findall_venue_calendar findall_venue_list
  : string -> list string.

Local Notation month_fetch :=
  (fetch_events_for_month urljoin parse_html findall_date
                          findall_venue_calendar findall_venue_list).
Local Notation range_fetch :=
  (fetch_events_for_date_range urljoin parse_html findall_date
                               findall_venue_calendar findall_venue_list).
Local Notation loop :=
  (range_loop urljoin parse_html findall_date
              findall_venue_calendar findall_venue_list).

(** The loop visits the [n] months that are left, in order. *)
Lemma range_loop_visit em ey : (1 <= em <= 12)%Z ->
  forall n cm cy fuel acc w,
    (1 <= cm <= 12)%Z ->
    n = Z.to_nat (month_index em ey - month_index cm cy + 1) ->
    (n <= fuel)%nat ->
    loop fuel em ey cm cy acc w
    = (Some (acc ++ concat (fst (visit month_fetch (months_from (month_index cm cy) n) w))),
       snd (visit month_fetch (months_from (month_index cm cy) n) w)).
Proof.
  intros He. induction n as [|n IH]; intros cm cy fuel acc w Hc Hn Hfuel.
  - assert (Hout : in_range cm cy em ey = false).
    { destruct (in_range cm cy em ey) eqn:E; [|reflexivity].
      apply in_range_index in E; [lia | assumption | assumption]. }
    destruct fuel; simpl; rewrite Hout; simpl; now rewrite app_nil_r.
  - assert (Hin : in_range cm cy em ey = true) by (apply in_range_index; lia).
    destruct fuel as [|fuel]; [lia|].
    simpl loop. rewrite Hin. unfold St.bind, St.sleep.
    rewrite months_from_next, month_of_index_of by assumption.
    simpl visit.
    destruct (month_fetch cm cy w) as [events w1].
    destruct (next_month_index cm cy Hc) as (Hnext & Hvalid & Hidx).
    destruct (next_month cm cy) as [cm' cy']. simpl in Hvalid, Hidx.
    rewrite (IH cm' cy' fuel (acc ++ events) (emit (Sleep 1) w1)) by lia.
    rewrite Hidx.
    destruct (visit month_fetch (months_from (month_index cm cy + 1) n)
                    (emit (Sleep 1) w1)) as [others w2].
    simpl. now rewrite app_assoc.
Qed.

Lemma range_fetch_visit sm sy em ey w :
  (1 <= sm <= 12)%Z -> (1 <= em <= 12)%Z ->
  range_fetch sm sy em ey w
  = (Some (concat (fst (visit month_fetch (months_between sm sy em ey) w))),
     snd (visit month_fetch (months_between sm sy em ey) w)).
Proof.
  intros Hs He. unfold fetch_events_for_date_range, months_between.
  rewrite (range_loop_visit em ey He _ sm sy _ [] w Hs eq_refl).
  - reflexivity.
  - unfold range_fuel, month_index. lia.
Qed.

Lemma in_range_years cm cy em ey :
  in_range cm cy em ey = true -> (cy < ey \/ (cy = ey /\ cm <= em))%Z.
Proof.
  unfold in_range.
  rewrite orb_true_iff, andb_true_iff, Z.ltb_lt, Z.eqb_eq, Z.leb_le. tauto.
Qed.

(** The loop always comes to its end within the fuel it is given. *)
Lemma range_loop_total em ey : forall fuel cm cy acc w,
  (if in_range cm cy em ey
   then Z.to_nat (Z.max 1 (13 - cm) + 12 * (ey - cy)) else 0%nat) <= fuel ->
  exists events w', loop fuel em ey cm cy acc w = (Some events, w').
Proof.
  induction fuel as [|fuel IH]; intros cm cy acc w Hfuel.
  - simpl. destruct (in_range cm cy em ey) eqn:E; [|eauto].
    apply in_range_years in E. lia.
  - simpl. destruct (in_range cm cy em ey) eqn:E; [|eauto].
    unfold St.bind, St.sleep.
    destruct (month_fetch cm cy w) as [events w1].
    destruct (next_month cm cy) as [cm' cy'] eqn:N.
    apply IH.
    destruct (in_range cm' cy' em ey) eqn:E'; [|lia].
    apply in_range_years in E, E'. unfold next_month in N.
    destruct (cm + 1 >? 12)%Z eqn:G; injection N as <- <-; lia.
Qed.

Lemma fetch_events_for_date_range_total sm sy em ey w :
  exists events w', range_fetch sm sy em ey w = (Some events, w').
Proof.
  unfold fetch_events_for_date_range. apply range_loop_total.
  unfold range_fuel. destruct (in_range sm sy em ey) eqn:E; [|lia].
  apply in_range_years in E. lia.
Qed.

Lemma month_fetch_trace month year w :
  exists k, (1 <= k <= 3)%nat
            /\ trace (snd (month_fetch month year w))
               = trace w ++ attempts_trace (get_month_url month year) k 0.
Proof.
  rewrite AbuDhabiExtract.fetch_events_for_month_eq. simpl.
  unfold fetch_page.
  destruct (Backoff.fetch_page_loop_spec (get_month_url month year) 3
              (Z.to_nat 3) 0 w) as (k & Hk & Ht & _ & _ & _ & _ & _ & Hr);
    [right; reflexivity|].
  exists k. split; [|exact Ht].
  destruct (fst _); change (Z.to_nat 3) with 3%nat in *; [lia | destruct Hr; lia].
Qed.

Lemma visit_trace months : forall w,
  exists attempts : list nat,
    length attempts = length months
    /\ Forall (fun k => 1 <= k <= 3)%nat attempts
    /\ trace (snd (visit month_fetch months w))
       = trace w ++ concat (map cycle_trace (combine months attempts)).
Proof.
  induction months as [|[month year] rest IH]; intros w.
  - exists []. simpl. rewrite app_nil_r. auto.
  - simpl. destruct (month_fetch_trace month year w) as (k & Hk & Ht).
    destruct (month_fetch month year w) as [events w1]. simpl in Ht.
    destruct (IH (emit (Sleep 1) w1)) as (ks & Hlen & Hall & Hrest).
    destruct (visit month_fetch rest (emit (Sleep 1) w1)) as [others w2].
    simpl in *. exists (k :: ks). simpl. repeat split.
    + now rewrite Hlen.
    + constructor; assumption.
    + rewrite Hrest, Ht. unfold cycle_trace at 2. simpl.
      now rewrite <- !app_assoc.
Qed.

(** C4.  In period mode, for months 1..12 as start and end, the
    aggregator runs the fetch/extract cycle exactly once for every month
    of the inclusive range, in calendar order (none when the start is
    after the end), appends the months' results in that order, and
    waits one time unit after each cycle, hence between any two. *)
Theorem range_visits_each_month_once sm sy em ey w :
  (1 <= sm <= 12)%Z -> (1 <= em <= 12)%Z ->
  visits_each_month_once month_fetch sm sy em ey w (range_fetch sm sy em ey w).
Proof.
  intros Hs He. unfold visits_each_month_once. cbv zeta.
  split; [|split; [|split; [|split]]].
  - unfold months_between. rewrite months_from_length.
    unfold month_index. f_equal. lia.
  - intros month year. unfold months_between. rewrite months_from_In.
    unfold month_index. lia.
  - unfold months_between. rewrite months_from_length. intros i j H.
    rewrite !months_from_nth by lia.
    pose proof (month_of_index_valid (month_index sm sy + Z.of_nat i)).
    pose proof (month_of_index_valid (month_index sm sy + Z.of_nat j)).
    lia.
  - now apply range_fetch_visit.
  - rewrite range_fetch_visit by assumption. simpl. apply visit_trace.
Qed.

(** C10.  The range result is exactly the outputs of the months'
    [fetch_events_for_month], in order, end to end; nothing is removed
    across months, so a URL that two months both yield is in the result
    twice. *)
Theorem range_concatenates_months sm sy em ey w :
  (1 <= sm <= 12)%Z -> (1 <= em <= 12)%Z ->
  concatenates_months
    (fst (visit month_fetch (months_between sm sy em ey) w))
    (fst (range_fetch sm sy em ey w)).
Proof.
  intros Hs He. unfold concatenates_months.
  rewrite range_fetch_visit by assumption. simpl.
  set (per_month := fst (visit month_fetch (months_between sm sy em ey) w)).
  split; [reflexivity|]. split; [intros u; apply count_url_concat|].
  intros u i j Hij Hi Hj. rewrite count_url_concat.
  apply count_url_pos in Hi, Hj.
  pose proof (list_sum_two (map (count_url u) per_month) i j) as H.
  rewrite length_map in H. specialize (H Hij).
  change 0%nat with (count_url u []) in H at 1 2.
  rewrite !map_nth in H. lia.
Qed.

End Range.

End Aggregate.

(* ===================================================================== *)
(** ** abu_dhabi_events_fetcher on the sample page *)
(* ===================================================================== *)

Module AbuDhabiRuns.
Import Io AbuDhabi Spec Samples.

Lemma append_nonempty (s t : string) : t <> EmptyString -> s +:+ t <> EmptyString.
Proof. destruct s; simpl; [tauto | discriminate]. Qed.

Lemma urljoin_keeps_event_paths href :
  event_path href = true -> UrlModel.urljoin january href <> EmptyString.
Proof.
  intros H.
  assert (Hne : href <> EmptyString).
  { unfold event_path in H. now apply PyStrFacts.contains_nonempty in H. }
  unfold UrlModel.urljoin.
  change (negb (PyStr.truthy january)) with false. cbv iota.
  destruct (PyStr.truthy href) eqn:T; [|apply PyStrFacts.truthy_true in Hne; congruence].
  cbn [negb]. destruct (PyStr.contains "://" href); [assumption|].
  destruct (String.prefix "/" href); now apply append_nonempty.
Qed.

Example sample_views :
  map title calendar_records = ["ADIPEC"; "ADIPEC"]
  /\ map title list_records = ["ADIPEC"; arabic_label]
  /\ deduplicate (calendar_records ++ list_records)
     = [adipec;
        new_event arabic_label "https://www.mediaoffice.abudhabi/ar/abu-dhabi-events/"
                  EmptyString EmptyString
                  "https://www.mediaoffice.abudhabi/ar/abu-dhabi-events/"]
  /\ repeats (calendar_records ++ list_records) = 2.
Proof. vm_compute. repeat split; reflexivity. Qed.

(** C2 on the sample page: [urljoin] keeps the targets it resolves
    against the January page non-empty, and the records of both views
    have a title and a URL. *)
Lemma extracted_records_have_title_and_url_witness :
  (forall href, event_path href = true
                -> UrlModel.urljoin january href <> EmptyString)
  /\ (In adipec calendar_records \/ In adipec list_records)
  /\ title adipec <> EmptyString /\ url adipec <> EmptyString.
Proof.
  assert (Hin : In adipec calendar_records \/ In adipec list_records)
    by (left; vm_compute; left; reflexivity).
  split; [exact urljoin_keeps_event_paths|]. split; [exact Hin|].
  exact (AbuDhabiExtract.extracted_records_have_title_and_url
           UrlModel.urljoin no_match no_match no_match month_page january
           urljoin_keeps_event_paths adipec Hin).
Defined.

(** C7 as stated fails: the language switch sits in an entry of the
    list view, which does not refuse its label, so the label is the
    title of a record of the combined, de-duplicated output. *)
Lemma arabic_label_becomes_a_title :
  exists e, In e (deduplicate (calendar_records ++ list_records))
            /\ In (PyStr.lower (title e)) ["view event"; "export"; arabic_label].
Proof.
  exists (new_event arabic_label "https://www.mediaoffice.abudhabi/ar/abu-dhabi-events/"
                    EmptyString EmptyString
                    "https://www.mediaoffice.abudhabi/ar/abu-dhabi-events/").
  split.
  - destruct sample_views as (_ & _ & -> & _). right. left. reflexivity.
  - right. right. left. reflexivity.
Qed.

(** C4 on January to March 2025 with the network down: three cycles,
    for January, February and March in that order, three attempts each
    with their backoff, and a wait of one time unit after each cycle. *)
Lemma range_visits_each_month_once_witness :
  (1 <= 1 <= 12)%Z /\ (1 <= 3 <= 12)%Z
  /\ months_between 1 2025 3 2025 = [(1, 2025); (2, 2025); (3, 2025)]%Z
  /\ visits_each_month_once month_cycle 1 2025 3 2025 offline
       (range_run 1 2025 3 2025 offline).
Proof.
  split; [lia|]. split; [lia|]. split; [reflexivity|].
  apply (Aggregate.range_visits_each_month_once
           UrlModel.urljoin (fun _ => month_page) no_match no_match no_match
           1 2025 3 2025 offline); lia.
Defined.

Example range_run_offline :
  range_run 1 2025 3 2025 offline
  = (Some [],
     {| http := http offline; chrome_starts := true; browser := browser offline;
        sent := 9;
        trace := concat (map cycle_trace
                           [((1, 2025), 3%nat); ((2, 2025), 3%nat); ((3, 2025), 3%nat)]%Z) |}).
Proof. reflexivity. Qed.

(** C10 on January and February 2025 when both pages list the same
    events: the range result holds the January records and then the
    February records, the ADIPEC URL twice. *)
Lemma range_concatenates_months_witness :
  (1 <= 1 <= 12)%Z /\ (1 <= 2 <= 12)%Z
  /\ concatenates_months
       (fst (visit month_cycle (months_between 1 2025 2 2025) (online "page")))
       (fst (range_run 1 2025 2 2025 (online "page")))
  /\ option_map (count_url (url adipec)) (fst (range_run 1 2025 2 2025 (online "page")))
     = Some 2%nat.
Proof.
  split; [lia|]. split; [lia|]. split.
  - apply (Aggregate.range_concatenates_months
             UrlModel.urljoin (fun _ => month_page) no_match no_match no_match
             1 2025 2 2025 (online "page")); lia.
  - vm_compute. reflexivity.
Defined.

End AbuDhabiRuns.

(* ===================================================================== *)
(** ** adnec_events_fetcher: the location of a record *)
(* ===================================================================== *)

Module AdnecLocation.
Import Io Json Adnec Spec.

(** *** Stripping *)

Lemma rstrip_idem s : PyStr.rstrip (PyStr.rstrip s) = PyStr.rstrip s.
Proof. apply StripFacts.rstrip_rstrip. Qed.

Lemma strip_idem s : PyStr.strip (PyStr.strip s) = PyStr.strip s.
Proof. apply StripFacts.strip_strip. Qed.

Lemma rstrip_closing s : PyStr.rstrip (s +:+ ")") = s +:+ ")".
Proof.
  apply StripFacts.rstrip_fixed.
  rewrite StripFacts.list_of_append, rev_app_distr. reflexivity.
Qed.

Lemma lstrip_wrap t : PyStr.lstrip (wrap t) = wrap t.
Proof. apply StripFacts.lstrip_fixed. reflexivity. Qed.

Lemma stripped_lines_fixed text line :
  In line (stripped_lines text) -> PyStr.strip line = line.
Proof.
  unfold stripped_lines. rewrite filter_In, in_map_iff.
  intros [(x & <- & _) _]. apply strip_idem.
Qed.

(** *** The hall-number pattern *)

Lemma dead_not_nullable r : Re.dead r = true -> Re.nullable r = false.
Proof.
  induction r; simpl; try discriminate; intros H; [reflexivity|].
  now rewrite IHr1.
Qed.

Lemma dead_deriv c r : Re.dead r = true -> Re.dead (Re.deriv c r) = true.
Proof.
  induction r; simpl; try discriminate; intros H; [reflexivity|].
  rewrite (dead_not_nullable r1 H). simpl. auto.
Qed.

Lemma dead_fullmatch s : forall r, Re.dead r = true -> Re.fullmatch r s = false.
Proof.
  induction s as [|c s IH]; simpl; intros r H.
  - now apply dead_not_nullable.
  - now apply IH, dead_deriv.
Qed.

Example hall_number_examples :
  Re.match_anchored hall_number_re "Hall 3" = true
  /\ Re.match_anchored hall_number_re "Halls 1-2" = true
  /\ Re.match_anchored hall_number_re "HALLS 4, 5" = true
  /\ Re.match_anchored hall_number_re "Hall A" = false
  /\ Re.match_anchored hall_number_re "Hall3" = false
  /\ Re.match_anchored hall_number_re "Conference Hall 3" = false.
Proof. vm_compute. repeat split; reflexivity. Qed.

(** *** [format_location] *)

Lemma format_location_stripped raw :
  PyStr.strip raw = raw ->
  format_location raw = if hall_rule raw then "ADNEC (" +:+ raw +:+ ")" else raw.
Proof.
  intros H. unfold format_location, hall_rule, wrap. rewrite H.
  destruct (Re.match_anchored hall_number_re raw); [reflexivity|].
  simpl orb.
  destruct (PyStr.contains "hall" (PyStr.lower raw)
            && negb (PyStr.contains "ADNEC" raw)); reflexivity.
Qed.

Lemma format_location_wrapped t : format_location (wrap t) = wrap t.
Proof.
  assert (Hstrip : PyStr.strip (wrap t) = wrap t).
  { assert (Hl : PyStr.lstrip (wrap t) = wrap t) by apply lstrip_wrap.
    assert (Hshape : wrap t = ("ADNEC (" +:+ t) +:+ ")") by reflexivity.
    unfold PyStr.strip. rewrite Hl, Hshape. apply rstrip_closing. }
  unfold format_location. rewrite Hstrip.
  assert (Hre : Re.match_anchored hall_number_re (wrap t) = false).
  { unfold Re.match_anchored.
    change (Re.fullmatch
              (Re.deriv "A"%char
                 (Re.Cat hall_number_re (Re.Opt (Re.Chr (Ascii.eqb "010"%char)))))
              ("DNEC (" +:+ t +:+ ")") = false).
    apply dead_fullmatch. reflexivity. }
  rewrite Hre.
  assert (Hvenue : PyStr.contains "ADNEC" (wrap t) = true) by reflexivity.
  rewrite Hvenue, andb_false_r. reflexivity.
Qed.

(** C9.  The formatter leaves "ADNEC (Hall 3)" unchanged, as it does
    every string it has itself wrapped. *)
Theorem format_location_keeps_formatted :
  format_location "ADNEC (Hall 3)" = "ADNEC (Hall 3)"
  /\ forall raw, format_location (wrap raw) = wrap raw.
Proof. split; [reflexivity | exact format_location_wrapped]. Qed.

(** *** From the page to the location *)

Lemma scan_location_raw lines :
  (forall line, In line lines -> PyStr.strip line = line) ->
  scan_location lines
  = option_map (fun raw => if hall_rule raw then "ADNEC (" +:+ raw +:+ ")" else raw)
               (raw_location lines).
Proof.
  induction lines as [|line rest IH]; intros Hfixed; [reflexivity|].
  assert (IH' := IH (fun l Hl => Hfixed l (or_intror Hl))).
  simpl. unfold is_label_line.
  destruct (PyStr.contains "Location:" line || PyStr.contains arabic_location line);
    [|exact IH'].
  destruct rest as [|next rest']; [reflexivity|].
  destruct (PyStr.contains ":" next); [exact IH'|].
  simpl. f_equal. apply format_location_stripped.
  apply Hfixed. right. now left.
Qed.

Lemma hall_location_rule soup : hall_location soup = location_rule soup.
Proof.
  unfold hall_location, location_rule.
  destruct (location_container soup) as [container|]; [|reflexivity].
  rewrite scan_location_raw by (intros line; apply stripped_lines_fixed).
  destruct (raw_location _); reflexivity.
Qed.

Lemma details_location json_loads iso_to_readable soup page_url details :
  details_of_page json_loads iso_to_readable soup page_url = Ok (Some details) ->
  d_location details = hall_location soup.
Proof.
  unfold details_of_page.
  destruct (find_event_data json_loads _) as [[data|]|]; try discriminate.
  destruct (organizer_of data) as [[organizer organizer_link]|]; [|discriminate].
  intros H. injection H as <-. reflexivity.
Qed.

Lemma stripped_lines_of text : lines_of text (stripped_lines text).
Proof.
  unfold lines_of, stripped_lines.
  exists (map PyStr.strip (PyStr.split_char "010"%char text)). split; [|reflexivity].
  induction (PyStr.split_char "010"%char text) as [|line rest IH]; constructor;
    [apply StripFacts.strip_trimmed|exact IH].
Qed.

Lemma lines_of_stripped text lines : lines_of text lines -> lines = stripped_lines text.
Proof.
  intros (trimmed & H & ->). unfold stripped_lines. f_equal.
  induction H as [|line t rest trimmed Ht _ IH]; [reflexivity|].
  cbn [map]. rewrite IH. f_equal. apply StripFacts.trimmed_unique, Ht.
Qed.

(** The container is a [div] or a [section], so its text is the
    ordinary strings below it. *)
Lemma container_is_ordinary soup container :
  location_container soup = Some container ->
  Soup.get_text container = plain_text container.
Proof.
  unfold location_container.
  destruct (List.find _ (Soup.walk [] soup)) as [[label ancestors]|]; [|discriminate].
  destruct ancestors as [|parent above]; [discriminate|].
  intros H. apply find_some in H as [_ H].
  unfold Soup.named in H. apply andb_prop in H as [Htag Hname].
  apply SoupFacts.get_text_plain; [exact Htag|].
  apply PyStrFacts.in_list_In in Hname.
  destruct Hname as [<-|[<-|[]]]; reflexivity.
Qed.

Lemma first_of_find {A : Type} (p : A -> bool) l found :
  first_of p l found <-> List.find p l = found.
Proof.
  split.
  - intros [l' H|before x rest H Hx].
    + induction H as [|y l' Hy _ IH]; [reflexivity|]. cbn [List.find]. now rewrite Hy.
    + induction H as [|y l' Hy _ IH]; cbn [List.find app].
      * now rewrite Hx.
      * now rewrite Hy.
  - intros <-. induction l as [|y l IH]; cbn [List.find].
    + constructor. constructor.
    + destruct (p y) eqn:Hy.
      * apply (first_found p [] y l); [constructor|exact Hy].
      * inversion IH as [l' H E1 E2|before x rest H Hx E1 E2].
        -- constructor. constructor; assumption.
        -- apply (first_found p (y :: before) x rest); [constructor; assumption|exact Hx].
Qed.

(** The search of the code finds the container, and nothing else is
    one. *)
Lemma container_of_location_container soup container :
  container_of soup container <-> location_container soup = container.
Proof.
  unfold container_of, location_container. split.
  - intros (label & Hl & H). apply first_of_find in Hl. rewrite Hl.
    destruct label as [[l [|parent above]]|]; [exact (eq_sym H)| |exact (eq_sym H)].
    now apply first_of_find.
  - intros <-.
    exists (List.find (fun hit => is_location_label (fst hit)) (Soup.walk [] soup)).
    split; [now apply first_of_find|].
    destruct (List.find _ (Soup.walk [] soup)) as [[l [|parent above]]|];
      [reflexivity| |reflexivity].
    now apply first_of_find.
Qed.

Lemma location_rule_contract soup : location_contract soup (location_rule soup).
Proof.
  unfold location_contract, location_rule.
  exists (location_container soup).
  split; [now apply container_of_location_container|].
  destruct (location_container soup) as [container|] eqn:Hc; [|reflexivity].
  exists (stripped_lines (Soup.get_text container)). split; [|reflexivity].
  rewrite <- (container_is_ordinary soup container Hc). apply stripped_lines_of.
Qed.

Lemma location_contract_rule soup location :
  location_contract soup location -> location = location_rule soup.
Proof.
  unfold location_contract, location_rule.
  intros (container & Hc & H). apply container_of_location_container in Hc.
  rewrite Hc. destruct container as [container|]; [|exact H].
  destruct H as (lines & Hlines & ->).
  apply lines_of_stripped in Hlines.
  now rewrite (container_is_ordinary soup container Hc), Hlines.
Qed.

(** C6, as the code has it.  The location of a record is read off the
    ordinary text of the label's container, the nearest [div] or
    [section] above the parent of the first string that holds the
    label: what stands in a script, a style sheet or a comment is no
    part of that text.  The text is cut at the line feeds, each piece
    is taken without the white space around it, no-break and other
    Unicode spaces included, and the empty pieces are left out.  When a
    label line is followed by a colon-free line, that line is the raw
    location; it is wrapped as "ADNEC (raw)" when it matches the
    hall-number pattern or mentions a hall without naming the venue,
    and otherwise it is itself the location of the record.  The venue's
    generic name is the location only when no such line is found.
    These words fix the location: no other string fits them. *)
Theorem location_of_details json_loads iso_to_readable soup page_url details :
  details_of_page json_loads iso_to_readable soup page_url = Ok (Some details) ->
  location_contract soup (d_location details)
  /\ forall location,
      location_contract soup location -> location = d_location details.
Proof.
  intros H. rewrite (details_location _ _ _ _ _ H), hall_location_rule.
  split; [apply location_rule_contract|apply location_contract_rule].
Qed.

End AdnecLocation.

(* ===================================================================== *)
(** ** adnec_events_fetcher: detail extraction and the aggregator *)
(* ===================================================================== *)

Module AdnecDetails.
Import Io Json Adnec Spec.


Section Fetcher.

Variable json_loads : string -> option json.
Variable iso_to_readable : string -> option string.
Variable urljoin : string -> string -> string.
Variable parse_html : string -> Soup.node.
Variable SELENIUM_AVAILABLE : bool.

Local Notation details_page := (details_of_page json_loads iso_to_readable).
Local Notation extract :=
  (extract_event_details json_loads iso_to_readable parse_html SELENIUM_AVAILABLE).
Local Notation loop :=
  (details_loop json_loads iso_to_readable parse_html SELENIUM_AVAILABLE).
Local Notation fetch_all :=
  (fetch_all_events json_loads iso_to_readable urljoin parse_html SELENIUM_AVAILABLE).
Local Notation listing_urls := (extract_event_urls_from_listing urljoin parse_html).




Lemma details_loop_skip self url_mapping page_url rest events w w1 :
  extract self page_url w = (Ok None, w1) ->
  loop self url_mapping (page_url :: rest) events w
  = loop self url_mapping rest events w1.
Proof. intros H. simpl. unfold Ex.bind. now rewrite H. Qed.


(** *** When the browser is not there *)

Lemma create_driver_without_selenium w :
  SELENIUM_AVAILABLE = false -> create_driver SELENIUM_AVAILABLE w = (Ok None, w).
Proof. intros ->. reflexivity. Qed.

Lemma fetch_all_events_listing_absent self include_arabic w w1 :
  fetch_page SELENIUM_AVAILABLE self (base_url_en self) 3 w = (Ok None, w1) ->
  fetch_all self include_arabic w = (Ok [], w1).
Proof.
  intros H. unfold fetch_all_events, Ex.bind. now rewrite H.
Qed.

Lemma fetch_all_events_arabic_absent self en_page w w1 w2 :
  fetch_page SELENIUM_AVAILABLE self (base_url_en self) 3 w = (Ok (Some en_page), w1) ->
  en_page <> EmptyString ->
  fetch_page SELENIUM_AVAILABLE self (base_url_ar self) 3 w1 = (Ok None, w2) ->
  fetch_all self true w
  = loop self ∅ (listing_urls en_page (base_url_en self)) [] w2.
Proof.
  intros Hen Hne Har. unfold fetch_all_events, Ex.bind. rewrite Hen.
  apply PyStrFacts.truthy_true in Hne. rewrite Hne. simpl.
  rewrite Har. reflexivity.
Qed.

(** C8, as the code has it.  Without Selenium no driver is made, the
    browser-rendered fetch returns absence and does nothing else, and a
    fetcher built by [__init__] hands no page to the browser: it
    fetches its listings with the plain, retrying fetch.  Whenever the
    English listing fetch returns absence, the aggregator returns no
    events; when only the Arabic listing fetch does, it carries on with
    the English items and no Arabic counterparts. *)
Theorem listing_absence self include_arabic page_url w :
  (SELENIUM_AVAILABLE = false ->
   create_driver SELENIUM_AVAILABLE w = (Ok None, w)
   /\ fetch_page_with_selenium SELENIUM_AVAILABLE page_url w = (Ok None, w)
   /\ forall use_selenium,
       browser_path (init SELENIUM_AVAILABLE use_selenium) page_url = false)
  /\ (forall w1,
        fetch_page SELENIUM_AVAILABLE self (base_url_en self) 3 w = (Ok None, w1) ->
        fetch_all self include_arabic w = (Ok [], w1))
  /\ (forall en_page w1 w2,
        fetch_page SELENIUM_AVAILABLE self (base_url_en self) 3 w
        = (Ok (Some en_page), w1) ->
        en_page <> EmptyString ->
        fetch_page SELENIUM_AVAILABLE self (base_url_ar self) 3 w1 = (Ok None, w2) ->
        fetch_all self true w
        = loop self ∅ (listing_urls en_page (base_url_en self)) [] w2).
Proof.
  split; [|split].
  - intros E. split; [now apply create_driver_without_selenium|]. split.
    + unfold fetch_page_with_selenium, Ex.bind.
      now rewrite create_driver_without_selenium.
    + intros use_selenium. unfold browser_path, init. simpl. rewrite E.
      now rewrite !andb_false_r.
  - intros w1. apply fetch_all_events_listing_absent.
  - intros en_page w1 w2. apply fetch_all_events_arabic_absent.
Qed.

End Fetcher.

End AdnecDetails.

(* ===================================================================== *)
(** ** adnec_events_fetcher on the sample site *)
(* ===================================================================== *)

Module AdnecRuns.
Import Io Json Adnec Spec AdnecSamples.

Example sample_details :
  details_of (detail_page "Hall 3") adipec_url
  = Ok (Some {| d_title := JStr "ADIPEC"; d_url := adipec_url;
                d_start_date := JStr "2025-11-03"; d_end_date := JStr EmptyString;
                d_location := "ADNEC (Hall 3)"; d_organizer := JStr "dmg events";
                d_organizer_url := JStr EmptyString;
                d_description := JStr EmptyString; d_image_url := JStr "a.jpg" |})
  /\ details_of bare_page adipec_url = Ok None.
Proof. split; reflexivity. Qed.



(** A block that parses to an array lets [AttributeError] out of the
    extractor, though a later block is an event. *)
Example array_block_escapes :
  fst (extract false plain_fetcher adipec_url (serving "array"))
  = Raise AttributeError.
Proof. reflexivity. Qed.

(** No-break spaces around a raw location go with the rest of the
    white space. *)
Example format_location_strips_no_break_space :
  format_location (nbsp +:+ "Hall 3" +:+ nbsp) = "ADNEC (Hall 3)"
  /\ PyStr.strip (nbsp +:+ " Hall 3" +:+ newline +:+ nbsp) = "Hall 3".
Proof. split; vm_compute; reflexivity. Qed.

(** The text of the section of [scripted_page] has neither the script
    nor the style sheet nor the comment, and its lines are the label
    and the place. *)
Example scripted_page_lines :
  option_map Soup.get_text (location_container scripted_page)
  = Some ("Location:" +:+ newline +:+ nbsp +:+ "Hall 3" +:+ nbsp)
  /\ option_map (fun container => stripped_lines (Soup.get_text container))
                (location_container scripted_page)
     = Some ["Location:"; "Hall 3"].
Proof. split; vm_compute; reflexivity. Qed.

(** A [class] value is cut at no-break spaces too. *)
Example class_words_unicode :
  PyStr.words ("event" +:+ nbsp +:+ "card  wide") = ["event"; "card"; "wide"].
Proof. vm_compute. reflexivity. Qed.

(** C6 on a page whose structured data lies inside the section of the
    location, with no-break spaces around the place: the script, the
    style sheet and the comment are no part of the text, and the
    location is the hall, wrapped. *)
Lemma location_of_details_witness :
  exists details,
    details_of scripted_page adipec_url = Ok (Some details)
    /\ d_location details = "ADNEC (Hall 3)"
    /\ location_contract scripted_page (d_location details)
    /\ forall location,
        location_contract scripted_page location -> location = d_location details.
Proof.
  assert (H : exists details,
             details_of scripted_page adipec_url = Ok (Some details)
             /\ d_location details = "ADNEC (Hall 3)").
  { eexists. split; vm_compute; reflexivity. }
  destruct H as (details & H & Hl).
  exists details. split; [exact H|]. split; [exact Hl|].
  exact (AdnecLocation.location_of_details
           MiniJson.loads no_date scripted_page adipec_url details H).
Defined.

(** C6 as stated fails: a raw location that neither matches the
    hall-number pattern nor mentions a hall is itself the location of
    the record, not the venue's generic name. *)
Lemma plain_location_is_kept :
  exists details,
    details_of (detail_page "Conference Centre A") adipec_url = Ok (Some details)
    /\ raw_location (stripped_lines
                       (Soup.get_text (location_block "Conference Centre A")))
       = Some "Conference Centre A"
    /\ hall_rule "Conference Centre A" = false
    /\ d_location details = "Conference Centre A"
    /\ d_location details <> venue_name.
Proof.
  eexists. split; [reflexivity|]. split; [reflexivity|]. split; [reflexivity|].
  split; [reflexivity|].
  intros H. vm_compute in H. discriminate H.
Qed.

(** C8 with the network down and no Selenium: the browser-rendered
    fetch returns absence, the English listing fetch returns absence
    after its three attempts, and the aggregator returns no events. *)
Lemma listing_absence_witness :
  let w1 := snd (fetch_page false plain_fetcher (base_url_en plain_fetcher) 3
                            Samples.offline) in
  fetch_page_with_selenium false (base_url_en plain_fetcher) Samples.offline
  = (Ok None, Samples.offline)
  /\ fetch_page false plain_fetcher (base_url_en plain_fetcher) 3 Samples.offline
     = (Ok None, w1)
  /\ fetch_all false plain_fetcher true Samples.offline = (Ok [], w1).
Proof.
  intros w1.
  destruct (AdnecDetails.listing_absence
              MiniJson.loads no_date UrlModel.urljoin parse false
              plain_fetcher true (base_url_en plain_fetcher) Samples.offline)
    as (Hbrowser & Hen & _).
  assert (H : fetch_page false plain_fetcher (base_url_en plain_fetcher) 3
                         Samples.offline = (Ok None, w1)) by reflexivity.
  split; [apply (Hbrowser eq_refl)|]. split; [exact H|].
  exact (Hen w1 H).
Defined.

(** C8 as stated fails: without Selenium no browser can be made, yet
    the aggregator fetches the listing over plain HTTP and returns the
    event it finds there. *)
Lemma selenium_missing_still_yields_events :
  create_driver false site = (Ok None, site)
  /\ exists event, fst (fetch_all false plain_fetcher false site) = Ok [event].
Proof. split; [reflexivity|]. eexists. reflexivity. Qed.

(** When Selenium is there but Chrome does not start, the exception of
    [create_driver] leaves [fetch_all_events]. *)
Example chrome_failure_escapes :
  fst (fetch_all true (init true true) false
                 {| http := http site; chrome_starts := false;
                    browser := browser site; sent := 0; trace := [] |})
  = Raise WebDriverException.
Proof. reflexivity. Qed.

End AdnecRuns.

(* ===================================================================== *)
(** ** More about the month page: order, provenance, failure, budget *)
(* ===================================================================== *)

Module Dedup.
Import Io AbuDhabi Spec Notions.

Lemma dedup_fold l : forall unique_events seen_urls,
  fst (fold_left dedup_step l (unique_events, seen_urls))
  = unique_events ++ keep_new seen_urls l.
Proof.
  induction l as [|c l IH]; intros unique_events seen_urls; simpl.
  - now rewrite app_nil_r.
  - destruct (bool_decide (url c ∉ seen_urls)); simpl.
    + rewrite IH, <- app_assoc. reflexivity.
    + apply IH.
Qed.

Lemma deduplicate_keep_new l : deduplicate l = keep_new ∅ l.
Proof. unfold deduplicate. now rewrite dedup_fold. Qed.

Lemma keep_new_sublist l : forall seen, sublist (keep_new seen l) l.
Proof.
  induction l as [|c l IH]; intros seen; simpl.
  - constructor.
  - destruct (bool_decide (url c ∉ seen)).
    + apply sublist_skip, IH.
    + apply sublist_cons, IH.
Qed.

Lemma keep_new_fixed l : forall seen,
  NoDup (map url l) ->
  (forall e, In e l -> url e ∉ seen) ->
  keep_new seen l = l.
Proof.
  induction l as [|c l IH]; intros seen Hnd Hseen; simpl; [reflexivity|].
  rewrite bool_decide_eq_true_2 by (apply Hseen; now left).
  f_equal. simpl in Hnd. apply NoDup_cons in Hnd as [Hc Hnd].
  apply IH; [exact Hnd|].
  intros e He Hin. apply elem_of_union in Hin as [Hin|Hin].
  - apply elem_of_singleton in Hin. apply Hc.
    rewrite <- Hin. apply list_elem_of_In, in_map, He.
  - apply (Hseen e); [now right|exact Hin].
Qed.

(** X1.  The de-duplication loop of [fetch_events_for_month] keeps the
    candidates it lets through in the order the strategies gave them
    (its result is a sublist of the candidates), leaves alone a list
    whose URLs are already distinct, and changes nothing when it is
    run again on its own result. *)
Theorem deduplicate_keeps_order l :
  sublist (deduplicate l) l
  /\ deduplicate (deduplicate l) = deduplicate l
  /\ (NoDup (map url l) -> deduplicate l = l).
Proof.
  split; [|split].
  - rewrite deduplicate_keep_new. apply keep_new_sublist.
  - rewrite (deduplicate_keep_new (deduplicate l)).
    apply keep_new_fixed.
    + apply (AbuDhabiExtract.deduplicate_spec l).
    + intros e _. apply not_elem_of_empty.
  - intros Hnd. rewrite deduplicate_keep_new.
    apply keep_new_fixed; [exact Hnd|].
    intros e _. apply not_elem_of_empty.
Qed.

End Dedup.

Module AbuDhabiShape.
Import Io AbuDhabi Spec Notions.

Section Strategies.

Variable urljoin : string -> string -> string.
Variables findall_date findall_venue_calendar findall_venue_list
  : string -> list string.

Local Notation calendar :=
  (extract_events_from_calendar urljoin findall_date findall_venue_calendar).
Local Notation listing :=
  (extract_events_from_list urljoin findall_date findall_venue_list).

Lemma event_link_path link :
  is_event_link link = true -> event_path (Soup.get "href" EmptyString link) = true.
Proof.
  unfold is_event_link. intros H. apply andb_prop in H as [_ H].
  now apply SoupFacts.attr_matches_get in H.
Qed.

Lemma event_link_title link :
  is_event_link link = true ->
  trimmed_of (plain_text link) (PyStr.strip (Soup.get_text link)).
Proof.
  unfold is_event_link, Soup.named. intros H.
  apply andb_prop in H as [H _]. apply andb_prop in H as [Htag Hname].
  rewrite (SoupFacts.get_text_plain link Htag).
  - apply StripFacts.strip_trimmed.
  - apply PyStrFacts.in_list_In in Hname. destruct Hname as [<-|[]]. reflexivity.
Qed.

Lemma calendar_link_shape soup base hit e :
  In (fst hit) (Soup.descendants soup) ->
  is_event_link (fst hit) = true ->
  In e (calendar_link urljoin findall_date findall_venue_calendar base hit) ->
  from_event_link urljoin soup base e /\ view_event_url e = url e.
Proof.
  unfold calendar_link. destruct hit as [link ancestors]. cbv zeta.
  cbn [fst]. intros Hin Hlink.
  destruct (PyStr.truthy (PyStr.strip (Soup.get_text link))
            && PyStr.truthy (urljoin base (Soup.get "href" EmptyString link))
            && negb (PyStr.in_list (PyStr.lower (PyStr.strip (Soup.get_text link)))
                                   calendar_boilerplate)); [|intros []].
  destruct (Soup.find_parent ancestors) as [parent|];
    intros [<-|[]]; cbn [title url new_event end_date organizer sector
                         description view_event_url];
    (split; [|reflexivity]); (split; [|split; [apply AdnecLocation.strip_idem|auto]]);
    exists link; (split; [exact Hin|]); (split; [exact Hlink|]);
    (split; [exact (event_link_path link Hlink)|]); (split; [reflexivity|]);
    (split; [exact (event_link_title link Hlink)|reflexivity]).
Qed.

Lemma list_item_shape soup base item e :
  In item (Soup.descendants soup) ->
  In e (list_item urljoin findall_date findall_venue_list base item) ->
  from_event_link urljoin soup base e
  /\ (view_event_url e = url e
      \/ exists view_link,
          Soup.find (fun n => Soup.named ["a"] n && view_event_text n) item
          = Some view_link
          /\ view_event_url e = urljoin base (Soup.get "href" EmptyString view_link)).
Proof.
  intros Hitem. unfold list_item.
  destruct (Soup.find is_event_link item) as [event_link|] eqn:Hfind; [|intros []].
  assert (Hin : In event_link (Soup.descendants soup)).
  { apply (SoupFacts.descendants_trans soup item event_link Hitem).
    apply (SoupFacts.find_descendant _ _ _ Hfind). }
  apply SoupFacts.find_sound in Hfind.
  cbv zeta.
  destruct (negb (PyStr.truthy (PyStr.strip (Soup.get_text event_link)))
            || PyStr.in_list (PyStr.lower (PyStr.strip (Soup.get_text event_link)))
                             list_boilerplate); [intros []|].
  intros [<-|[]]. cbn [title url new_event end_date organizer sector
                       description view_event_url].
  split.
  - split; [|split; [apply AdnecLocation.strip_idem|auto]].
    exists event_link. split; [exact Hin|]. split; [exact Hfind|].
    split; [exact (event_link_path event_link Hfind)|]. split; [reflexivity|].
    split; [exact (event_link_title event_link Hfind)|reflexivity].
  - destruct (Soup.find (fun n => Soup.named ["a"] n && view_event_text n) item)
      as [view_link|]; [|now left].
    right. exists view_link. auto.
Qed.

(** X2.  Every record of the calendar view and of the list view is
    built from one anchor of the page whose target holds
    "/abu-dhabi-events/": the anchor is a node below the root of the
    page, the title is the stripped text of that anchor, so it has no
    white space around it, and the URL is that target resolved against
    the base.
    The end date, organizer, sector and description are left empty,
    and in the calendar view the detail URL is the record's URL. *)
Theorem records_come_from_event_links soup base e :
  In e (calendar soup base) \/ In e (listing soup base) ->
  from_event_link urljoin soup base e
  /\ (In e (calendar soup base) -> view_event_url e = url e).
Proof.
  assert (Hcal : In e (calendar soup base) ->
                 from_event_link urljoin soup base e /\ view_event_url e = url e).
  { unfold extract_events_from_calendar. rewrite in_flat_map.
    intros (container & Hcontainer & H). rewrite in_flat_map in H.
    destruct H as (hit & Hhit & H).
    apply SoupFacts.find_all_descendant in Hcontainer.
    pose proof (SoupFacts.find_all_in_descendant _ _ _ Hhit) as Hbelow.
    apply SoupFacts.find_all_in_sound in Hhit.
    apply (calendar_link_shape soup base hit e); [|exact Hhit|exact H].
    apply (SoupFacts.descendants_trans soup container (fst hit) Hcontainer Hbelow). }
  intros [H|H].
  - split; [apply (Hcal H)|intros _; apply (Hcal H)].
  - split; [|intros H'; apply (Hcal H')].
    revert H. unfold extract_events_from_list.
    destruct (Soup.find _ soup) as [events_container|] eqn:Hfind; [|intros []].
    apply SoupFacts.find_descendant in Hfind.
    rewrite in_flat_map. intros (item & Hitem & H).
    apply (list_item_shape soup base item e); [|exact H].
    apply (SoupFacts.descendants_trans soup events_container item Hfind).
    destruct (Soup.find_all _ events_container) eqn:Hitems in Hitem.
    + apply (SoupFacts.find_all_descendant _ _ _ Hitem).
    + rewrite <- Hitems in Hitem. apply (SoupFacts.find_all_descendant _ _ _ Hitem).
Qed.

End Strategies.

End AbuDhabiShape.

Module RangeBudget.
Import Io AbuDhabi Spec Notions.

Lemma sleeps_app t1 t2 : sleeps (t1 ++ t2) = sleeps t1 ++ sleeps t2.
Proof.
  induction t1 as [|[] t1 IH]; simpl; try assumption; [reflexivity|].
  now rewrite IH.
Qed.

Lemma wait_time_app t1 t2 : wait_time (t1 ++ t2) = (wait_time t1 + wait_time t2)%Z.
Proof.
  unfold wait_time. rewrite sleeps_app.
  induction (sleeps t1) as [|d l IH]; simpl; [reflexivity|]. rewrite IH. lia.
Qed.

(** One cycle: as many requests as attempts, and a wait of 1, 2 or 4
    time units for 1, 2 or 3 attempts. *)
Lemma cycle_budget mk :
  (1 <= snd mk <= 3)%nat ->
  length (requests (cycle_trace mk)) = snd mk
  /\ (1 <= wait_time (cycle_trace mk) <= 4)%Z.
Proof.
  destruct mk as [[month year] k]. unfold cycle_trace. cbn [fst snd].
  intros Hk. split.
  - rewrite Backoff.requests_app, Backoff.requests_attempts, length_app, repeat_length.
    simpl. lia.
  - rewrite wait_time_app.
    destruct k as [|[|[|[|k]]]]; try lia; cbn; lia.
Qed.

Lemma cycles_budget (l : list ((Z * Z) * nat)) :
  Forall (fun mk => 1 <= snd mk <= 3)%nat l ->
  (length l <= length (requests (concat (map cycle_trace l))) <= 3 * length l)%nat
  /\ (Z.of_nat (length l) <= wait_time (concat (map cycle_trace l))
      <= 4 * Z.of_nat (length l))%Z.
Proof.
  induction 1 as [|mk l Hmk _ IH]; [cbn; lia|].
  cbn [map concat length].
  rewrite Backoff.requests_app, length_app, wait_time_app.
  destruct (cycle_budget mk Hmk) as [Hr Hw]. lia.
Qed.

Section Range.

Variable urljoin : string -> string -> string.
Variable parse_html : string -> Soup.node.
Variables findall_date findall_venue_calendar findall_venue_list
  : string -> list string.

Local Notation month_fetch :=
  (fetch_events_for_month urljoin parse_html findall_date
                          findall_venue_calendar findall_venue_list).
Local Notation range_fetch :=
  (fetch_events_for_date_range urljoin parse_html findall_date
                               findall_venue_calendar findall_venue_list).

(** X3.  When the three attempts at the page of a month all fail,
    [fetch_events_for_month] gives the empty list: three requests with
    waits of one and two time units between them, no wait after the
    last, and nothing raised. *)
Theorem month_fetch_unavailable month year w :
  (forall i, (i < 3)%nat -> http w (sent w + i)%nat (get_month_url month year) = None) ->
  fst (month_fetch month year w) = []
  /\ trace (snd (month_fetch month year w))
     = trace w ++ [HttpGet (get_month_url month year); Sleep 1;
                   HttpGet (get_month_url month year); Sleep 2;
                   HttpGet (get_month_url month year)]
  /\ sent (snd (month_fetch month year w)) = (sent w + 3)%nat.
Proof.
  intros Hdown.
  rewrite AbuDhabiExtract.fetch_events_for_month_eq. cbn [fst snd].
  unfold raw_candidates, fetch_page.
  destruct (Backoff.fetch_page_loop_spec (get_month_url month year) 3
              (Z.to_nat 3) 0 w) as (k & Hk & Ht & Hs & _ & _ & _ & _ & Hr);
    [right; reflexivity|].
  destruct (fst (fetch_page_loop (get_month_url month year) 3 (Z.to_nat 3) 0 w))
    as [text|].
  - destruct Hr as [Hpos Hsome]. rewrite Hdown in Hsome; [discriminate|].
    change (Z.to_nat 3) with 3%nat in Hk. lia.
  - destruct Hr as [-> _]. split; [reflexivity|]. split; [exact Ht|exact Hs].
Qed.

(** X4.  The [while] loop of [fetch_events_for_date_range] ends for
    every four integers, months outside 1..12 included: the model
    never runs out of fuel.  When the start is after the end the
    result is the empty list and nothing is requested or waited
    for. *)
Theorem range_always_ends sm sy em ey w :
  (exists events w', range_fetch sm sy em ey w = (Some events, w'))
  /\ (in_range sm sy em ey = false -> range_fetch sm sy em ey w = (Some [], w)).
Proof.
  split.
  - apply Aggregate.fetch_events_for_date_range_total.
  - intros Hout. unfold fetch_events_for_date_range.
    destruct (range_fuel sm sy ey); cbn [range_loop]; now rewrite Hout.
Qed.

(** X5.  A range of [n] months (start and end month in 1..12) costs
    between [n] and [3 * n] requests and between [n] and [4 * n] time
    units of waiting: each month takes one to three attempts, waits 1
    and 2 between them, and is followed by a wait of 1. *)
Theorem range_request_budget sm sy em ey w :
  (1 <= sm <= 12)%Z -> (1 <= em <= 12)%Z ->
  let n := length (months_between sm sy em ey) in
  exists t,
    trace (snd (range_fetch sm sy em ey w)) = trace w ++ t
    /\ (n <= length (requests t) <= 3 * n)%nat
    /\ (Z.of_nat n <= wait_time t <= 4 * Z.of_nat n)%Z.
Proof.
  intros Hsm Hem n.
  rewrite (Aggregate.range_fetch_visit urljoin parse_html findall_date
             findall_venue_calendar findall_venue_list sm sy em ey w Hsm Hem).
  cbn [snd].
  destruct (Aggregate.visit_trace urljoin parse_html findall_date
              findall_venue_calendar findall_venue_list
              (months_between sm sy em ey) w) as (attempts & Hlen & Hall & Ht).
  exists (concat (map cycle_trace (combine (months_between sm sy em ey) attempts))).
  split; [exact Ht|].
  assert (Hn : length (combine (months_between sm sy em ey) attempts) = n).
  { rewrite length_combine, Hlen. apply Nat.min_id. }
  rewrite <- Hn. apply cycles_budget.
  apply List.Forall_forall. intros [m k] Hin. cbn [snd].
  apply in_combine_r in Hin.
  rewrite List.Forall_forall in Hall. apply (Hall k Hin).
Qed.

Lemma next_month_leaves_range month year :
  in_range (fst (next_month month year)) (snd (next_month month year)) month year
  = false.
Proof.
  unfold next_month, in_range.
  destruct (month + 1 >? 12)%Z eqn:E; cbn [fst snd].
  - apply orb_false_intro; [lia|]. apply andb_false_intro1. lia.
  - apply orb_false_intro; [lia|]. apply andb_false_intro2. lia.
Qed.

(** X6.  A range whose end is its start is one cycle: for every
    month and year, [fetch_events_for_date_range] returns what
    [fetch_events_for_month] returns for that month, after the same
    effects followed by one wait of one time unit. *)
Theorem single_month_range month year w :
  range_fetch month year month year w
  = (Some (fst (month_fetch month year w)),
     emit (Sleep 1) (snd (month_fetch month year w))).
Proof.
  unfold fetch_events_for_date_range.
  assert (Hin : in_range month year month year = true).
  { unfold in_range. apply orb_true_intro. right.
    apply andb_true_intro. split; lia. }
  assert (Hfuel : exists fuel, range_fuel month year year = S fuel).
  { unfold range_fuel. exists (Z.to_nat (Z.max 1 (13 - month) + 12 * Z.max 0 (year - year)) - 1)%nat.
    lia. }
  destruct Hfuel as [fuel ->].
  cbn [range_loop]. rewrite Hin. unfold St.bind at 1.
  destruct (month_fetch month year w) as [month_events w1]. cbn [fst snd app].
  pose proof (next_month_leaves_range month year) as Hout.
  destruct (next_month month year) as [month' year']. cbn [fst snd] in Hout.
  unfold St.bind, St.sleep.
  destruct fuel; cbn [range_loop]; rewrite Hout; reflexivity.
Qed.

End Range.

End RangeBudget.

Module MonthUrl.
Import Io AbuDhabi Spec Notions.

Lemma pretty_N_char_numeral x : numeral_char (pretty_N_char x) = true.
Proof. unfold pretty_N_char. repeat case_match; reflexivity. Qed.

Lemma pretty_N_go_numeral x : forall s,
  numeral s = true -> numeral (pretty_N_go x s) = true.
Proof.
  induction (N.lt_wf_0 x) as [x _ IH]; intros s Hs.
  assert (x = 0 \/ 0 < x)%N as [->|Hpos] by lia.
  - now rewrite pretty_N_go_0.
  - rewrite pretty_N_go_step by exact Hpos. apply IH.
    + now apply N.div_lt.
    + cbn [numeral]. now rewrite pretty_N_char_numeral.
Qed.

Lemma pretty_N_numeral (x : N) : numeral (pretty x) = true.
Proof.
  unfold pretty, pretty_N. case_decide; [reflexivity|].
  now apply pretty_N_go_numeral.
Qed.

Lemma pretty_Z_numeral (z : Z) : numeral (pretty z) = true.
Proof.
  destruct z as [|p|p]; [reflexivity| |].
  - apply (pretty_N_numeral (Npos p)).
  - change (pretty (Z.neg p)) with (String "-"%char (pretty (Npos p))).
    cbn [numeral]. now rewrite (pretty_N_numeral (Npos p)).
Qed.

Lemma append_cancel_l (p s t : string) : p +:+ s = p +:+ t -> s = t.
Proof.
  induction p as [|c p IH]; cbn; [auto|]. intros [= H]. auto.
Qed.

(** Two numerals followed by text that starts with "&". *)
Lemma numeral_split a : forall a' r r',
  numeral a = true -> numeral a' = true ->
  a +:+ String "&"%char r = a' +:+ String "&"%char r' -> a = a' /\ r = r'.
Proof.
  induction a as [|c a IH]; intros [|c' a'] r r' Ha Ha'; cbn.
  - intros [= ->]. auto.
  - intros [= <- _]. cbn in Ha'. discriminate.
  - intros [= -> _]. cbn in Ha. discriminate.
  - intros [= <- H]. cbn [numeral] in Ha, Ha'.
    apply andb_prop in Ha as [_ Ha]. apply andb_prop in Ha' as [_ Ha'].
    destruct (IH a' r r' Ha Ha' H) as [-> ->]. auto.
Qed.

Lemma get_month_url_inj month year month' year' :
  get_month_url month year = get_month_url month' year' ->
  month = month' /\ year = year'.
Proof.
  unfold get_month_url. intros H.
  apply append_cancel_l, append_cancel_l in H.
  change ("&year=" +:+ pretty year) with (String "&"%char ("year=" +:+ pretty year)) in H.
  change ("&year=" +:+ pretty year') with (String "&"%char ("year=" +:+ pretty year')) in H.
  apply numeral_split in H as [Hm Hy]; try apply pretty_Z_numeral.
  apply append_cancel_l in Hy.
  split; [apply (inj pretty), Hm|apply (inj pretty), Hy].
Qed.

Lemma NoDup_map_seq {A} (f : nat -> A) n : forall i,
  (forall j k, f j = f k -> j = k) -> List.NoDup (map f (seq i n)).
Proof.
  induction n as [|n IH]; intros i Hinj; cbn [seq map]; constructor.
  - rewrite in_map_iff. intros (k & E & Hin). apply Hinj in E. subst k.
    apply in_seq in Hin. lia.
  - apply IH, Hinj.
Qed.

(** X7.  The page address of a month determines the month and the
    year: two different months never have the same address.  So the
    months of a range are asked for under pairwise different
    addresses. *)
Theorem month_urls_are_distinct sm sy em ey :
  (forall month year month' year',
      get_month_url month year = get_month_url month' year' ->
      month = month' /\ year = year')
  /\ List.NoDup (map (fun my => get_month_url (fst my) (snd my))
                     (months_between sm sy em ey)).
Proof.
  split; [apply get_month_url_inj|].
  unfold months_between, months_from. rewrite map_map.
  apply NoDup_map_seq. intros j k E.
  apply get_month_url_inj in E as [Em Ey].
  pose proof (Aggregate.month_of_index_valid
                (month_index sm sy + Z.of_nat j)) as [_ Hj].
  pose proof (Aggregate.month_of_index_valid
                (month_index sm sy + Z.of_nat k)) as [_ Hk].
  rewrite Em, Ey, Hk in Hj. lia.
Qed.

End MonthUrl.

(* ===================================================================== *)
(** ** More about the ADNEC fetcher: listing, browser, location, pairing *)
(* ===================================================================== *)

Module AdnecListing.
Import Io Adnec Spec Notions.

Section Listing.

Variable urljoin : string -> string -> string.
Variable parse_html : string -> Soup.node.

Local Notation listing_urls := (extract_event_urls_from_listing urljoin parse_html).

(** A target that holds "/eventlisting/" is neither empty nor one of the
    two listing paths, so the second test of the loop never refuses a
    link that [find_all] returned. *)
Lemma listing_link_accepted link :
  listing_link link = true ->
  PyStr.truthy (Soup.get "href" EmptyString link)
  && negb (PyStr.in_list (Soup.get "href" EmptyString link)
                         ["/en/eventlisting"; "/ar/eventlisting"]) = true.
Proof.
  unfold listing_link. intros H.
  apply andb_prop in H as [_ H].
  apply SoupFacts.attr_matches_get in H.
  apply andb_prop in H as [Ht Hc].
  rewrite Ht.
  destruct (PyStr.in_list (Soup.get "href" EmptyString link)
                          ["/en/eventlisting"; "/ar/eventlisting"]) eqn:Hin;
    [|reflexivity].
  apply PyStrFacts.in_list_In in Hin.
  destruct Hin as [E|[E|[]]]; rewrite <- E in Hc; vm_compute in Hc; discriminate.
Qed.

Lemma listing_fold base links : forall event_urls (seen_urls : gset string),
  (forall u, u ∈ seen_urls <-> In u event_urls) ->
  NoDup event_urls ->
  Forall (fun link => listing_link link = true) links ->
  let r := fst (fold_left (listing_step urljoin base) links (event_urls, seen_urls)) in
  NoDup r
  /\ (forall u, In u r <->
                In u event_urls
                \/ exists link, In link links
                                /\ u = urljoin base (Soup.get "href" EmptyString link)).
Proof.
  induction links as [|link links IH]; intros event_urls seen_urls Hseen Hnd Hall;
    cbv zeta; cbn [fold_left].
  - split; [exact Hnd|]. intros u. split; [now left|].
    intros [H|[link [[] _]]]. exact H.
  - apply Forall_cons in Hall as [Hlink Hall].
    set (full_url := urljoin base (Soup.get "href" EmptyString link)).
    assert (Hstep : listing_step urljoin base (event_urls, seen_urls) link
                    = if bool_decide (full_url ∉ seen_urls)
                      then (event_urls ++ [full_url], {[ full_url ]} ∪ seen_urls)
                      else (event_urls, seen_urls)).
    { unfold listing_step. now rewrite (listing_link_accepted link Hlink). }
    rewrite Hstep. clear Hstep.
    destruct (bool_decide (full_url ∉ seen_urls)) eqn:Hnew.
    + apply bool_decide_eq_true_1 in Hnew.
      assert (Hfresh : ~ In full_url event_urls).
      { intros Hin. apply Hnew, Hseen, Hin. }
      destruct (IH (event_urls ++ [full_url]) ({[ full_url ]} ∪ seen_urls)) as [N M].
      * intros u. rewrite elem_of_union, elem_of_singleton, in_app_iff, Hseen.
        simpl. intuition.
      * apply NoDup_ListNoDup, List.NoDup_app; [| |].
        -- apply NoDup_ListNoDup, Hnd.
        -- constructor; [intros []|constructor].
        -- intros u Hu [E|[]]. subst u. contradiction.
      * exact Hall.
      * split; [exact N|]. intros u. rewrite M, in_app_iff. simpl.
        split.
        -- intros [[H|[H|[]]]|[l [Hl E]]].
           ++ now left.
           ++ right. exists link. split; [now left|]. now rewrite <- H.
           ++ right. exists l. split; [now right|exact E].
        -- intros [H|[l [[Hl|Hl] E]]].
           ++ left. now left.
           ++ subst l. left. right. left. now rewrite E.
           ++ right. exists l. split; assumption.
    + apply bool_decide_eq_false_1 in Hnew.
      assert (Hold : In full_url event_urls).
      { apply Hseen. destruct (decide (full_url ∈ seen_urls)); [assumption|contradiction]. }
      destruct (IH event_urls seen_urls Hseen Hnd Hall) as [N M].
      split; [exact N|]. intros u. rewrite M.
      split.
      * intros [H|[l [Hl E]]]; [now left|].
        right. exists l. split; [now right|exact E].
      * intros [H|[l [[Hl|Hl] E]]]; [now left| |].
        -- subst l. left. now rewrite E.
        -- right. exists l. split; assumption.
Qed.

Lemma listing_urls_nodup html_content base : NoDup (listing_urls html_content base).
Proof.
  unfold extract_event_urls_from_listing.
  apply (listing_fold base
           (Soup.find_all listing_link (parse_html html_content)) [] ∅).
  - intros u. split; [intros H; now apply not_elem_of_empty in H|intros []].
  - constructor.
  - apply List.Forall_forall. intros link Hin.
    apply (SoupFacts.find_all_sound _ _ _ Hin).
Qed.

(** X8.  [extract_event_urls_from_listing] gives every URL once, and
    gives exactly the resolved targets of the anchors whose target
    holds "/eventlisting/".  The test against the two listing paths
    refuses none of them: a target that holds "/eventlisting/" is
    neither "/en/eventlisting" nor "/ar/eventlisting". *)
Theorem listing_urls_distinct_and_complete html_content base :
  NoDup (listing_urls html_content base)
  /\ forall u,
      In u (listing_urls html_content base)
      <-> exists link,
          In link (Soup.find_all listing_link (parse_html html_content))
          /\ PyStr.contains "/eventlisting/" (Soup.get "href" EmptyString link) = true
          /\ u = urljoin base (Soup.get "href" EmptyString link).
Proof.
  unfold extract_event_urls_from_listing.
  destruct (listing_fold base (Soup.find_all listing_link (parse_html html_content))
                         [] ∅) as [N M].
  - intros u. split; [intros H; now apply not_elem_of_empty in H|intros []].
  - constructor.
  - apply List.Forall_forall. intros link Hin.
    apply (SoupFacts.find_all_sound _ _ _ Hin).
  - split; [exact N|]. intros u.
    change (Soup.find_all _ (parse_html html_content))
      with (Soup.find_all listing_link (parse_html html_content)).
    rewrite M. split.
    + intros [[]|[link [Hin E]]]. exists link. split; [exact Hin|]. split; [|exact E].
      pose proof (SoupFacts.find_all_sound _ _ _ Hin) as Hl.
      unfold listing_link in Hl. apply andb_prop in Hl as [_ Hl].
      apply SoupFacts.attr_matches_get in Hl. now apply andb_prop in Hl as [_ Hl].
    + intros [link [Hin [_ E]]]. right. exists link. split; assumption.
Qed.

End Listing.

End AdnecListing.

Module Browser.
Import Io Adnec Spec Notions.

Lemma scroll_trace_S k : scroll_trace (S k) = [ChromeScroll; Sleep 2] ++ scroll_trace k.
Proof. reflexivity. Qed.

Lemma scroll_loop_spec page todo : forall scrolls w,
  (0 < todo)%nat ->
  exists k,
    (1 <= k <= todo)%nat
    /\ fst (scroll_loop page todo scrolls (count_before page scrolls)
                        (scroll_height page scrolls) w) = (scrolls + k)%nat
    /\ trace (snd (scroll_loop page todo scrolls (count_before page scrolls)
                               (scroll_height page scrolls) w))
       = trace w ++ scroll_trace k
    /\ sent (snd (scroll_loop page todo scrolls (count_before page scrolls)
                              (scroll_height page scrolls) w)) = sent w
    /\ (forall j, (S j < k)%nat -> stalls page (scrolls + j) = false)
    /\ ((k < todo)%nat -> stalls page (scrolls + (k - 1)) = true).
Proof.
  induction todo as [|todo IH]; intros scrolls w Htodo; [lia|].
  cbn [scroll_loop]. unfold St.bind, St.do, St.sleep.
  destruct (stalls page scrolls) eqn:Hstall.
  - exists 1%nat.
    assert (Hout : (if (link_count page (S scrolls) =? count_before page scrolls)%Z
                    then St.ret (S scrolls)
                    else if (scroll_height page (S scrolls) =? scroll_height page scrolls)%Z
                         then St.ret (S scrolls)
                         else scroll_loop page todo (S scrolls)
                                (link_count page (S scrolls))
                                (scroll_height page (S scrolls)))
                   = St.ret (S scrolls)).
    { unfold stalls in Hstall.
      destruct (link_count page (S scrolls) =? count_before page scrolls)%Z;
        [reflexivity|].
      cbn [orb] in Hstall. now rewrite Hstall. }
    rewrite Hout. unfold St.ret. cbn [fst snd emit trace sent].
    split; [lia|]. split; [lia|]. split.
    { rewrite <- app_assoc. reflexivity. }
    split; [reflexivity|]. split; [intros j Hj; lia|].
    intros _. now rewrite Nat.add_0_r.
  - unfold stalls in Hstall. apply orb_false_elim in Hstall as [Hc Hh].
    rewrite Hc, Hh.
    destruct todo as [|todo'].
    + exists 1%nat. cbn [scroll_loop]. unfold St.ret. cbn [fst snd emit trace sent].
      split; [lia|]. split; [lia|]. split.
      { rewrite <- app_assoc. reflexivity. }
      split; [reflexivity|]. split; intros; lia.
    + change (link_count page (S scrolls)) with (count_before page (S scrolls)).
      destruct (IH (S scrolls) (emit (Sleep 2) (emit ChromeScroll w)))
        as (k & Hk & Hr & Ht & Hs & Hbefore & Hlast); [lia|].
      exists (S k). split; [lia|]. split; [rewrite Hr; lia|]. split.
      { rewrite Ht. cbn [emit trace]. rewrite scroll_trace_S, <- !app_assoc.
        reflexivity. }
      split; [rewrite Hs; reflexivity|]. split.
      * intros j Hj. destruct j as [|j].
        -- rewrite Nat.add_0_r. unfold stalls. now rewrite Hc, Hh.
        -- replace (scrolls + S j)%nat with (S scrolls + j)%nat by lia.
           apply Hbefore. lia.
      * intros Hlt.
        replace (scrolls + (S k - 1))%nat with (S scrolls + (k - 1))%nat by lia.
        apply Hlast. lia.
Qed.

(** X9.  Once Chrome has started, [fetch_page_with_selenium] raises
    nothing and always quits the driver, as the last thing it does:
    the effects are the start, the load, at most ten scrolls each
    followed by a pause of two time units, and the quit, with no HTTP
    request.  The result is absence exactly when the load raises or
    the grid does not appear, and then nothing was scrolled.  (The
    scripts run while scrolling are total in the world of this file;
    were one to raise, the [except] clause would give absence and the
    [finally] clause would still quit the driver.) *)
Theorem browser_always_released url w :
  chrome_starts w = true ->
  exists r k w',
    fetch_page_with_selenium true url w = (Ok r, w')
    /\ session url k w w'
    /\ (k <= 10)%nat
    /\ (r = None
        <-> browser w url = None
            \/ exists page, browser w url = Some page /\ grid_present page = false)
    /\ (r = None -> k = 0%nat).
Proof.
  intros Hstart.
  unfold fetch_page_with_selenium, create_driver, Ex.bind. cbn [negb].
  rewrite Hstart.
  unfold Ex.finally, Ex.lift, selenium_session, St.bind, St.do.
  cbn [browser emit].
  destruct (browser w url) as [page|] eqn:Hpage.
  - destruct (grid_present page) eqn:Hgrid; cbn [negb].
    + destruct (scroll_loop_spec page 10 0 (emit (ChromeGet url) (emit ChromeStart w)))
        as (k & Hk & Hr & Ht & Hs & _); [lia|].
      change (count_before page 0) with 0%Z in *.
      destruct (scroll_loop page 10 0 0 (scroll_height page 0)
                            (emit (ChromeGet url) (emit ChromeStart w)))
        as [scrolls w1].
      cbn [fst snd] in *. eexists _, k, _. split; [reflexivity|].
      split; [|split; [lia|split]].
      * split; cbn [emit trace sent snd]; [|exact Hs].
        rewrite Ht. cbn [emit trace]. rewrite <- !app_assoc. reflexivity.
      * split; [discriminate|].
        intros [H|(page' & H & Hg)]; [discriminate|].
        injection H as <-. rewrite Hgrid in Hg. discriminate.
      * discriminate.
    + eexists _, 0%nat, _. split; [reflexivity|].
      split; [|split; [lia|split]].
      * split; cbn [emit trace sent snd]; [|reflexivity].
        rewrite <- !app_assoc. reflexivity.
      * split; [|reflexivity]. intros _. right. exists page. auto.
      * reflexivity.
  - eexists _, 0%nat, _. split; [reflexivity|].
    split; [|split; [lia|split]].
    + split; cbn [emit trace sent snd]; [|reflexivity].
      rewrite <- !app_assoc. reflexivity.
    + split; [|reflexivity]. intros _. now left.
    + reflexivity.
Qed.

(** X10.  When the page loads and the grid appears, the browser fetch
    returns the page source as it is after [k] scrolls, where [k] is
    the first scroll that finds as many event links as were recorded
    before it (none before the first scroll) or leaves the height of
    the document unchanged, and [k] is ten when no earlier scroll
    does. *)
Theorem scrolling_stops_at_first_stall url page w :
  chrome_starts w = true ->
  browser w url = Some page ->
  grid_present page = true ->
  exists k w',
    fetch_page_with_selenium true url w = (Ok (Some (page_source page k)), w')
    /\ session url k w w'
    /\ scrolls_until_stall page k.
Proof.
  intros Hstart Hpage Hgrid.
  unfold fetch_page_with_selenium, create_driver, Ex.bind. cbn [negb].
  rewrite Hstart.
  unfold Ex.finally, Ex.lift, selenium_session, St.bind, St.do.
  cbn [browser emit]. rewrite Hpage, Hgrid. cbn [negb].
  destruct (scroll_loop_spec page 10 0 (emit (ChromeGet url) (emit ChromeStart w)))
    as (k & Hk & Hr & Ht & Hs & Hbefore & Hlast); [lia|].
  change (count_before page 0) with 0%Z in *.
  destruct (scroll_loop page 10 0 0 (scroll_height page 0)
                        (emit (ChromeGet url) (emit ChromeStart w)))
    as [scrolls w1].
  cbn [fst snd] in *. subst scrolls.
  eexists k, _. split; [reflexivity|]. split.
  - split; cbn [emit trace sent snd]; [|exact Hs].
    rewrite Ht. cbn [emit trace]. rewrite <- !app_assoc. reflexivity.
  - split; [exact Hk|]. split; [exact Hbefore|exact Hlast].
Qed.

Section Aggregator.

Variable json_loads : string -> option Json.json.
Variable iso_to_readable : string -> option string.
Variable urljoin : string -> string -> string.
Variable parse_html : string -> Soup.node.

(** X11.  When Chrome or its driver does not start, the exception
    is not turned into absence: it escapes [fetch_page_with_selenium],
    which creates the driver outside its [try], and with it
    [fetch_all_events] of a fetcher that uses Selenium.  No driver
    exists then, and none is quit. *)
Theorem driver_failure_escapes include_arabic url w :
  chrome_starts w = false ->
  fetch_page_with_selenium true url w = (Raise WebDriverException, emit ChromeStart w)
  /\ fetch_all_events json_loads iso_to_readable urljoin parse_html true
                      (init true true) include_arabic w
     = (Raise WebDriverException, emit ChromeStart w).
Proof.
  intros Hstart.
  assert (H : forall u, fetch_page_with_selenium true u w
                        = (Raise WebDriverException, emit ChromeStart w)).
  { intros u. unfold fetch_page_with_selenium, create_driver, Ex.bind. cbn [negb].
    now rewrite Hstart. }
  split; [apply H|].
  unfold fetch_all_events, Ex.bind.
  change (fetch_page true (init true true) (base_url_en (init true true)) 3 w)
    with (fetch_page_with_selenium true "https://www.adnec.ae/en/eventlisting" w).
  now rewrite H.
Qed.

End Aggregator.

End Browser.

Module LocationShape.
Import Io Json Adnec Spec.

Lemma strip_wrap t : PyStr.strip (wrap t) = wrap t.
Proof.
  assert (Hl : PyStr.lstrip (wrap t) = wrap t) by apply AdnecLocation.lstrip_wrap.
  assert (Hshape : wrap t = ("ADNEC (" +:+ t) +:+ ")") by reflexivity.
  unfold PyStr.strip. rewrite Hl, Hshape. apply AdnecLocation.rstrip_closing.
Qed.

(** The two outcomes of [format_location]. *)
Lemma format_location_cases location :
  (format_location location = wrap (PyStr.strip location))
  \/ (format_location location = PyStr.strip location
      /\ hall_rule (PyStr.strip location) = false).
Proof.
  unfold format_location, hall_rule.
  destruct (Re.match_anchored hall_number_re (PyStr.strip location)); [now left|].
  cbn [orb].
  destruct (PyStr.contains "hall" (PyStr.lower (PyStr.strip location))
            && negb (PyStr.contains "ADNEC" (PyStr.strip location)));
    [now left|now right].
Qed.

Lemma format_location_is_stripped location :
  PyStr.strip (format_location location) = format_location location.
Proof.
  destruct (format_location_cases location) as [E|[E _]]; rewrite E.
  - apply strip_wrap.
  - apply AdnecLocation.strip_idem.
Qed.

(** X12.  [format_location] is idempotent on every string, not only
    on those it wrapped.  Its result has no white space around it, and
    a result that mentions a hall, in any case, names "ADNEC". *)
Theorem format_location_idempotent location :
  format_location (format_location location) = format_location location
  /\ PyStr.strip (format_location location) = format_location location
  /\ (PyStr.contains "hall" (PyStr.lower (format_location location)) = true ->
      PyStr.contains "ADNEC" (format_location location) = true).
Proof.
  destruct (format_location_cases location) as [E|[E Hrule]]; rewrite E.
  - split; [apply AdnecLocation.format_location_wrapped|].
    split; [rewrite <- E; apply format_location_is_stripped|]. intros _. reflexivity.
  - split; [|split; [rewrite <- E; apply format_location_is_stripped|]].
    + rewrite AdnecLocation.format_location_stripped
        by apply AdnecLocation.strip_idem.
      now rewrite Hrule.
    + intros Hhall. unfold hall_rule in Hrule.
      apply orb_false_elim in Hrule as [_ Hrule]. rewrite Hhall in Hrule.
      cbn [andb] in Hrule. now apply negb_false_iff in Hrule.
Qed.

Lemma format_location_nonempty next :
  PyStr.strip next = next -> next <> EmptyString ->
  format_location next <> EmptyString.
Proof.
  intros Hstrip Hne.
  destruct (format_location_cases next) as [E|[E _]]; rewrite E.
  - discriminate.
  - now rewrite Hstrip.
Qed.

Lemma scan_location_nonempty lines : forall formatted,
  (forall line, In line lines -> PyStr.strip line = line /\ line <> EmptyString) ->
  scan_location lines = Some formatted ->
  formatted <> EmptyString /\ PyStr.strip formatted = formatted.
Proof.
  induction lines as [|line rest IH]; intros formatted Hlines; [discriminate|].
  assert (Hrest : forall l, In l rest -> PyStr.strip l = l /\ l <> EmptyString).
  { intros l Hl. apply Hlines. now right. }
  cbn [scan_location].
  destruct (PyStr.contains "Location:" line || PyStr.contains arabic_location line);
    [|apply (IH _ Hrest)].
  destruct rest as [|next rest']; [apply (IH _ Hrest)|].
  destruct (negb (PyStr.contains ":" next)); [|apply (IH _ Hrest)].
  intros [= <-]. destruct (Hrest next) as [Hs Hne]; [now left|].
  split; [now apply format_location_nonempty|].
  apply format_location_is_stripped.
Qed.

Lemma stripped_lines_nonempty text line :
  In line (stripped_lines text) -> PyStr.strip line = line /\ line <> EmptyString.
Proof.
  intros Hin. split; [apply (AdnecLocation.stripped_lines_fixed text line Hin)|].
  unfold stripped_lines in Hin. apply filter_In in Hin as [_ Ht].
  now apply PyStrFacts.truthy_true.
Qed.

(** X13.  The location of a detail page is never empty and has no
    white space around it: it is the venue's generic name, or the
    formatted form of a non-empty stripped line.  So every record
    [extract_event_details] builds has a non-empty location. *)
Theorem location_is_never_empty soup :
  hall_location soup <> EmptyString
  /\ PyStr.strip (hall_location soup) = hall_location soup
  /\ forall json_loads iso_to_readable page_url details,
      details_of_page json_loads iso_to_readable soup page_url = Ok (Some details) ->
      d_location details <> EmptyString.
Proof.
  assert (H : hall_location soup <> EmptyString
              /\ PyStr.strip (hall_location soup) = hall_location soup).
  { unfold hall_location.
    destruct (location_container soup) as [container|];
      [|split; [discriminate|reflexivity]].
    destruct (scan_location (stripped_lines (Soup.get_text container)))
      as [formatted|] eqn:Hscan; [|split; [discriminate|reflexivity]].
    apply (scan_location_nonempty _ _ (stripped_lines_nonempty _) Hscan). }
  split; [apply H|]. split; [apply H|].
  intros json_loads iso_to_readable page_url details Hd.
  rewrite (AdnecLocation.details_location _ _ _ _ _ Hd). apply H.
Qed.

End LocationShape.

Module HallPattern.
Import Re Adnec Spec RegexNotions.















End HallPattern.

Module DetailFetch.
Import Io Json Adnec Spec.

Section Fetcher.

Variable json_loads : string -> option json.
Variable iso_to_readable : string -> option string.
Variable parse_html : string -> Soup.node.
Variable SELENIUM_AVAILABLE : bool.

Local Notation extract :=
  (extract_event_details json_loads iso_to_readable parse_html SELENIUM_AVAILABLE).
Local Notation loop :=
  (details_loop json_loads iso_to_readable parse_html SELENIUM_AVAILABLE).

(** X15.  For a URL that does not go to the browser, when the three
    attempts at it all fail [extract_event_details] returns absence
    after three requests with waits of one and two time units, and the
    aggregator's loop goes on with the next URL, its list of events
    unchanged. *)
Theorem detail_fetch_failure_skips self page_url w :
  browser_path self page_url = false ->
  (forall i, (i < 3)%nat -> http w (sent w + i)%nat page_url = None) ->
  exists w1,
    extract self page_url w = (Ok None, w1)
    /\ trace w1 = trace w ++ [HttpGet page_url; Sleep 1; HttpGet page_url; Sleep 2;
                              HttpGet page_url]
    /\ forall url_mapping rest events,
        loop self url_mapping (page_url :: rest) events w
        = loop self url_mapping rest events w1.
Proof.
  intros Hpath Hdown.
  assert (Hrun : extract self page_url w
                 = (Ok None, snd (AbuDhabi.fetch_page_loop page_url 3 (Z.to_nat 3) 0 w))
                 /\ trace (snd (AbuDhabi.fetch_page_loop page_url 3 (Z.to_nat 3) 0 w))
                    = trace w ++ [HttpGet page_url; Sleep 1; HttpGet page_url; Sleep 2;
                                  HttpGet page_url]).
  { unfold extract_event_details, Ex.bind at 1, fetch_page.
    unfold browser_path in Hpath. rewrite Hpath.
    unfold Ex.lift. rewrite Backoff.loops_agree.
    destruct (Backoff.fetch_page_loop_spec page_url 3 (Z.to_nat 3) 0 w)
      as (k & Hk & Ht & _ & _ & _ & _ & _ & Hr); [right; reflexivity|].
    destruct (AbuDhabi.fetch_page_loop page_url 3 (Z.to_nat 3) 0 w) as [[text|] w1];
      cbn [fst snd] in *.
    - destruct Hr as [Hpos Hsome]. rewrite Hdown in Hsome; [discriminate|].
      change (Z.to_nat 3) with 3%nat in Hk. lia.
    - destruct Hr as [-> _]. split; [reflexivity|exact Ht]. }
  destruct Hrun as [Hrun Ht].
  eexists. split; [exact Hrun|]. split; [exact Ht|].
  intros url_mapping rest events.
  apply AdnecDetails.details_loop_skip, Hrun.
Qed.

End Fetcher.

End DetailFetch.

Module Escapes.
Import Io Json Adnec Spec Notions.

Section Fetcher.

Variable json_loads : string -> option json.
Variable iso_to_readable : string -> option string.
Variable parse_html : string -> Soup.node.
Variable SELENIUM_AVAILABLE : bool.

Local Notation details_page := (details_of_page json_loads iso_to_readable).
Local Notation extract :=
  (extract_event_details json_loads iso_to_readable parse_html SELENIUM_AVAILABLE).
Local Notation loop :=
  (details_loop json_loads iso_to_readable parse_html SELENIUM_AVAILABLE).




End Fetcher.

End Escapes.

Module Bilingual.
Import Io Json Adnec Spec Notions.

Lemma map_arabic_fold ar_urls : forall (m0 : gmap string string) k v,
  fold_left (fun (url_mapping : gmap string string) ar_url =>
               <[ english_equivalent ar_url := ar_url ]> url_mapping)
            ar_urls m0 !! k = Some v ->
  m0 !! k = Some v \/ (In v ar_urls /\ k = english_equivalent v).
Proof.
  induction ar_urls as [|a l IH]; intros m0 k v; cbn [fold_left]; [now left|].
  intros H. apply IH in H as [H|[Hin E]].
  - apply lookup_insert_Some in H as [[<- <-]|[_ H]].
    + right. split; [now left|reflexivity].
    + now left.
  - right. split; [now right|exact E].
Qed.

Lemma map_arabic_sound ar_urls k v :
  map_arabic ar_urls !! k = Some v -> In v ar_urls /\ k = english_equivalent v.
Proof.
  intros H. apply (map_arabic_fold ar_urls ∅ k v) in H as [H|H]; [|exact H].
  rewrite lookup_empty in H. discriminate.
Qed.

Section Fetcher.

Variable json_loads : string -> option json.
Variable iso_to_readable : string -> option string.
Variable urljoin : string -> string -> string.
Variable parse_html : string -> Soup.node.
Variable SELENIUM_AVAILABLE : bool.

Local Notation extract :=
  (extract_event_details json_loads iso_to_readable parse_html SELENIUM_AVAILABLE).
Local Notation loop :=
  (details_loop json_loads iso_to_readable parse_html SELENIUM_AVAILABLE).
Local Notation fetch_all :=
  (fetch_all_events json_loads iso_to_readable urljoin parse_html SELENIUM_AVAILABLE).
Local Notation listing_urls := (extract_event_urls_from_listing urljoin parse_html).

Lemma details_loop_records self url_mapping en_urls : forall events0 w events w',
  loop self url_mapping en_urls events0 w = (Ok events, w') ->
  exists new,
    events = events0 ++ new
    /\ sublist (map url new) en_urls
    /\ Forall (paired url_mapping) new.
Proof.
  induction en_urls as [|en_url rest IH]; intros events0 w events w'.
  - cbn [details_loop]. unfold Ex.ret. intros [= <- <-].
    exists []. rewrite app_nil_r. repeat split; constructor.
  - cbn [details_loop]. unfold Ex.bind at 1.
    destruct (extract self en_url w) as [[[details|]|e] w1]; [| |discriminate].
    + set (ar_url := default EmptyString (url_mapping !! en_url)).
      unfold Ex.bind at 1.
      assert (Hnext : forall title_ar w2,
                 (Ex.bind (Ex.lift (St.sleep 1))
                    (fun _ => loop self url_mapping rest
                       (events0 ++
                        [{| title := d_title details; title_ar := title_ar;
                            url := en_url; url_ar := ar_url;
                            start_date := d_start_date details;
                            end_date := d_end_date details;
                            location := d_location details;
                            organizer := d_organizer details;
                            description := d_description details;
                            image_url := d_image_url details;
                            organizer_url := d_organizer_url details |}])) w2
                  = (Ok events, w')) ->
                 (ar_url = EmptyString -> title_ar = JStr EmptyString) ->
                 exists new,
                   events = events0 ++ new
                   /\ sublist (map url new) (en_url :: rest)
                   /\ Forall (paired url_mapping) new).
      { intros title_ar w2 Hrun Htitle.
        unfold Ex.bind, Ex.lift, St.sleep in Hrun.
        apply IH in Hrun as (new & -> & Hsub & Hall).
        eexists (_ :: new). rewrite <- app_assoc. split; [reflexivity|].
        split; [cbn [map url]; apply sublist_skip, Hsub|].
        constructor; [|exact Hall]. split; [reflexivity|exact Htitle]. }
      destruct (PyStr.truthy ar_url) eqn:Har.
      * unfold Ex.bind at 1.
        destruct (extract self ar_url w1) as [[ar_details|e] w2]; [|discriminate].
        unfold Ex.ret. intros Hrun. apply (Hnext _ _ Hrun).
        intros E. rewrite E in Har. discriminate.
      * unfold Ex.ret. intros Hrun. apply (Hnext _ _ Hrun). reflexivity.
    + intros Hrun. apply IH in Hrun as (new & -> & Hsub & Hall).
      exists new. split; [reflexivity|]. split; [apply sublist_cons, Hsub|exact Hall].
Qed.

(** X17.  In the list [fetch_all_events] returns, the URLs are
    pairwise distinct and are URLs of the English listing, in the order
    of the listing, at most one record for each.  A record has an
    Arabic title only with an Arabic URL, and an Arabic URL only when
    the Arabic pass was asked for; that URL has the same slug as the
    record's own URL. *)
Theorem bilingual_records self include_arabic w events w' :
  fetch_all self include_arabic w = (Ok events, w') ->
  NoDup (map url events)
  /\ (events = []
      \/ exists en_page w1,
          fetch_page SELENIUM_AVAILABLE self (base_url_en self) 3 w
          = (Ok (Some en_page), w1)
          /\ sublist (map url events) (listing_urls en_page (base_url_en self)))
  /\ Forall (same_slug include_arabic) events.
Proof.
  unfold fetch_all_events, Ex.bind at 1.
  destruct (fetch_page SELENIUM_AVAILABLE self (base_url_en self) 3 w)
    as [[[en_page|]|e] w1]; [| |discriminate].
  2:{ unfold Ex.ret. intros [= <- <-]. split; [constructor|]. split; [now left|constructor]. }
  destruct (PyStr.truthy en_page); cbn [negb].
  2:{ unfold Ex.ret. intros [= <- <-]. split; [constructor|]. split; [now left|constructor]. }
  unfold Ex.bind at 1.
  assert (Hloop : forall url_mapping w2,
             (forall k v, url_mapping !! k = Some v ->
                          include_arabic = true /\ k = english_equivalent v) ->
             loop self url_mapping (listing_urls en_page (base_url_en self)) [] w2
             = (Ok events, w') ->
             NoDup (map url events)
             /\ (events = []
                 \/ exists en_page0 w0,
                     (Ok (Some en_page), w1) = (Ok (Some en_page0), w0)
                     /\ sublist (map url events)
                                (listing_urls en_page0 (base_url_en self)))
             /\ Forall (same_slug include_arabic) events).
  { intros url_mapping w2 Hmap Hrun.
    apply details_loop_records in Hrun as (new & -> & Hsub & Hall).
    cbn [app]. split; [|split].
    - eapply sublist_NoDup; [|exact Hsub].
      apply AdnecListing.listing_urls_nodup.
    - right. exists en_page, w1. split; [reflexivity|exact Hsub].
    - eapply Forall_impl; [exact Hall|].
      intros e [Hurl Htitle]. split; [exact Htitle|].
      intros Hne. destruct (url_mapping !! url e) as [v|] eqn:Hlook.
      + simpl in Hurl. rewrite <- Hurl in Hlook. apply (Hmap _ _ Hlook).
      + simpl in Hurl. contradiction. }
  destruct include_arabic.
  - unfold Ex.bind at 1.
    destruct (fetch_page SELENIUM_AVAILABLE self (base_url_ar self) 3 w1)
      as [[ar_html|e] w2]; [|discriminate].
    unfold Ex.ret. apply Hloop.
    intros k v Hlook. split; [reflexivity|].
    destruct ar_html as [ar_page|]; [|rewrite lookup_empty in Hlook; discriminate].
    destruct (PyStr.truthy ar_page); [|rewrite lookup_empty in Hlook; discriminate].
    apply (map_arabic_sound _ _ _ Hlook).
  - unfold Ex.ret. apply Hloop.
    intros k v Hlook. rewrite lookup_empty in Hlook. discriminate.
Qed.

End Fetcher.

End Bilingual.

(* ===================================================================== *)
(** ** The further properties on the sample pages and worlds *)
(* ===================================================================== *)

Module MoreRuns.
Import Io Spec Notions.

(** No record comes from an anchor of a page that has no node. *)
Remark empty_page_has_no_event_link urljoin base e :
  ~ from_event_link urljoin (Soup.Elem "[document]" [] []) base e.
Proof. intros [(link & [] & _) _]. Qed.

(** X2 on the sample month page: the ADIPEC record comes from the
    ADIPEC anchor of that page. *)
Lemma records_come_from_event_links_witness :
  (In Samples.adipec Samples.calendar_records
   \/ In Samples.adipec Samples.list_records)
  /\ from_event_link UrlModel.urljoin Samples.month_page Samples.january
                     Samples.adipec
  /\ (In Samples.adipec Samples.calendar_records ->
      AbuDhabi.view_event_url Samples.adipec = AbuDhabi.url Samples.adipec).
Proof.
  split; [left; left; reflexivity|].
  apply (AbuDhabiShape.records_come_from_event_links
           UrlModel.urljoin Samples.no_match Samples.no_match Samples.no_match
           Samples.month_page Samples.january Samples.adipec).
  left. left. reflexivity.
Defined.

(** X3 with the network down. *)
Lemma month_fetch_unavailable_witness :
  (forall i, (i < 3)%nat ->
             http Samples.offline (sent Samples.offline + i)%nat
                  (AbuDhabi.get_month_url 1 2025) = None)
  /\ fst (Samples.month_cycle 1 2025 Samples.offline) = []
  /\ trace (snd (Samples.month_cycle 1 2025 Samples.offline))
     = trace Samples.offline
       ++ [HttpGet Samples.january; Sleep 1; HttpGet Samples.january; Sleep 2;
           HttpGet Samples.january]
  /\ sent (snd (Samples.month_cycle 1 2025 Samples.offline))
     = (sent Samples.offline + 3)%nat.
Proof.
  split; [intros i _; reflexivity|].
  apply (RangeBudget.month_fetch_unavailable
           UrlModel.urljoin (fun _ => Samples.month_page)
           Samples.no_match Samples.no_match Samples.no_match
           1 2025 Samples.offline).
  intros i _. reflexivity.
Defined.

(** X5 on January to March 2025 with the network down: nine requests
    and twelve time units of waiting, the most three months can
    cost. *)
Lemma range_request_budget_witness :
  (1 <= 1 <= 12)%Z /\ (1 <= 3 <= 12)%Z
  /\ length (months_between 1 2025 3 2025) = 3%nat
  /\ length (requests (trace (snd (Samples.range_run 1 2025 3 2025 Samples.offline))))
     = 9%nat
  /\ wait_time (trace (snd (Samples.range_run 1 2025 3 2025 Samples.offline))) = 12%Z
  /\ exists t,
      trace (snd (Samples.range_run 1 2025 3 2025 Samples.offline))
      = trace Samples.offline ++ t
      /\ (length (months_between 1 2025 3 2025) <= length (requests t)
          <= 3 * length (months_between 1 2025 3 2025))%nat
      /\ (Z.of_nat (length (months_between 1 2025 3 2025)) <= wait_time t
          <= 4 * Z.of_nat (length (months_between 1 2025 3 2025)))%Z.
Proof.
  split; [lia|]. split; [lia|]. split; [reflexivity|].
  split; [reflexivity|]. split; [reflexivity|].
  apply (RangeBudget.range_request_budget
           UrlModel.urljoin (fun _ => Samples.month_page)
           Samples.no_match Samples.no_match Samples.no_match
           1 2025 3 2025 Samples.offline); lia.
Defined.

(** X9 on a machine where Chrome starts and the page does not load:
    absence, and the driver is quit. *)
Lemma browser_always_released_witness :
  chrome_starts Samples.offline = true
  /\ Adnec.fetch_page_with_selenium true AdnecSamples.adipec_url Samples.offline
     = (Ok None,
        {| http := http Samples.offline; chrome_starts := true;
           browser := browser Samples.offline; sent := 0;
           trace := [ChromeStart; ChromeGet AdnecSamples.adipec_url; ChromeQuit] |})
  /\ exists r k w',
      Adnec.fetch_page_with_selenium true AdnecSamples.adipec_url Samples.offline
      = (Ok r, w')
      /\ session AdnecSamples.adipec_url k Samples.offline w'
      /\ (k <= 10)%nat
      /\ (r = None
          <-> browser Samples.offline AdnecSamples.adipec_url = None
              \/ exists page,
                  browser Samples.offline AdnecSamples.adipec_url = Some page
                  /\ grid_present page = false)
      /\ (r = None -> k = 0%nat).
Proof.
  split; [reflexivity|]. split; [reflexivity|].
  apply (Browser.browser_always_released AdnecSamples.adipec_url Samples.offline).
  reflexivity.
Defined.

(** X10 on the lazy listing: the fourth scroll is the first that brings
    nothing new, and the source returned is the one after it. *)
Lemma scrolling_stops_at_first_stall_witness :
  chrome_starts (BrowserSamples.rendering BrowserSamples.lazy_page) = true
  /\ browser (BrowserSamples.rendering BrowserSamples.lazy_page)
             "https://www.adnec.ae/en/eventlisting"
     = Some BrowserSamples.lazy_page
  /\ grid_present BrowserSamples.lazy_page = true
  /\ fst (Adnec.fetch_page_with_selenium
            true "https://www.adnec.ae/en/eventlisting"
            (BrowserSamples.rendering BrowserSamples.lazy_page))
     = Ok (Some "scrolls: 4")
  /\ exists k w',
      Adnec.fetch_page_with_selenium
        true "https://www.adnec.ae/en/eventlisting"
        (BrowserSamples.rendering BrowserSamples.lazy_page)
      = (Ok (Some (page_source BrowserSamples.lazy_page k)), w')
      /\ session "https://www.adnec.ae/en/eventlisting" k
                 (BrowserSamples.rendering BrowserSamples.lazy_page) w'
      /\ scrolls_until_stall BrowserSamples.lazy_page k.
Proof.
  split; [reflexivity|]. split; [reflexivity|]. split; [reflexivity|].
  split; [reflexivity|].
  apply (Browser.scrolling_stops_at_first_stall
           "https://www.adnec.ae/en/eventlisting" BrowserSamples.lazy_page
           (BrowserSamples.rendering BrowserSamples.lazy_page)); reflexivity.
Defined.

(** X11 on a machine where Chrome does not start. *)
Lemma driver_failure_escapes_witness :
  chrome_starts BrowserSamples.no_chrome = false
  /\ Adnec.fetch_page_with_selenium true "https://www.adnec.ae/en/eventlisting"
                                    BrowserSamples.no_chrome
     = (Raise WebDriverException, emit ChromeStart BrowserSamples.no_chrome)
  /\ Adnec.fetch_all_events MiniJson.loads AdnecSamples.no_date UrlModel.urljoin
                            AdnecSamples.parse true (Adnec.init true true) true
                            BrowserSamples.no_chrome
     = (Raise WebDriverException, emit ChromeStart BrowserSamples.no_chrome).
Proof.
  split; [reflexivity|].
  apply (Browser.driver_failure_escapes
           MiniJson.loads AdnecSamples.no_date UrlModel.urljoin AdnecSamples.parse
           true "https://www.adnec.ae/en/eventlisting" BrowserSamples.no_chrome).
  reflexivity.
Defined.

(** X15 with the network down. *)
Lemma detail_fetch_failure_skips_witness :
  browser_path AdnecSamples.plain_fetcher AdnecSamples.adipec_url = false
  /\ (forall i, (i < 3)%nat ->
                http Samples.offline (sent Samples.offline + i)%nat
                     AdnecSamples.adipec_url = None)
  /\ exists w1,
      AdnecSamples.extract false AdnecSamples.plain_fetcher AdnecSamples.adipec_url
                           Samples.offline
      = (Ok None, w1)
      /\ trace w1
         = trace Samples.offline
           ++ [HttpGet AdnecSamples.adipec_url; Sleep 1;
               HttpGet AdnecSamples.adipec_url; Sleep 2;
               HttpGet AdnecSamples.adipec_url]
      /\ forall url_mapping rest events,
          Adnec.details_loop MiniJson.loads AdnecSamples.no_date AdnecSamples.parse
                             false AdnecSamples.plain_fetcher url_mapping
                             (AdnecSamples.adipec_url :: rest) events Samples.offline
          = Adnec.details_loop MiniJson.loads AdnecSamples.no_date AdnecSamples.parse
                               false AdnecSamples.plain_fetcher url_mapping
                               rest events w1.
Proof.
  split; [reflexivity|]. split; [intros i _; reflexivity|].
  apply (DetailFetch.detail_fetch_failure_skips
           MiniJson.loads AdnecSamples.no_date AdnecSamples.parse false
           AdnecSamples.plain_fetcher AdnecSamples.adipec_url Samples.offline);
    [reflexivity|intros i _; reflexivity].
Defined.

(** The run of the aggregator on the sample site in both languages:
    one record, with the Arabic title and URL of the same event. *)
Example bilingual_run :
  fst (BilingualSamples.fetch_all true BilingualSamples.site)
  = Ok [BilingualSamples.adipec].
Proof. vm_compute. reflexivity. Qed.

(** X17 on the sample site in both languages. *)
Lemma bilingual_records_witness :
  let run := BilingualSamples.fetch_all true BilingualSamples.site in
  run = (Ok [BilingualSamples.adipec], snd run)
  /\ Adnec.url BilingualSamples.adipec
     = english_equivalent (Adnec.url_ar BilingualSamples.adipec)
  /\ NoDup (map Adnec.url [BilingualSamples.adipec])
  /\ ([BilingualSamples.adipec] = []
      \/ exists en_page w1,
          Adnec.fetch_page false AdnecSamples.plain_fetcher
                           (Adnec.base_url_en AdnecSamples.plain_fetcher) 3
                           BilingualSamples.site
          = (Ok (Some en_page), w1)
          /\ sublist (map Adnec.url [BilingualSamples.adipec])
                     (Adnec.extract_event_urls_from_listing
                        UrlModel.urljoin BilingualSamples.parse en_page
                        (Adnec.base_url_en AdnecSamples.plain_fetcher)))
  /\ Forall (same_slug true) [BilingualSamples.adipec].
Proof.
  cbv zeta.
  assert (Hrun : BilingualSamples.fetch_all true BilingualSamples.site
                 = (Ok [BilingualSamples.adipec],
                    snd (BilingualSamples.fetch_all true BilingualSamples.site)))
    by (vm_compute; reflexivity).
  split; [exact Hrun|]. split; [reflexivity|].
  apply (Bilingual.bilingual_records
           MiniJson.loads AdnecSamples.no_date UrlModel.urljoin
           BilingualSamples.parse false AdnecSamples.plain_fetcher true
           BilingualSamples.site [BilingualSamples.adipec]
           (snd (BilingualSamples.fetch_all true BilingualSamples.site))).
  exact Hrun.
Defined.


End MoreRuns.
